(** * The editor's view logic, embedded and verified

    A shallow embedding of the script blocks of the editor's Vue
    components: the PlantUML token encoder of [DesignStudio.vue], the
    configuration loaders, the diagram generators with their local
    fallback, the remote template loaders, the template upload dialog and
    the metrics dashboard's chart data.

    JavaScript strings are sequences of UTF-16 code units, a [Uint8Array]
    is a list of bytes, a completion is either a returned value or a thrown
    error, and what the browser or a third-party package provides (the
    DEFLATE compressor, [JSON.parse], [Date] parsing, Unicode case mapping)
    is a parameter of the functions that call it. *)

From Stdlib Require Import ZArith List Lia Ascii String Bool Permutation Sorted.
From Stdlib.Strings Require Import Byte.
From stdpp Require Import base option list gmap strings pretty.

Set Warnings "-register-all".
Import ListNotations.

(** ** JavaScript values shared by every component *)

Module JS.
Local Open Scope Z_scope.

(** A string is its sequence of UTF-16 code units. *)
Abbreviation jsstring := (list Z).

Definition code (c : ascii) : Z := Z.of_N (N_of_ascii c).

(** The code units of a literal written with ASCII characters only. *)
Definition ascii_str (s : string) : jsstring :=
  map code (list_ascii_of_string s).

(** Source literals are stored as UTF-8; [lit] gives the code units the
    JavaScript literal denotes. *)
Fixpoint utf8_points (bs : list Z) : list Z :=
  match bs with
  | [] => []
  | b0 :: r0 =>
    if b0 <? 0x80 then b0 :: utf8_points r0
    else
      match r0 with
      | [] => [0xFFFD]
      | b1 :: r1 =>
        if b0 <? 0xE0 then ((b0 mod 32) * 64 + b1 mod 64) :: utf8_points r1
        else
          match r1 with
          | [] => [0xFFFD]
          | b2 :: r2 =>
            if b0 <? 0xF0
            then (((b0 mod 16) * 64 + b1 mod 64) * 64 + b2 mod 64) :: utf8_points r2
            else
              match r2 with
              | [] => [0xFFFD]
              | b3 :: r3 =>
                ((((b0 mod 8) * 64 + b1 mod 64) * 64 + b2 mod 64) * 64 + b3 mod 64)
                  :: utf8_points r3
              end
          end
      end
  end.

Definition units_of_point (cp : Z) : list Z :=
  if cp <? 0x10000 then [cp]
  else [0xD800 + (cp - 0x10000) / 0x400; 0xDC00 + (cp - 0x10000) mod 0x400].

Definition lit (s : string) : jsstring :=
  flat_map units_of_point (utf8_points (ascii_str s)).

(** A number is an integer or NaN (the only non-integers the modelled
    code computes with). *)
Inductive Number := Int (z : Z) | NaN.

Inductive error :=
| RangeError
| URIError
| InvalidCharacterError
| TypeError
| SyntaxError
| HostError (msg : jsstring).

(** The outcome of evaluating an expression or running a block. *)
Inductive completion (A : Type) :=
| Returns (a : A)
| Throws (e : error).
Arguments Returns {A} a.
Arguments Throws {A} e.

Definition bind {A B} (c : completion A) (k : A -> completion B) : completion B :=
  match c with
  | Returns a => k a
  | Throws e => Throws e
  end.

(** [try { body } catch (e) { handler e }] *)
Definition try_catch {A} (body : completion A) (handler : error -> completion A)
  : completion A :=
  match body with
  | Returns a => Returns a
  | Throws e => handler e
  end.

(** A [try] whose [catch] only logs: the state keeps the value [kept]. *)
Definition try_catch_value {A} (body : completion A) (kept : A) : A :=
  match body with
  | Returns a => a
  | Throws _ => kept
  end.

Definition is_high_surrogate (u : Z) : bool := (0xD800 <=? u) && (u <=? 0xDBFF).
Definition is_low_surrogate (u : Z) : bool := (0xDC00 <=? u) && (u <=? 0xDFFF).
Definition pair_point (hi lo : Z) : Z := 0x10000 + (hi - 0xD800) * 0x400 + (lo - 0xDC00).

(** UTF-8 octets of a code point. *)
Definition utf8_octets (cp : Z) : list Z :=
  if cp <? 0x80 then [cp]
  else if cp <? 0x800 then [0xC0 + cp / 64; 0x80 + cp mod 64]
  else if cp <? 0x10000
    then [0xE0 + cp / 4096; 0x80 + (cp / 64) mod 64; 0x80 + cp mod 64]
    else [0xF0 + cp / 262144; 0x80 + (cp / 4096) mod 64;
          0x80 + (cp / 64) mod 64; 0x80 + cp mod 64].

(** [ToInt32], applied by every bitwise operator to its operands. *)
Definition int32 (z : Z) : Z :=
  let m := z mod 2 ^ 32 in if 2 ^ 31 <=? m then m - 2 ^ 32 else m.

Definition ToInt32 (n : Number) : Z :=
  match n with
  | Int z => int32 z
  | NaN => 0
  end.

(** [a >> k], [a << k], [a & b], [a | b] on operands already in int32. *)
Definition js_shr (a k : Z) : Z := Z.shiftr a (k mod 32).
Definition js_shl (a k : Z) : Z := int32 (Z.shiftl a (k mod 32)).
Definition js_and (a b : Z) : Z := Z.land a b.
Definition js_or (a b : Z) : Z := Z.lor a b.

(** [s.charAt(i)]: the one-unit string at [i], or the empty string. *)
Definition charAt (s : jsstring) (i : Z) : jsstring :=
  if (0 <=? i) && (i <? Z.of_nat (length s)) then [nth (Z.to_nat i) s 0] else [].

(** [s.charCodeAt(i)]: the unit at [i], or NaN past the end. *)
Definition charCodeAt (s : jsstring) (i : nat) : Number :=
  match nth_error s i with
  | Some c => Int c
  | None => NaN
  end.

(** White space and line terminators, as [String.prototype.trim] strips them. *)
Definition is_white_space (c : Z) : bool :=
  (c =? 0x09) || (c =? 0x0A) || (c =? 0x0B) || (c =? 0x0C) || (c =? 0x0D)
  || (c =? 0x20) || (c =? 0xA0) || (c =? 0x1680)
  || ((0x2000 <=? c) && (c <=? 0x200A))
  || (c =? 0x2028) || (c =? 0x2029) || (c =? 0x202F) || (c =? 0x205F)
  || (c =? 0x3000) || (c =? 0xFEFF).

Fixpoint trim_start (s : jsstring) : jsstring :=
  match s with
  | [] => []
  | c :: r => if is_white_space c then trim_start r else s
  end.

Definition trim (s : jsstring) : jsstring := rev (trim_start (rev (trim_start s))).

(** Truthiness of a string: non-empty. *)
Definition truthy (s : jsstring) : bool :=
  match s with
  | [] => false
  | _ :: _ => true
  end.

Fixpoint starts_with (p s : jsstring) : bool :=
  match p, s with
  | [], _ => true
  | _ :: _, [] => false
  | a :: p', b :: s' => (a =? b) && starts_with p' s'
  end.

(** [s.includes(p)] *)
Fixpoint includes (s p : jsstring) : bool :=
  starts_with p s ||
  match s with
  | [] => false
  | _ :: s' => includes s' p
  end.
(** *** JSON values and objects *)

(** A number is [m * 10 ^ e]; an object maps property names to values. *)
Inductive json :=
| JNull
| JBool (b : bool)
| JNum (m e : Z)
| JStr (s : jsstring)
| JArr (l : list json)
| JObj (o : gmap string json).

Definition isArray (v : json) : bool :=
  match v with
  | JArr _ => true
  | _ => false
  end.

(** Array elements (or the units of a string) as properties "0", "1", ... *)
Definition indexed (l : list json) : gmap string json :=
  list_to_map (imap (fun i v => (pretty i, v)) l).

(** The own enumerable properties a spread [...v] copies. *)
Definition own_properties (v : json) : gmap string json :=
  match v with
  | JObj o => o
  | JArr l => indexed l
  | JStr s => indexed (map (fun c => JStr [c]) s)
  | JNull | JBool _ | JNum _ _ => ∅
  end.

(** [{ ...target, ...source }]: the properties of [source] win. *)
Definition spread (target : gmap string json) (source : json) : gmap string json :=
  own_properties source ∪ target.

(** [v.k] for a value that is not null; [None] is [undefined]. *)
Definition get_property (v : json) (k : string) : option json :=
  own_properties v !! k.

(** A promise, once settled. *)
Inductive settled (A : Type) :=
| Resolved (a : A)
| Rejected (e : error).
Arguments Resolved {A} a.
Arguments Rejected {A} e.

Definition dq : string := String "034"%char EmptyString.

(** The pieces of a literal, joined by the double quotes that separate them. *)
Definition quoted (pieces : list string) : string := String.concat dq pieces.

(** A [JSON.parse] that knows a few texts and rejects every other one; it
    stands in for the engine's parser in closed examples. *)
Definition sample_texts : list (jsstring * json) :=
  [ (ascii_str "{}", JObj ∅);
    (ascii_str "[]", JArr []);
    (ascii_str "null", JNull);
    (ascii_str "7", JNum 7 0);
    (ascii_str (quoted ["{"; "provider"; ":"; "openai"; "}"]),
     JObj (<["provider"%string := JStr (ascii_str "openai")]> ∅)) ].

Definition sample_JSON_parse (s : jsstring) : completion json :=
  match find (fun p => bool_decide (fst p = s)) sample_texts with
  | Some p => Returns (snd p)
  | None => Throws SyntaxError
  end.
End JS.

(** ** The PlantUML token encoder ([views/DesignStudio.vue]) *)

Module Encoder.
Import JS.
Local Open Scope Z_scope.

(** *** Bytes and [TextEncoder] *)

Definition byte_val (b : byte) : Z := Z.of_N (Byte.to_N b).

Definition octet (z : Z) : byte := default x00 (Byte.of_N (Z.to_N (z mod 256))).

(** The scalar values of a string: a surrogate pair is one code point, an
    unpaired surrogate is replaced by U+FFFD (as [TextEncoder] does). *)
Fixpoint scalar_values (s : jsstring) : list Z :=
  match s with
  | [] => []
  | u :: rest =>
    if is_high_surrogate u then
      match rest with
      | v :: rest' =>
        if is_low_surrogate v then pair_point u v :: scalar_values rest'
        else 0xFFFD :: scalar_values rest
      | [] => [0xFFFD]
      end
    else if is_low_surrogate u then 0xFFFD :: scalar_values rest
    else u :: scalar_values rest
  end.

(** [new TextEncoder().encode(text)] *)
Definition TextEncoder_encode (text : jsstring) : list byte :=
  map octet (flat_map utf8_octets (scalar_values text)).

(** *** The [pako] package

    [pako] is a dependency of the repository, not part of it. Its
    documented interface: [pako.deflateRaw] produces a raw DEFLATE stream,
    and [pako.deflate] produces the same stream inside the zlib wrapper of
    RFC 1950 (a two-byte header, then the DEFLATE stream, then the Adler-32
    checksum of the uncompressed data, most significant byte first). The
    DEFLATE compressor itself is a parameter; it may throw. *)

Definition adler32 (data : list byte) : Z :=
  let '(a, b) :=
    fold_left (fun '(a, b) x =>
                 let a' := (a + byte_val x) mod 65521 in (a', (b + a') mod 65521))
              data (1, 0) in
  b * 65536 + a.

Definition be32 (v : Z) : list byte :=
  [octet (v / 2 ^ 24); octet (v / 2 ^ 16); octet (v / 2 ^ 8); octet v].

(** CMF is 0x78 (deflate, 32K window); FLG carries the level class and
    makes the 16-bit header a multiple of 31. *)
Definition zlib_header (level : Z) : list byte :=
  let level_flags :=
    if level <? 2 then 0 else if level <? 6 then 1 else if level =? 6 then 2 else 3 in
  let header := 0x7800 + level_flags * 64 in
  let header := header + (31 - header mod 31) in
  [octet (header / 256); octet header].

Section WithHost.

(** [deflateRaw level data]: the raw DEFLATE stream, or [None] when the
    compressor throws. *)
Variable deflateRaw : Z -> list byte -> option (list byte).

(** The largest number of arguments the engine accepts in one call. *)
Variable max_arguments : Z.

(** [pako.deflateRaw(data, { level })] *)
Definition pako_deflateRaw (data : list byte) (level : Z) : completion (list byte) :=
  match deflateRaw level data with
  | Some body => Returns body
  | None => Throws (HostError (ascii_str "pako"))
  end.

(** [pako.deflate(data, { level })] *)
Definition pako_deflate (data : list byte) (level : Z) : completion (list byte) :=
  match deflateRaw level data with
  | Some body => Returns (zlib_header level ++ body ++ be32 (adler32 data))
  | None => Throws (HostError (ascii_str "pako"))
  end.

(** [String.fromCharCode(...bytes)]: one code unit per byte; spreading more
    elements than the engine accepts as arguments throws a RangeError. *)
Definition String_fromCharCode (bytes : list byte) : completion jsstring :=
  if max_arguments <? Z.of_nat (length bytes) then Throws RangeError
  else Returns (map byte_val bytes).

(** *** The custom base64 stage *)

Definition chars : jsstring :=
  ascii_str "0123456789ABCDEFGHIJKLMNOPQRSTUVWXYZabcdefghijklmnopqrstuvwxyz-_".

Definition append3bytes (b1 b2 b3 : Number) : jsstring :=
  let c1 := js_shr (ToInt32 b1) 2 in
  let c2 := js_or (js_shl (js_and (ToInt32 b1) 0x3) 4) (js_shr (ToInt32 b2) 4) in
  let c3 := js_or (js_shl (js_and (ToInt32 b2) 0xF) 2) (js_shr (ToInt32 b3) 6) in
  let c4 := js_and (ToInt32 b3) 0x3F in
  charAt chars c1 ++ charAt chars c2 ++ charAt chars c3 ++ charAt chars c4.

(** The [for] loop of [encode64]: [i] is the loop index, [r] the
    accumulated output; each iteration consumes one unit of [fuel]. *)
Fixpoint encode64_loop (fuel : nat) (data : jsstring) (i : nat) (r : jsstring)
  : jsstring :=
  match fuel with
  | O => r
  | S fuel' =>
    if (i <? length data)%nat then
      let r' :=
        if (i + 2 =? length data)%nat then
          r ++ append3bytes (charCodeAt data i) (charCodeAt data (i + 1)) (Int 0)
        else if (i + 1 =? length data)%nat then
          r ++ append3bytes (charCodeAt data i) (Int 0) (Int 0)
        else
          r ++ append3bytes (charCodeAt data i) (charCodeAt data (i + 1))
                            (charCodeAt data (i + 2)) in
      encode64_loop fuel' data (i + 3)%nat r'
    else r
  end.

(** The loop index grows by 3, so [length data] iterations are never
    exhausted (theorem [encode64_loop_fuel]). *)
Definition encode64 (data : jsstring) : jsstring :=
  encode64_loop (length data) data 0%nat [].

(** *** The fallback: [btoa(unescape(encodeURIComponent(text)))] *)

Definition is_digit (c : Z) : bool := (48 <=? c) && (c <=? 57).
Definition is_upper (c : Z) : bool := (65 <=? c) && (c <=? 90).
Definition is_lower (c : Z) : bool := (97 <=? c) && (c <=? 122).

(** The characters [encodeURIComponent] leaves alone:
    letters, digits and [- _ . ! ~ * ' ( )]. *)
Definition is_unreserved (c : Z) : bool :=
  is_digit c || is_upper c || is_lower c
  || (c =? 45) || (c =? 95) || (c =? 46) || (c =? 33) || (c =? 126)
  || (c =? 42) || (c =? 39) || (c =? 40) || (c =? 41).

Definition hex_digit (v : Z) : Z := if v <? 10 then 48 + v else 55 + v.

(** ["%XX"] for one octet, upper-case digits. *)
Definition percent (o : Z) : jsstring := [37; hex_digit (o / 16); hex_digit (o mod 16)].

Fixpoint encodeURIComponent (s : jsstring) : completion jsstring :=
  match s with
  | [] => Returns []
  | c :: rest =>
    if is_unreserved c then
      bind (encodeURIComponent rest) (fun r => Returns (c :: r))
    else if is_high_surrogate c then
      match rest with
      | d :: rest' =>
        if is_low_surrogate d then
          bind (encodeURIComponent rest')
               (fun r => Returns (flat_map percent (utf8_octets (pair_point c d)) ++ r))
        else Throws URIError
      | [] => Throws URIError
      end
    else if is_low_surrogate c then Throws URIError
    else
      bind (encodeURIComponent rest)
           (fun r => Returns (flat_map percent (utf8_octets c) ++ r))
  end.

Definition is_hex (c : Z) : bool :=
  is_digit c || ((65 <=? c) && (c <=? 70)) || ((97 <=? c) && (c <=? 102)).

Definition hex_val (c : Z) : Z :=
  if is_digit c then c - 48 else if c <=? 70 then c - 55 else c - 87.

(** [unescape]: ["%uXXXX"] and ["%XX"] become the code unit they name. *)
Fixpoint unescape (s : jsstring) : jsstring :=
  match s with
  | [] => []
  | c :: rest =>
    if c =? 37 then
      match rest with
      | c1 :: c2 :: rest2 =>
        match rest2 with
        | c3 :: c4 :: c5 :: rest5 =>
          if (c1 =? 117) && is_hex c2 && is_hex c3 && is_hex c4 && is_hex c5 then
            (((hex_val c2 * 16 + hex_val c3) * 16 + hex_val c4) * 16 + hex_val c5)
              :: unescape rest5
          else if is_hex c1 && is_hex c2 then
            (hex_val c1 * 16 + hex_val c2) :: unescape rest2
          else c :: unescape rest
        | _ =>
          if is_hex c1 && is_hex c2 then
            (hex_val c1 * 16 + hex_val c2) :: unescape rest2
          else c :: unescape rest
        end
      | _ => c :: unescape rest
      end
    else c :: unescape rest
  end.

Definition base64_chars : jsstring :=
  ascii_str "ABCDEFGHIJKLMNOPQRSTUVWXYZabcdefghijklmnopqrstuvwxyz0123456789+/".

Definition b64 (v : Z) : Z := nth (Z.to_nat v) base64_chars 0.

Fixpoint base64_groups (s : jsstring) : jsstring :=
  match s with
  | [] => []
  | [a] => [b64 (a / 4); b64 ((a mod 4) * 16); 61; 61]
  | [a; b] => [b64 (a / 4); b64 ((a mod 4) * 16 + b / 16); b64 ((b mod 16) * 4); 61]
  | a :: b :: c :: rest =>
    b64 (a / 4) :: b64 ((a mod 4) * 16 + b / 16)
      :: b64 ((b mod 16) * 4 + c / 64) :: b64 (c mod 64) :: base64_groups rest
  end.

(** [btoa]: standard base64 with [=] padding of a string of code units up
    to 255; any larger unit throws. *)
Definition btoa (s : jsstring) : completion jsstring :=
  if forallb (fun c => c <=? 255) s then Returns (base64_groups s)
  else Throws InvalidCharacterError.

(** *** [encodePlantUML] *)

(** The value of [compressed] in the [try] block: the buffer handed to the
    custom base64 stage. *)
Definition compressed_buffer (text : jsstring) : completion (list byte) :=
  let data := TextEncoder_encode text in
  pako_deflate data 9.

(** The [try] block. *)
Definition try_block (text : jsstring) : completion jsstring :=
  bind (compressed_buffer text) (fun compressed =>
  bind (String_fromCharCode compressed) (fun s =>
  Returns (encode64 s))).

(** The [catch] block. *)
Definition fallback_token (text : jsstring) : completion jsstring :=
  bind (encodeURIComponent text) (fun e => btoa (unescape e)).

Definition encodePlantUML (text : jsstring) : completion jsstring :=
  try_catch (try_block text) (fun _ => fallback_token text).

End WithHost.

(** *** The encoding as the specification words it *)

(** Groups of three, the last one padded with binary zeros. *)
Fixpoint groups_of_three (bs : list Z) : list (Z * Z * Z) :=
  match bs with
  | [] => []
  | [b1] => [(b1, 0, 0)]
  | [b1; b2] => [(b1, b2, 0)]
  | b1 :: b2 :: b3 :: rest => (b1, b2, b3) :: groups_of_three rest
  end.

Definition sextets (g : Z * Z * Z) : list Z :=
  let '(byte1, byte2, byte3) := g in
  [ Z.shiftr byte1 2;
    Z.lor (Z.shiftl (Z.land byte1 0x3) 4) (Z.shiftr byte2 4);
    Z.lor (Z.shiftl (Z.land byte2 0xF) 2) (Z.shiftr byte3 6);
    Z.land byte3 0x3F ].

Definition alphabet : string :=
  "0123456789ABCDEFGHIJKLMNOPQRSTUVWXYZabcdefghijklmnopqrstuvwxyz-_".

Definition alphabet_char (v : Z) : Z :=
  code (default "000"%char (String.get (Z.to_nat v) alphabet)).

Definition custom_base64 (bs : list Z) : jsstring :=
  flat_map (fun g => map alphabet_char (sextets g)) (groups_of_three bs).

(** Membership in the set 0-9, A-Z, a-z, '-', '_'. *)
Definition in_alphabet (c : Z) : bool :=
  is_digit c || is_upper c || is_lower c || (c =? 45) || (c =? 95).

(** The loop of [encode64], unrolled along the data. *)
Fixpoint encode64_unrolled (data : jsstring) : jsstring :=
  match data with
  | [] => []
  | [a] => append3bytes (Int a) (Int 0) (Int 0)
  | [a; b] => append3bytes (Int a) (Int b) (Int 0)
  | a :: b :: c :: rest => append3bytes (Int a) (Int b) (Int c) ++ encode64_unrolled rest
  end.

(** Every code unit is a 16-bit value. *)
Definition code_units (s : jsstring) : Prop := Forall (fun u => 0 <= u < 65536) s.

(** No surrogate of the string is unpaired. *)
Fixpoint well_paired (s : jsstring) : bool :=
  match s with
  | [] => true
  | u :: rest =>
    if is_high_surrogate u then
      match rest with
      | v :: rest' => is_low_surrogate v && well_paired rest'
      | [] => false
      end
    else if is_low_surrogate u then false
    else well_paired rest
  end.

(** The 256 bytes, for properties checked byte by byte. *)
Definition all_bytes : list byte := map (fun n => octet (Z.of_nat n)) (seq 0 256).

Definition one_char (s : jsstring) (c : Z) : bool :=
  match s with
  | [x] => x =? c
  | _ => false
  end.

Definition is_sextet (v : Z) : bool := (0 <=? v) && (v <? 64).

(** [out] is the one character the alphabet has at index [v], a 6-bit value. *)
Definition sextet_ok (out : jsstring) (v : Z) : bool :=
  one_char out (alphabet_char v) && is_sextet v.

(** *** Sample hosts *)

(** A compressor that emits one stored block (RFC 1951, BTYPE 00): a
    valid raw DEFLATE stream for inputs shorter than 65536 bytes. *)
Definition stored_block (_ : Z) (data : list byte) : option (list byte) :=
  let n := Z.of_nat (length data) in
  if n <? 65536 then
    Some ([octet 1; octet n; octet (n / 256); octet (255 - n mod 256);
           octet (255 - n / 256)] ++ data)
  else None.

(** A compressor that always throws. *)
Definition failing_deflate (_ : Z) (_ : list byte) : option (list byte) := None.

End Encoder.

(** ** Loading the AI configuration *)

Module Config.
Import JS.
Local Open Scope Z_scope.
Local Open Scope string_scope.

(** [defaultConfig] of [components/AIConfigModal.vue] *)
Definition defaultConfig : gmap string json :=
  <["provider" := JStr (ascii_str "demo")]>
  (<["apiKey" := JStr []]>
  (<["apiUrl" := JStr []]>
  (<["model" := JStr (ascii_str "gpt-4")]>
  (<["temperature" := JNum 7 (-1)]>
  (<["maxTokens" := JNum 2000 0]>
  (<["timeout" := JNum 30 0]>
  (<["templateUrl" := JStr (ascii_str "https://api.example.com/templates")]>
  (<["enableRemoteTemplate" := JBool false]>
  (<["enableStreaming" := JBool true]>
  (<["enableAutoSuggest" := JBool false]> ∅)))))))))).

(** The fields of the [AIConfig] interface. *)
Definition fields : list string :=
  ["provider"; "apiKey"; "apiUrl"; "model"; "temperature"; "maxTokens"; "timeout";
   "templateUrl"; "enableRemoteTemplate"; "enableStreaming"; "enableAutoSuggest"].

Definition storage_key : string := "ai-flow-studio-ai-config".

(** No field of the [AIConfig] interface is [undefined] in [v]. *)
Definition complete (v : json) : Prop :=
  Forall (fun k => is_Some (get_property v k)) fields.

Section WithHost.
Variable JSON_parse : jsstring -> completion json.

(** [loadConfig] of [components/AIConfigModal.vue]: [config] is the
    component's [config.value], [localStorage] the browser store. *)
Definition loadConfig (localStorage : gmap string jsstring) (config : json) : json :=
  try_catch_value
    (match localStorage !! storage_key with
     | Some saved =>
       if truthy saved then
         bind (JSON_parse saved) (fun parsed =>
         Returns (JObj (spread (spread ∅ (JObj defaultConfig)) parsed)))
       else Returns config
     | None => Returns config
     end)
    config.

(** The initial [aiConfig] of [views/DesignStudio.vue]. *)
Definition initial_aiConfig : json := JObj defaultConfig.

(** The configuration part of [onMounted] in [views/DesignStudio.vue]. *)
Definition onMounted (localStorage : gmap string jsstring) (aiConfig : json) : json :=
  match localStorage !! storage_key with
  | Some savedConfig =>
    if truthy savedConfig then
      try_catch_value (bind (JSON_parse savedConfig) (fun parsed => Returns parsed))
                      aiConfig
    else aiConfig
  | None => aiConfig
  end.

End WithHost.
End Config.

(** ** Diagram generation and its local fallback *)

Module Diagram.
Import JS.
Local Open Scope string_scope.
Local Open Scope Z_scope.
Local Open Scope list_scope.

Definition nl : jsstring := [10].

(** *** [generateDemoPlantUML] ([views/DesignStudio.vue]) *)

(** Every canned diagram opens with the same lines, up to the title. *)
Definition demo_head : string :=
quoted ["```plantuml
@startuml
!theme plain
skinparam backgroundColor #FEFEFE
title "].

Definition demo_login_tail : string :=
quoted ["

actor 用户 as User
participant ";
"前端应用";
" as Frontend
participant ";
"认证服务\nAuth Service";
" as Auth
database ";
"用户数据";
" as DB

User -> Frontend: 1. 输入账号密码
Frontend -> Auth: 2. POST /login
Auth -> DB: 3. 查询用户信息
DB --> Auth: 4. 返回用户数据
Auth -> Auth: 5. 验证密码哈希

alt 验证成功
    Auth --> Frontend: 6a. 返回 JWT Token
    Frontend --> User: 7a. 登录成功跳转
else 验证失败
    Auth --> Frontend: 6b. 返回 401 错误
    Frontend --> User: 7b. 显示错误提示
end

@enduml
```"].

Definition demo_order_tail : string :=
quoted ["

actor 用户 as User
participant ";
"订单服务\nOrder Service";
" as Order
participant ";
"库存服务\nStock Service";
" as Stock
participant ";
"支付服务\nPayment Service";
" as Pay
database ";
"订单数据库";
" as OrderDB

group 创建订单
    User -> Order: 1. 提交订单请求
    Order -> Stock: 2. 检查库存
    Stock --> Order: 3. 库存充足
    Order -> OrderDB: 4. 保存订单(状态:待支付)
    Order --> User: 5. 订单创建成功
end

group 支付流程
    User -> Pay: 6. 发起支付
    Pay -> OrderDB: 7. 更新订单状态(已支付)
    OrderDB --> Pay: 8. 更新成功
    Pay --> User: 9. 支付成功确认
end

@enduml
```"].

Definition demo_class_tail : string :=
quoted [" - 类图

class User {
  - Long id
  - String username
  - String email
  + Boolean login()
  + void logout()
}

class Order {
  - Long id
  - Long userId
  - BigDecimal amount
  + Boolean pay()
  + Boolean cancel()
}

User ";
"1";
" --> ";
"*";
" Order : 拥有 >

@enduml
```"].

Definition demo_flow_tail : string :=
quoted ["

start
:接收用户输入;
:系统处理请求;
if (条件判断?) then (条件成立)
  :执行分支 A;
else (条件不成立)
  :执行分支 B;
endif
:返回响应;
stop

@enduml
```"].

Definition canned (tail : string) (text : jsstring) : jsstring :=
  lit demo_head ++ text ++ lit tail.

(** *** Keyword matching, in the specification's words

    Each canned diagram but the last answers to three keywords; a
    description gets the first diagram one of whose keywords occurs in its
    lower-case form, and the flow chart when none does. *)
Definition keyword_groups : list (list string * string) :=
  [ (["登录"; "认证"; "鉴权"], demo_login_tail);
    (["订单"; "下单"; "购买"], demo_order_tail);
    (["类"; "class"; "对象"], demo_class_tail) ].

Definition keyword_matched_tail (desc_lower : jsstring) : string :=
  match find (fun group => existsb (fun k => includes desc_lower (lit k)) (fst group))
             keyword_groups with
  | Some group => snd group
  | None => demo_flow_tail
  end.

Section WithHost.
(** [String.prototype.toLowerCase], the engine's Unicode case mapping. *)
Variable toLowerCase : jsstring -> jsstring.

Definition generateDemoPlantUML (text : jsstring) : jsstring :=
  let desc_lower := toLowerCase text in
  if includes desc_lower (lit "登录") || includes desc_lower (lit "认证")
     || includes desc_lower (lit "鉴权") then
    canned demo_login_tail text
  else if includes desc_lower (lit "订单") || includes desc_lower (lit "下单")
          || includes desc_lower (lit "购买") then
    canned demo_order_tail text
  else if includes desc_lower (lit "类") || includes desc_lower (lit "class")
          || includes desc_lower (lit "对象") then
    canned demo_class_tail text
  else
    canned demo_flow_tail text.

(** *** The view state of [DesignStudio.vue] that generation touches

    [editor] is [None] while [editor.value] is [null] (before the editor
    is created, and after [onBeforeUnmount]); otherwise it holds the
    Markdown the editor instance contains. *)
Record view := {
  aiInput : jsstring;
  selectedText : jsstring;
  editor : option jsstring;
  docContent : jsstring;
  showAiPanel : bool;
  isGenerating : bool;
  toastMessage : jsstring;
  showToast : bool;
  provider : jsstring;
  apiKey : jsstring
}.

Definition showToastMessage (msg : jsstring) (v : view) : view :=
  {| aiInput := aiInput v; selectedText := selectedText v; editor := editor v;
     docContent := docContent v; showAiPanel := showAiPanel v;
     isGenerating := isGenerating v; toastMessage := msg; showToast := true;
     provider := provider v; apiKey := apiKey v |}.

Definition set_isGenerating (b : bool) (v : view) : view :=
  {| aiInput := aiInput v; selectedText := selectedText v; editor := editor v;
     docContent := docContent v; showAiPanel := showAiPanel v;
     isGenerating := b; toastMessage := toastMessage v; showToast := showToast v;
     provider := provider v; apiKey := apiKey v |}.

Definition set_selectedText (s : jsstring) (v : view) : view :=
  {| aiInput := aiInput v; selectedText := s; editor := editor v;
     docContent := docContent v; showAiPanel := showAiPanel v;
     isGenerating := isGenerating v; toastMessage := toastMessage v;
     showToast := showToast v; provider := provider v; apiKey := apiKey v |}.

(** [aiInput.value = ''; showAiPanel.value = false] *)
Definition close_panel (v : view) : view :=
  {| aiInput := []; selectedText := selectedText v; editor := editor v;
     docContent := docContent v; showAiPanel := false;
     isGenerating := isGenerating v; toastMessage := toastMessage v;
     showToast := showToast v; provider := provider v; apiKey := apiKey v |}.

(** [docContent.value = newContent], and [setMarkdown(newContent)] on the
    editor instance if there is one. *)
Definition set_document (newContent : jsstring) (v : view) : view :=
  {| aiInput := aiInput v; selectedText := selectedText v;
     editor := match editor v with Some _ => Some newContent | None => None end;
     docContent := newContent; showAiPanel := showAiPanel v;
     isGenerating := isGenerating v; toastMessage := toastMessage v;
     showToast := showToast v; provider := provider v; apiKey := apiKey v |}.

Definition section_title : jsstring :=
  nl ++ nl ++ lit "## 自动生成图表" ++ nl ++ nl.

Definition insertPlantUMLToEditor (plantumlCode : jsstring) (v : view) : view :=
  match editor v with
  | None => v
  | Some currentContent =>
    let newContent := currentContent ++ section_title ++ plantumlCode in
    set_document newContent v
  end.

(** An asynchronous handler runs in two steps: up to its [await], and from
    the moment the promise settles. The second step sees the view as it is
    then, which need not be the view the first step left. *)

(** [generatePlantUMLFromInput], up to the [await]: the new view and the
    description sent with the [generate_plantuml] command, if any. *)
Definition generatePlantUMLFromInput_start (v : view) : view * option jsstring :=
  if negb (truthy (trim (aiInput v))) then
    (showToastMessage (lit "请输入需求描述") v, None)
  else (set_isGenerating true v, Some (aiInput v)).

(** [generatePlantUMLFromInput], once the command has settled. *)
Definition generatePlantUMLFromInput_settle (r : settled jsstring) (v : view) : view :=
  let v' :=
    match r with
    | Resolved result =>
      showToastMessage (lit "PlantUML 图表已生成")
        (close_panel (insertPlantUMLToEditor result v))
    | Rejected _ =>
      let demoPlantUML := generateDemoPlantUML (aiInput v) in
      showToastMessage (lit "已生成示例图表（演示模式）")
        (close_panel (insertPlantUMLToEditor demoPlantUML v))
    end in
  set_isGenerating false v'.

(** [generatePlantUMLFromSelection], up to the [await]; [text] is what
    [getSelectedText] returned. In demo mode no command is sent and the
    handler finishes at once. *)
Definition generatePlantUMLFromSelection_start (text : jsstring) (v : view)
  : view * option jsstring :=
  if negb (truthy (trim text)) then
    (showToastMessage (lit "请先选中一段文字描述") v, None)
  else
    let v1 := set_isGenerating true (set_selectedText text v) in
    if negb (bool_decide (provider v1 = lit "demo")) && truthy (apiKey v1) then
      (v1, Some text)
    else
      let demoPlantUML := generateDemoPlantUML text in
      (set_isGenerating false
         (showToastMessage (lit "已生成示例图表（演示模式）")
            (insertPlantUMLToEditor demoPlantUML v1)), None).

(** [generatePlantUMLFromSelection], once the command has settled. *)
Definition generatePlantUMLFromSelection_settle (text : jsstring)
  (r : settled jsstring) (v : view) : view :=
  let v' :=
    match r with
    | Resolved result =>
      showToastMessage (lit "PlantUML 图表已生成") (insertPlantUMLToEditor result v)
    | Rejected _ =>
      let demoPlantUML := generateDemoPlantUML text in
      showToastMessage (lit "已生成示例图表（演示模式）")
        (insertPlantUMLToEditor demoPlantUML v)
    end in
  set_isGenerating false v'.

End WithHost.

(** *** [generatePlantUML] of the earlier view ([unnamed/part_002]) *)

Definition demoPlantUML : string :=
quoted ["@startuml
!theme plain
skinparam backgroundColor #FEFEFE

actor 用户
participant ";
"前端界面";
" as UI
participant ";
"AI服务";
" as AI
database ";
"文档存储";
" as DB

用户 -> UI: 输入需求描述
UI -> AI: 调用生成接口
AI -> AI: 分析需求
AI -> UI: 返回PlantUML代码
UI -> DB: 保存文档
UI -> 用户: 显示生成结果

@enduml"].

Definition fence_open : jsstring := lit "```plantuml" ++ nl.
Definition fence_close : jsstring := nl ++ lit "```" ++ nl.

Definition plantumlBlock (code : jsstring) : jsstring :=
  section_title ++ fence_open ++ code ++ fence_close.

(** [editor.value?.getMarkdown() || ''], then both assignments. *)
Definition append_block (block : jsstring) (v : view) : view :=
  let currentContent := default [] (editor v) in
  set_document (currentContent ++ block) v.

Definition generatePlantUML_start (v : view) : view * option jsstring :=
  if negb (truthy (trim (aiInput v))) then (v, None)
  else (set_isGenerating true v, Some (aiInput v)).

Definition generatePlantUML_settle (r : settled jsstring) (v : view) : view :=
  let v' :=
    match r with
    | Resolved result => close_panel (append_block (plantumlBlock result) v)
    | Rejected _ => close_panel (append_block (plantumlBlock (lit demoPlantUML)) v)
    end in
  set_isGenerating false v'.

(** ASCII case mapping, standing in for the engine's in closed examples. *)
Definition ascii_toLowerCase (s : jsstring) : jsstring :=
  map (fun c => if (65 <=? c) && (c <=? 90) then c + 32 else c) s.

Definition sample_view (input : jsstring) (ed : option jsstring) : view :=
  {| aiInput := input; selectedText := []; editor := ed;
     docContent := default [] ed; showAiPanel := true; isGenerating := true;
     toastMessage := []; showToast := false;
     provider := ascii_str "demo"; apiKey := [] |}.

End Diagram.

(** ** The remote template library ([RemoteTemplates.vue], two versions
    in [unnamed/part_002]) *)

Module Templates.
Import JS.
Local Open Scope string_scope.
Local Open Scope Z_scope.
Local Open Scope list_scope.

(** [templates], [isLoading] and [error] of the component. *)
Record library := {
  templates : list json;
  isLoading : bool;
  error : option jsstring
}.

(** What [fetch] resolves with: the status line and the outcome of
    [response.json()], which throws when the body is not JSON. *)
Record response := {
  ok : bool;
  status : Z;
  body : completion json
}.

(** [err.message], empty when the rejection carries none. *)
Definition message (e : JS.error) : jsstring :=
  match e with
  | HostError msg => msg
  | _ => []
  end.

(** The text of an error appended to a string. *)
Definition error_text (e : JS.error) : jsstring :=
  match e with
  | RangeError => ascii_str "RangeError"
  | URIError => ascii_str "URIError"
  | InvalidCharacterError => ascii_str "InvalidCharacterError"
  | TypeError => ascii_str "TypeError"
  | SyntaxError => ascii_str "SyntaxError"
  | HostError msg => msg
  end.

Definition elements (v : json) : list json :=
  match v with
  | JArr l => l
  | _ => []
  end.

(** *** The version that fetches the URL itself (lines 563-601)

    The body of the inner [try]: the value left in [allTemplates]. *)
Definition fetch_remote (fetched : settled response) : completion (list json) :=
  match fetched with
  | Rejected e => Throws e
  | Resolved resp =>
    if negb (ok resp) then Throws (HostError (ascii_str "HTTP error! status"))
    else
      bind (body resp) (fun remoteTemplates =>
      if isArray remoteTemplates then Returns (elements remoteTemplates)
      else (* console.warn *) Returns [])
  end.

Definition loadTemplates_fetch (templateUrl : jsstring) (fetched : settled response)
  (st : library) : library :=
  let error0 : option jsstring := None in
  if truthy templateUrl && truthy (trim templateUrl) then
    match fetch_remote fetched with
    | Returns allTemplates =>
      {| templates := allTemplates; isLoading := false; error := error0 |}
    | Throws _ =>
      {| templates := []; isLoading := false;
         error := Some (lit "加载远程模板失败，请检查 URL 配置") |}
    end
  else
    {| templates := []; isLoading := false; error := Some (lit "未配置远程模板 URL") |}.

(** *** The version that asks the host (lines 884-920) *)

Section WithHost.
Variable JSON_parse : jsstring -> completion json.

(** The inner [try] around [JSON.parse(result)]. *)
Definition parse_templates (result : jsstring) : list json * option jsstring :=
  match JSON_parse result with
  | Returns parsed =>
    if isArray parsed then (elements parsed, None)
    else ([], Some (lit "远程模板格式不正确"))
  | Throws _ => ([], Some (lit "解析模板数据失败: " ++ result))
  end.

Definition loadTemplates_invoke (templateUrl : jsstring) (invoked : settled jsstring)
  (st : library) : library :=
  if negb (truthy templateUrl) || negb (truthy (trim templateUrl)) then
    {| templates := []; isLoading := false;
       error := Some (lit "未配置远程模板 URL，请在设置中配置") |}
  else
    match invoked with
    | Resolved result =>
      let '(ts, err) := parse_templates result in
      {| templates := ts; isLoading := false; error := err |}
    | Rejected err =>
      {| templates := []; isLoading := false;
         error := Some (if truthy (message err) then message err
                        else lit "加载模板失败") |}
    end.

End WithHost.

Definition empty_library : library :=
  {| templates := []; isLoading := false; error := None |}.

End Templates.

(** ** The template upload dialog ([components/TemplateUploadModal.vue]) *)

Module Upload.
Import JS.
Local Open Scope string_scope.
Local Open Scope Z_scope.
Local Open Scope list_scope.

Record form := {
  title : jsstring;
  description : jsstring;
  category : jsstring;
  tags : jsstring;
  isUploading : bool;
  uploadResult : option (bool * jsstring);
  showSuccess : bool
}.

(** The initial values of the refs. *)
Definition initial_form : form :=
  {| title := []; description := []; category := lit "文档"; tags := [];
     isUploading := false; uploadResult := None; showSuccess := false |}.

(** [isFormValid]; [content] is [props.content]. *)
Definition isFormValid (content : jsstring) (f : form) : bool :=
  (0 <? Z.of_nat (length (trim (title f))))
  && (0 <? Z.of_nat (length (trim content))).

Record templateData := {
  id : jsstring;
  name : jsstring;
  data_description : jsstring;
  data_content : jsstring;
  data_category : jsstring;
  data_tags : list jsstring;
  author : jsstring;
  createdAt : jsstring
}.

(** [s.split(',')] *)
Fixpoint split_comma (s : jsstring) : list jsstring :=
  match s with
  | [] => [[]]
  | c :: r =>
    if c =? 44 then [] :: split_comma r
    else
      match split_comma r with
      | [] => [[c]]
      | w :: ws => (c :: w) :: ws
      end
  end.

(** [tags.split(',').map(t => t.trim()).filter(t => t.length > 0)] *)
Definition tag_list (tags : jsstring) : list jsstring :=
  filter (fun t => 0 < Z.of_nat (length t)) (map trim (split_comma tags)).

Definition set_result (r : option (bool * jsstring)) (f : form) : form :=
  {| title := title f; description := description f; category := category f;
     tags := tags f; isUploading := isUploading f; uploadResult := r;
     showSuccess := showSuccess f |}.

Definition set_uploading (b : bool) (f : form) : form :=
  {| title := title f; description := description f; category := category f;
     tags := tags f; isUploading := b; uploadResult := uploadResult f;
     showSuccess := showSuccess f |}.

Definition set_success (b : bool) (f : form) : form :=
  {| title := title f; description := description f; category := category f;
     tags := tags f; isUploading := isUploading f; uploadResult := uploadResult f;
     showSuccess := b |}.

(** What the handler asks of the host. *)
Inductive request :=
| save_template (data : templateData).

(** [handleUpload] up to its [await]: [now] is [Date.now()], [iso] is
    [new Date().toISOString()]. The result is the form and the request
    issued, if any. *)
Definition handleUpload_start (now : Z) (iso : jsstring) (content : jsstring) (f : form)
  : form * option request :=
  if negb (isFormValid content f) then
    (set_result (Some (false, lit "请填写模板标题")) f, None)
  else
    let f1 := set_result None (set_uploading true f) in
    let data :=
      {| id := lit "template_" ++ ascii_str (pretty now);
         name := trim (title f1);
         data_description := trim (description f1);
         data_content := content;
         data_category := category f1;
         data_tags := tag_list (tags f1);
         author := lit "用户";
         createdAt := iso |} in
    (f1, Some (save_template data)).

Definition to_json (d : templateData) : json :=
  JObj (<["id" := JStr (id d)]>
       (<["name" := JStr (name d)]>
       (<["description" := JStr (data_description d)]>
       (<["content" := JStr (data_content d)]>
       (<["category" := JStr (data_category d)]>
       (<["tags" := JArr (map JStr (data_tags d))]>
       (<["author" := JStr (author d)]>
       (<["createdAt" := JStr (createdAt d)]> ∅)))))))).

Definition local_key : string := "ai-flow-studio-local-templates".

Section WithHost.
Variable JSON_parse : jsstring -> completion json.
Variable JSON_stringify : json -> jsstring.

(** The text of the TypeError that [templates.unshift(...)] raises when
    [templates] is not an array (as [String(err)] gives it); the wording
    is the engine's. *)
Variable unshift_error : json -> jsstring.

(** [saveToLocalStorage]: [unshift] exists on arrays only, and [setItem]
    throws when the store is full. [setItem_throws] is [None] when the
    call stores the text, and the text of its exception otherwise. An
    exception is carried as [HostError] of its text, which is all the
    caller shows of it. *)
Definition saveToLocalStorage (setItem_throws : option jsstring) (data : templateData)
  (localStorage : gmap string jsstring) : completion (gmap string jsstring) :=
  let existing := localStorage !! local_key in
  let parsed :=
    match existing with
    | Some text =>
      if truthy text then try_catch (JSON_parse text) (fun _ => Returns (JArr []))
      else Returns (JArr [])
    | None => Returns (JArr [])
    end in
  bind parsed (fun templates =>
  match templates with
  | JArr l =>
    match setItem_throws with
    | None =>
      Returns (<[local_key := JSON_stringify (JArr (to_json data :: l))]> localStorage)
    | Some text => Throws (HostError text)
    end
  | _ => Throws (HostError (unshift_error templates))
  end).

(** What the handler schedules: after 1500 ms, emit [uploaded] and close. *)
Inductive timer :=
| close_after (ms : Z).

(** [handleUpload] once [invoke('save_template', ...)] has settled. *)
Definition handleUpload_settle (setItem_throws : option jsstring) (data : templateData)
  (r : settled unit) (localStorage : gmap string jsstring) (f : form)
  : form * gmap string jsstring * option timer :=
  let saved :=
    match r with
    | Resolved _ => Returns localStorage
    | Rejected _ => saveToLocalStorage setItem_throws data localStorage
    end in
  match saved with
  | Returns localStorage' =>
    (set_uploading false
       (set_result (Some (true, lit "模板上传成功！")) (set_success true f)),
     localStorage', Some (close_after 1500))
  | Throws err =>
    (set_uploading false
       (set_result (Some (false, lit "上传失败: " ++ Templates.error_text err)) f),
     localStorage, None)
  end.

End WithHost.

(** [closeModal] *)
Definition closeModal (f : form) : form :=
  {| title := []; description := []; category := lit "文档"; tags := [];
     isUploading := isUploading f; uploadResult := None; showSuccess := false |}.

End Upload.

(** ** The metrics dashboard ([MetricsDashboard.vue], [unnamed/part_001]) *)

Module Metrics.
Import JS.
Local Open Scope string_scope.
Local Open Scope Z_scope.
Local Open Scope list_scope.

Record MetricData := {
  date : jsstring;
  ai_generate_time_minutes : Z;
  ai_lines_of_code : Z;
  manual_lines_of_code : Z;
  review_comments_count : Z;
  resolved_comments_count : Z
}.

(** Arrays live in a store and are handled through their address: two
    names for one array see each other's writes. *)
Abbreviation store := (gmap positive (list MetricData)).

Definition alloc (a : list MetricData) (h : store) : positive * store :=
  let l := fresh (dom h) in (l, <[l := a]> h).

(** The array at an address (the empty array for a dangling one). *)
Definition deref (h : store) (l : positive) : list MetricData := default [] (h !! l).

(** [a - b] on numbers. *)
Definition minus (a b : Number) : Number :=
  match a, b with
  | Int x, Int y => Int (x - y)
  | _, _ => NaN
  end.

(** *** [Array.prototype.sort]

    The comparator's result [v] orders [x] before [y] when [v < 0]; a NaN
    result counts as 0. What the language fixes is the result for a
    consistent comparator: the elements in sorted order, equal elements in
    their original order. There is one such arrangement, and it is what
    the insertion sort [sorted_copy] computes. For any other comparator
    (one that returns NaN, say) the order is the engine's own choice. *)
Definition precedes {A} (comparefn : A -> A -> Number) (x y : A) : bool :=
  match comparefn x y with
  | Int v => v <? 0
  | NaN => false
  end.

Fixpoint insert {A} (comparefn : A -> A -> Number) (x : A) (l : list A) : list A :=
  match l with
  | [] => [x]
  | y :: l' => if precedes comparefn x y then x :: l else y :: insert comparefn x l'
  end.

Definition sorted_copy {A} (comparefn : A -> A -> Number) (l : list A) : list A :=
  fold_left (fun acc x => insert comparefn x acc) l [].

(** The three outcomes of a comparison. *)
Definition before {A} (comparefn : A -> A -> Number) (x y : A) : Prop :=
  exists v, comparefn x y = Int v /\ v < 0.

Definition same {A} (comparefn : A -> A -> Number) (x y : A) : Prop :=
  comparefn x y = Int 0.

Definition after {A} (comparefn : A -> A -> Number) (x y : A) : Prop :=
  exists v, comparefn x y = Int v /\ 0 < v.

(** A consistent comparator for the elements of [l], as the language
    defines it: never NaN, [same] an equivalence, [before] and [after]
    transitive. *)
Definition consistent {A} (comparefn : A -> A -> Number) (l : list A) : Prop :=
  forall a b c, In a l -> In b l -> In c l ->
    comparefn a b <> NaN
    /\ same comparefn a a
    /\ (same comparefn a b -> same comparefn b a)
    /\ (same comparefn a b -> same comparefn b c -> same comparefn a c)
    /\ (before comparefn a b -> before comparefn b c -> before comparefn a c)
    /\ (after comparefn a b -> after comparefn b c -> after comparefn a c).

(** The engine's sort, as the order it leaves the elements in. *)
Abbreviation sort_order :=
  ((MetricData -> MetricData -> Number) -> list MetricData -> list MetricData).

(** What every engine's sort does: it rearranges the elements, and for a
    consistent comparator it leaves them in stable sorted order. *)
Definition conforming (engine : sort_order) : Prop :=
  (forall comparefn l, Permutation (engine comparefn l) l)
  /\ (forall comparefn l, consistent comparefn l ->
                          engine comparefn l = sorted_copy comparefn l).

(** [a.sort(comparefn)] sorts the array at [a] in place and returns [a]. *)
Definition Array_sort (engine : sort_order)
  (comparefn : MetricData -> MetricData -> Number)
  (a : positive) (h : store) : positive * store :=
  (a, <[a := engine comparefn (deref h a)]> h).

(** [[...a]]: a new array with the elements of [a]. *)
Definition spread_array (a : positive) (h : store) : positive * store :=
  alloc (deref h a) h.

(** [a.slice(-k)]: a new array with the last [k] elements of [a]. *)
Definition slice_last (k : nat) (a : positive) (h : store) : positive * store :=
  let elems := deref h a in
  alloc (skipn (length elems - k) elems) h.

Section WithHost.
(** [new Date(s).getTime()]: the time value in milliseconds, NaN for a
    string that is not a date. *)
Variable getTime : jsstring -> Number.
(** [Array.prototype.sort] of the engine the view runs in. *)
Variable engine : sort_order.

Definition by_date (a b : MetricData) : Number :=
  minus (getTime (date a)) (getTime (date b)).

(** The getter of [chartData]; [metrics] is the address of [metrics.value]. *)
Definition chartData (metrics : positive) (h : store) : positive * store :=
  let '(copy, h1) := spread_array metrics h in
  let '(sorted, h2) := Array_sort engine by_date copy h1 in
  slice_last 7 sorted h2.

(** [l] in ascending order of date: every entry's date is a time value
    not after that of any later entry. *)
Definition le_date (a b : MetricData) : Prop :=
  match getTime (date a), getTime (date b) with
  | Int x, Int y => x <= y
  | _, _ => False
  end.

Definition ascending (l : list MetricData) : Prop := StronglySorted le_date l.

Definition valid_date (m : MetricData) : Prop := getTime (date m) <> NaN.

End WithHost.

(** *** A date parser for closed examples: ["YYYY-MM-DD"], read as UTC
    midnight; every other string is not a date. *)

Definition digit (c : Z) : option Z :=
  if (48 <=? c) && (c <=? 57) then Some (c - 48) else None.

Definition days_from_civil (y m d : Z) : Z :=
  let y' := if m <=? 2 then y - 1 else y in
  let era := y' / 400 in
  let yoe := y' - era * 400 in
  let mp := (m + 9) mod 12 in
  let doy := (153 * mp + 2) / 5 + d - 1 in
  let doe := yoe * 365 + yoe / 4 - yoe / 100 + doy in
  era * 146097 + doe - 719468.

Definition iso_getTime (s : jsstring) : Number :=
  match s with
  | [y1; y2; y3; y4; h1; m1; m2; h2; d1; d2] =>
    match digit y1, digit y2, digit y3, digit y4, digit m1, digit m2, digit d1, digit d2 with
    | Some a, Some b, Some c, Some d, Some e, Some f, Some g, Some h =>
      let month := e * 10 + f in
      let day := g * 10 + h in
      if (h1 =? 45) && (h2 =? 45) && (1 <=? month) && (month <=? 12)
         && (1 <=? day) && (day <=? 31)
      then Int (days_from_civil (((a * 10 + b) * 10 + c) * 10 + d) month day * 86400000)
      else NaN
    | _, _, _, _, _, _, _, _ => NaN
    end
  | _ => NaN
  end.

Definition record (d : string) (lines : Z) : MetricData :=
  {| date := ascii_str d; ai_generate_time_minutes := 0; ai_lines_of_code := lines;
     manual_lines_of_code := 0; review_comments_count := 0;
     resolved_comments_count := 0 |}.

(** A store whose only array, at address 1, is [metrics.value]. *)
Definition store_of (records : list MetricData) : store := <[1%positive := records]> ∅.

(** An engine for closed examples: the insertion sort itself. *)
Definition insertion_sort : sort_order := fun comparefn l => sorted_copy comparefn l.

(** Nine dated records, out of order; the lines count is the day. *)
Definition nine_records : list MetricData :=
  [ record "2024-03-09" 9; record "2024-03-01" 1; record "2024-03-05" 5;
    record "2024-03-03" 3; record "2024-03-08" 8; record "2024-03-02" 2;
    record "2024-03-07" 7; record "2024-03-04" 4; record "2024-03-06" 6 ].

(** The seven latest of them, in order of date. *)
Definition latest_seven : list MetricData :=
  [ record "2024-03-03" 3; record "2024-03-04" 4; record "2024-03-05" 5;
    record "2024-03-06" 6; record "2024-03-07" 7; record "2024-03-08" 8;
    record "2024-03-09" 9 ].

End Metrics.

(** ** The code-block renderer ([customHTMLRenderer] in [views/DesignStudio.vue]) *)

Module Renderer.
Import JS Encoder.
Local Open Scope string_scope.
Local Open Scope Z_scope.
Local Open Scope list_scope.

(** [escapeHtml]: the text becomes the only child of a [div], whose
    [innerHTML] is then read. Serialising a text node replaces [&] by
    [&amp;], U+00A0 by [&nbsp;], [<] by [&lt;] and [>] by [&gt;]. *)
Definition escape_unit (c : Z) : jsstring :=
  if c =? 38 then ascii_str "&amp;"
  else if c =? 160 then ascii_str "&nbsp;"
  else if c =? 60 then ascii_str "&lt;"
  else if c =? 62 then ascii_str "&gt;"
  else [c].

Definition escapeHtml (text : jsstring) : jsstring := flat_map escape_unit text.

(** The nodes a custom renderer returns. *)
Inductive html_token :=
| openTag (tagName : jsstring) (outerNewLine : bool) (class : jsstring)
| html (content : jsstring)
| closeTag (tagName : jsstring) (outerNewLine : bool).

Definition service : jsstring := ascii_str "https://www.plantuml.com/plantuml/svg/".

Definition img_open : jsstring := ascii_str (quoted ["<img src="; EmptyString]).

Definition img_close : jsstring :=
  ascii_str (quoted [EmptyString; " alt="; "PlantUML Diagram"; " class="; "plantuml-image";
                     " onerror=";
                     "this.style.display='none'; this.nextElementSibling.style.display='block';";
                     " />"]).

Definition pre_open : jsstring :=
  ascii_str (quoted ["<pre class="; "plantuml-fallback"; " style="; "display:none;";
                     "><code class="; "language-plantuml"; ">"]).

Definition pre_close : jsstring := ascii_str "</code></pre>".

Section WithHost.
Variable deflateRaw : Z -> list byte -> option (list byte).
Variable max_arguments : Z.

(** [codeBlock(node)]: [None] is the [null] that asks for the default
    rendering. *)
Definition codeBlock (language content : jsstring)
  : completion (option (list html_token)) :=
  if bool_decide (language = ascii_str "plantuml") then
    bind (encodePlantUML deflateRaw max_arguments content) (fun encoded =>
    let imageUrl := service ++ encoded in
    Returns (Some [ openTag (ascii_str "div") true (ascii_str "plantuml-wrapper");
                    html (img_open ++ imageUrl ++ img_close);
                    html (pre_open ++ escapeHtml content ++ pre_close);
                    closeTag (ascii_str "div") true ]))
  else Returns None.

End WithHost.

(** The index in the custom alphabet of one of its characters (64 for any
    other character). *)
Definition alphabet_index (c : Z) : Z :=
  if is_digit c then c - 48
  else if is_upper c then c - 65 + 10
  else if is_lower c then c - 97 + 36
  else if c =? 45 then 62
  else if c =? 95 then 63
  else 64.

(** The characters of both base64 alphabets: letters, digits, [- _ + / =]. *)
Definition token_char (c : Z) : bool :=
  is_digit c || is_upper c || is_lower c
  || (c =? 45) || (c =? 95) || (c =? 43) || (c =? 47) || (c =? 61).

(** Checks that recover the bytes of a group from its four indices. *)
Definition recover12 (b1 b2 : byte) : bool :=
  let s1 := Z.shiftr (byte_val b1) 2 in
  let s2 := Z.lor (Z.shiftl (Z.land (byte_val b1) 0x3) 4) (Z.shiftr (byte_val b2) 4) in
  (byte_val b1 =? s1 * 4 + s2 / 16) && (s2 mod 16 =? byte_val b2 / 16).

Definition recover23 (b2 b3 : byte) : bool :=
  let s3 := Z.lor (Z.shiftl (Z.land (byte_val b2) 0xF) 2) (Z.shiftr (byte_val b3) 6) in
  let s4 := Z.land (byte_val b3) 0x3F in
  (s3 / 4 =? byte_val b2 mod 16) && (byte_val b3 =? (s3 mod 4) * 64 + s4).

End Renderer.

(** ** The configuration dialog ([components/AIConfigModal.vue]):
    provider presets, saving and resetting *)

Module ConfigDialog.
Import JS Config.
Local Open Scope string_scope.
Local Open Scope Z_scope.
Local Open Scope list_scope.

(** [presets]: the own properties of the object literal. *)
Definition presets : list (string * (jsstring * jsstring)) :=
  [ ("openai", (ascii_str "https://api.openai.com/v1/chat/completions", ascii_str "gpt-4"));
    ("azure",
     (ascii_str "https://{your-resource}.openai.azure.com/openai/deployments/{deployment}/chat/completions?api-version=2023-12-01-preview",
      ascii_str "gpt-4"));
    ("custom", (ascii_str "http://localhost:11434/v1/chat/completions", ascii_str "llama2"));
    ("demo", ([], ascii_str "demo")) ].

(** What an object literal inherits from [Object.prototype]: members that
    are truthy and have neither [apiUrl] nor [model]. *)
Definition inherited_names : list string :=
  [ "constructor"; "__defineGetter__"; "__defineSetter__"; "hasOwnProperty";
    "__lookupGetter__"; "__lookupSetter__"; "isPrototypeOf"; "propertyIsEnumerable";
    "toString"; "valueOf"; "__proto__"; "toLocaleString" ].

(** A value used as a property name is converted to a string. [None]
    stands for the texts that hold a digit or a comma (numbers, arrays of
    two or more elements): no property here has such a name. *)
Fixpoint property_key (v : json) : option jsstring :=
  match v with
  | JStr s => Some s
  | JNull => Some (ascii_str "null")
  | JBool true => Some (ascii_str "true")
  | JBool false => Some (ascii_str "false")
  | JNum _ _ => None
  | JObj _ => Some (ascii_str "[object Object]")
  | JArr [] => Some []
  | JArr [x] =>
    match x with
    | JNull => Some []
    | _ => property_key x
    end
  | JArr (_ :: _ :: _) => None
  end.

Inductive preset :=
| own_preset (apiUrl model : jsstring)
| inherited_member
| no_preset.

(** [presets[key]] *)
Definition lookup_preset (key : option jsstring) : preset :=
  match key with
  | None => no_preset
  | Some k =>
    match find (fun p => bool_decide (ascii_str (fst p) = k)) presets with
    | Some (_, (u, m)) => own_preset u m
    | None =>
      if existsb (fun n => bool_decide (ascii_str n = k)) inherited_names
      then inherited_member else no_preset
    end
  end.

(** The callback of [watch(() => config.value.provider, ...)]. Assigning
    [undefined] to a field leaves it without a value. *)
Definition provider_changed (newProvider : json) (config : gmap string json)
  : gmap string json :=
  match lookup_preset (property_key newProvider) with
  | own_preset u m => <["model" := JStr m]> (<["apiUrl" := JStr u]> config)
  | inherited_member => delete "model" (delete "apiUrl" config)
  | no_preset => config
  end.

Definition is_demo (v : json) : bool :=
  match v with
  | JStr s => bool_decide (s = ascii_str "demo")
  | _ => false
  end.

(** The watcher runs its callback, before the next rendering, when the
    watched value is no longer the one it last saw ([Object.is]). Here the
    value last seen, or the new one, is the string ['demo']. *)
Definition watch_from_demo (config : gmap string json) : gmap string json :=
  match config !! "provider" with
  | Some p => if is_demo p then config else provider_changed p config
  | None => config
  end.

Section WithHost.
Variable JSON_parse : jsstring -> completion json.
Variable JSON_stringify : json -> jsstring.

(** The component from its creation ([config] is a copy of
    [defaultConfig]) to the end of [onMounted] and of the watcher it
    triggers. *)
Definition mounted (localStorage : gmap string jsstring) : gmap string json :=
  match loadConfig JSON_parse localStorage (JObj defaultConfig) with
  | JObj loaded => watch_from_demo loaded
  | _ => defaultConfig
  end.

(** [saveConfig] up to its [await]: the store, and the configuration
    emitted with [save] ([None] when [setItem] throws, e.g. for lack of
    space, and the handler reports the failure instead). *)
Definition saveConfig (setItem_ok : bool) (config : gmap string json)
  (localStorage : gmap string jsstring)
  : gmap string jsstring * option (gmap string json) :=
  if setItem_ok then
    (<[storage_key := JSON_stringify (JObj config)]> localStorage, Some config)
  else (localStorage, None).

End WithHost.

(** [resetConfig]; [confirmed] is the answer to [confirm]. The watcher
    runs when the provider was not ['demo'] before. *)
Definition resetConfig (confirmed : bool) (config : gmap string json)
  : gmap string json :=
  if confirmed then
    match config !! "provider" with
    | Some p =>
      if is_demo p then defaultConfig
      else provider_changed (JStr (ascii_str "demo")) defaultConfig
    | None => provider_changed (JStr (ascii_str "demo")) defaultConfig
    end
  else config.

(** The user picks a provider in the dialog. *)
Definition select_provider (p : jsstring) (config : gmap string json)
  : gmap string json :=
  let changed :=
    match config !! "provider" with
    | Some (JStr old) => negb (bool_decide (old = p))
    | _ => true
    end in
  let config' := <["provider" := JStr p]> config in
  if changed then provider_changed (JStr p) config' else config'.

(** Stand-ins for the engine's JSON functions in closed examples: one text
    for every value, read back as the configuration [stored]. *)
Definition one_text_stringify (_ : json) : jsstring := ascii_str "stored".

Definition one_text_parse (stored : gmap string json) (s : jsstring) : completion json :=
  if bool_decide (s = ascii_str "stored") then Returns (JObj stored) else Throws SyntaxError.

Definition custom_config : gmap string json :=
  <["provider" := JStr (ascii_str "custom")]>
  (<["apiUrl" := JStr (ascii_str "http://gpu-box:8000/v1")]>
  (<["model" := JStr (ascii_str "mistral")]> defaultConfig)).

End ConfigDialog.

(** ** Saving the document ([handleSave], [loadSavedFiles] in
    [views/DesignStudio.vue]) *)

Module Documents.
Import JS.
Local Open Scope string_scope.
Local Open Scope Z_scope.
Local Open Scope list_scope.

Record workspace := {
  currentFile : jsstring;
  docContent : jsstring;
  savedFiles : list jsstring;
  isSaving : bool;
  toastMessage : jsstring;
  showToast : bool
}.

Definition set_currentFile (name : jsstring) (w : workspace) : workspace :=
  {| currentFile := name; docContent := docContent w; savedFiles := savedFiles w;
     isSaving := isSaving w; toastMessage := toastMessage w; showToast := showToast w |}.

Definition set_isSaving (b : bool) (w : workspace) : workspace :=
  {| currentFile := currentFile w; docContent := docContent w;
     savedFiles := savedFiles w; isSaving := b; toastMessage := toastMessage w;
     showToast := showToast w |}.

Definition set_savedFiles (files : list jsstring) (w : workspace) : workspace :=
  {| currentFile := currentFile w; docContent := docContent w; savedFiles := files;
     isSaving := isSaving w; toastMessage := toastMessage w; showToast := showToast w |}.

Definition showToastMessage (msg : jsstring) (w : workspace) : workspace :=
  {| currentFile := currentFile w; docContent := docContent w;
     savedFiles := savedFiles w; isSaving := isSaving w; toastMessage := msg;
     showToast := true |}.

(** What the handler asks of the host. *)
Inductive request :=
| save_document (filename content : jsstring)
| list_documents.

(** [handleSave] up to its first [await]. [answer] is what [prompt] returns
    if it is shown: [None] is [null], the dialog dismissed. *)
Definition handleSave_start (answer : option jsstring) (w : workspace)
  : workspace * option request :=
  let named :=
    if negb (truthy (trim (currentFile w))) then
      match answer with
      | Some name => if negb (truthy name) then None else Some (set_currentFile name w)
      | None => None
      end
    else Some w in
  match named with
  | None => (w, None)
  | Some w1 =>
    (set_isSaving true w1, Some (save_document (currentFile w1) (docContent w1)))
  end.

(** [handleSave] once [save_document] has settled: on success it goes on to
    [loadSavedFiles], which asks for the list of documents. *)
Definition handleSave_saved (r : settled unit) (w : workspace)
  : workspace * option request :=
  match r with
  | Resolved _ => (w, Some list_documents)
  | Rejected err =>
    (set_isSaving false
       (showToastMessage (lit "保存失败: " ++ Templates.error_text err) w), None)
  end.

(** [loadSavedFiles] once [list_documents] has settled; it catches the
    rejection itself. *)
Definition loadSavedFiles_settle (r : settled (list jsstring)) (w : workspace)
  : workspace :=
  match r with
  | Resolved files => set_savedFiles files w
  | Rejected _ => w
  end.

(** The rest of [handleSave], after [loadSavedFiles]. *)
Definition handleSave_listed (r : settled (list jsstring)) (w : workspace) : workspace :=
  set_isSaving false (showToastMessage (lit "保存成功") (loadSavedFiles_settle r w)).

End Documents.

(** ** Searching the template library ([filteredTemplates], both versions
    of [RemoteTemplates.vue] in [unnamed/part_002]) *)

Module TemplateSearch.
Import JS.
Local Open Scope string_scope.
Local Open Scope Z_scope.
Local Open Scope list_scope.

Section WithHost.
Variable toLowerCase : jsstring -> jsstring.

(** [t.k.toLowerCase()]: a TypeError when [t] is [null] or [t.k] is not a
    string. *)
Definition lowered (t : json) (k : string) : completion jsstring :=
  match t with
  | JNull => Throws TypeError
  | _ =>
    match get_property t k with
    | Some (JStr s) => Returns (toLowerCase s)
    | _ => Throws TypeError
    end
  end.

(** The predicate given to [filter]; [||] evaluates its right operand only
    when the left one is false. *)
Definition matches (query : jsstring) (t : json) : completion bool :=
  bind (lowered t "name") (fun name =>
  if includes name query then Returns true
  else
    bind (lowered t "description") (fun description =>
    if includes description query then Returns true
    else
      bind (lowered t "id") (fun id => Returns (includes id query)))).

(** [a.filter(p)]: the elements are tested in order, and the first
    exception ends the call. *)
Fixpoint Array_filter (p : json -> completion bool) (a : list json)
  : completion (list json) :=
  match a with
  | [] => Returns []
  | t :: rest =>
    bind (p t) (fun keep =>
    bind (Array_filter p rest) (fun kept =>
    Returns (if keep then t :: kept else kept)))
  end.

Definition filteredTemplates (searchQuery : jsstring) (templates : list json)
  : completion (list json) :=
  if negb (truthy searchQuery) then Returns templates
  else
    let query := toLowerCase searchQuery in
    Array_filter (matches query) templates.

End WithHost.

(** [t.k] when it is a string. *)
Definition text_property (t : json) (k : string) : option jsstring :=
  match t with
  | JNull => None
  | _ =>
    match get_property t k with
    | Some (JStr s) => Some s
    | _ => None
    end
  end.

(** A value with the three texts the search reads. *)
Definition is_template (t : json) : bool :=
  match text_property t "name", text_property t "description", text_property t "id" with
  | Some _, Some _, Some _ => true
  | _, _, _ => false
  end.

(** One of the three texts, in lower case, contains the query. *)
Definition hit (toLowerCase : jsstring -> jsstring) (query : jsstring) (t : json) : bool :=
  match text_property t "name", text_property t "description", text_property t "id" with
  | Some name, Some description, Some id =>
    includes (toLowerCase name) query
    || includes (toLowerCase description) query
    || includes (toLowerCase id) query
  | _, _, _ => false
  end.

(** A template as the library shows it. *)
Definition template (id name description : string) : json :=
  JObj (<["id" := JStr (ascii_str id)]>
       (<["name" := JStr (ascii_str name)]>
       (<["description" := JStr (ascii_str description)]> ∅))).

End TemplateSearch.

(** ** Tags and the content summary of the upload dialog ([addTag],
    [contentStats] in [components/TemplateUploadModal.vue]) *)

Module Tags.
Import JS Upload.
Local Open Scope string_scope.
Local Open Scope Z_scope.
Local Open Scope list_scope.

(** [a.join(', ')] *)
Fixpoint join (a : list jsstring) : jsstring :=
  match a with
  | [] => []
  | [t] => t
  | t :: rest => t ++ [44; 32] ++ join rest
  end.

(** [a.includes(tag)] on an array of strings. *)
Definition Array_includes (a : list jsstring) (tag : jsstring) : bool :=
  existsb (fun t => bool_decide (t = tag)) a.

(** [addTag]: the new value of [tags]. *)
Definition addTag (tag : jsstring) (tags : jsstring) : jsstring :=
  let currentTags := tag_list tags in
  if negb (Array_includes currentTags tag) then join (currentTags ++ [tag])
  else tags.

(** A text that does not begin with white space. *)
Definition starts_black (s : jsstring) : Prop :=
  match s with
  | [] => True
  | c :: _ => is_white_space c = false
  end.

(** A tag as [tag_list] yields it: not empty, trimmed, without a comma. *)
Definition clean (t : jsstring) : Prop := t <> [] /\ trim t = t /\ ~ In 44 t.

(** [s.split(sep)] for a one-unit separator. *)
Fixpoint split (sep : Z) (s : jsstring) : list jsstring :=
  match s with
  | [] => [[]]
  | c :: r =>
    if c =? sep then [] :: split sep r
    else
      match split sep r with
      | [] => [[c]]
      | w :: ws => (c :: w) :: ws
      end
  end.

(** [contentStats]: [total] and [lines]. *)
Definition contentStats (content : jsstring) : nat * nat :=
  (length content, length (split 10 content)).

End Tags.

(** ** The scales of the charts ([maxLines], [maxReviewComments] in
    [MetricsDashboard.vue], [unnamed/part_001]) *)

Module Charts.
Import JS Metrics.
Local Open Scope Z_scope.
Local Open Scope list_scope.

(** [Math.max(x, ...rest)] *)
Definition Math_max (x : Z) (rest : list Z) : Z := fold_left Z.max rest x.

(** A safe integer ([Number.isSafeInteger]): an integer that a number
    holds exactly, as does each of its neighbours. *)
Definition safe_integer (z : Z) : Prop := - 2 ^ 53 < z < 2 ^ 53.

(** [Math.ceil(a / b)] for a positive [b], exact when [a] is a safe
    integer and [b] is 100: the quotient of a number that is not a
    multiple of 100 lies at least 1/100 from the nearest integer, and
    below 2^47 the rounding of the division moves it by less than 1/128.
    Beyond the safe integers the engine's rounding decides, which this
    quotient in Z does not follow. *)
Definition ceil_div (a b : Z) : Z := - ((- a) / b).

Definition lines (m : MetricData) : Z :=
  Z.max (ai_lines_of_code m) (manual_lines_of_code m).

(** [maxLines]; [chart] is [chartData.value], its line counts safe
    integers. *)
Definition maxLines (chart : list MetricData) : Z :=
  match chart with
  | [] => 100
  | m :: rest =>
    let max := Math_max (lines m) (map lines rest) in
    ceil_div max 100 * 100
  end.

(** Records for closed examples: 250 and 120 lines by the assistant, 30
    and 180 by hand. *)
Definition two_bars : list MetricData :=
  [ {| date := ascii_str "2024-03-01"; ai_generate_time_minutes := 12;
       ai_lines_of_code := 250; manual_lines_of_code := 30;
       review_comments_count := 4; resolved_comments_count := 3 |};
    {| date := ascii_str "2024-03-02"; ai_generate_time_minutes := 7;
       ai_lines_of_code := 120; manual_lines_of_code := 180;
       review_comments_count := 2; resolved_comments_count := 2 |} ].

(** [maxReviewComments]: [v || 1] is 1 when [v] is 0. *)
Definition maxReviewComments (chart : list MetricData) : Z :=
  match chart with
  | [] => 1
  | m :: rest =>
    let v := Math_max (review_comments_count m) (map review_comments_count rest) in
    if v =? 0 then 1 else v
  end.

End Charts.

(** ** Review comments by severity ([severityStats] in
    [views/CodeHubAssistant.vue]) *)

Module Review.
Import JS.
Local Open Scope Z_scope.
Local Open Scope list_scope.

Record ReviewComment := {
  id : jsstring;
  author : jsstring;
  content : jsstring;
  severity : jsstring;
  created_at : jsstring
}.

(** The own properties of [stats]. *)
Abbreviation counters := (gmap jsstring Number).

Definition critical : jsstring := ascii_str "critical".
Definition warning : jsstring := ascii_str "warning".
Definition suggestion : jsstring := ascii_str "suggestion".

(** [stats[k]++]. A property [stats] does not own reads as [undefined] or
    as a member of [Object.prototype], a number in neither case, so the
    sum is NaN; the assignment then makes [k] an own property, except for
    [__proto__], whose setter ignores a number. *)
Definition increment (k : jsstring) (stats : counters) : counters :=
  match stats !! k with
  | Some (Int n) => <[k := Int (n + 1)]> stats
  | Some NaN => <[k := NaN]> stats
  | None => if bool_decide (k = ascii_str "__proto__") then stats else <[k := NaN]> stats
  end.

Definition severityStats (reviewComments : list ReviewComment) : counters :=
  let stats : counters :=
    <[critical := Int 0]> (<[warning := Int 0]> (<[suggestion := Int 0]> ∅)) in
  fold_left (fun stats c => increment (severity c) stats) reviewComments stats.

Definition tally (k : jsstring) (l : list ReviewComment) : Z :=
  Z.of_nat (length (List.filter (fun c => bool_decide (severity c = k)) l)).

(** A severity that is none of the three the panel shows. *)
Definition unlisted (c : ReviewComment) : bool :=
  negb (bool_decide (severity c = critical) || bool_decide (severity c = warning)
        || bool_decide (severity c = suggestion)).

Definition comment (s : string) : ReviewComment :=
  {| id := []; author := []; content := []; severity := ascii_str s; created_at := [] |}.

(** [addManualComment] up to its request: [answer] is what [prompt]
    returns ([None] for [null]), [now] is [Date.now()] and [iso] is
    [new Date().toISOString()]. The result is the comment sent with
    [add_review_comment], if any. *)
Definition addManualComment_start (answer : option jsstring) (now : Z) (iso : jsstring)
  : option ReviewComment :=
  match answer with
  | None => None
  | Some content =>
    if negb (truthy content) then None
    else Some {| id := ascii_str "manual_" ++ ascii_str (pretty now);
                 author := ascii_str "User";
                 content := content;
                 severity := suggestion;
                 created_at := iso |}
  end.

(** [addManualComment] once the request has settled: [push] on success. *)
Definition addManualComment_settle (comment : ReviewComment) (r : settled unit)
  (reviewComments : list ReviewComment) : list ReviewComment :=
  match r with
  | Resolved _ => reviewComments ++ [comment]
  | Rejected _ => reviewComments
  end.

End Review.

(** * Theorems *)

(** ** The PlantUML token encoder *)

Section EncoderFacts.
Import JS Encoder.
Local Open Scope Z_scope.

Lemma all_bytes_complete (b : byte) : In b all_bytes.
Proof.
  assert (H : existsb (Byte.eqb b) all_bytes = true) by (destruct b; vm_compute; reflexivity).
  apply existsb_exists in H. destruct H as [x [Hin Hx]].
  apply Byte.byte_dec_bl in Hx. now subst.
Qed.

Lemma for_all_bytes (P : byte -> bool) :
  forallb P all_bytes = true -> forall b, P b = true.
Proof.
  intros H b. rewrite forallb_forall in H. apply H, all_bytes_complete.
Qed.

Lemma for_all_bytes2 (P : byte -> byte -> bool) :
  forallb (fun a => forallb (P a) all_bytes) all_bytes = true ->
  forall a b, P a b = true.
Proof.
  intros H a b. apply (for_all_bytes (P a)). revert a. apply (for_all_bytes _ H).
Qed.

(** A boolean property of one or two bytes, settled by running it on all. *)
Ltac by_all_bytes :=
  intros;
  repeat match goal with b : byte |- _ => revert b end;
  first [apply for_all_bytes2 | apply for_all_bytes];
  vm_compute; reflexivity.

(** Decides the tests on [nat] that stand in the goal. *)
Ltac nat_tests :=
  repeat match goal with
         | |- context [(?a <? ?b)%nat] =>
           first [ replace (a <? b)%nat with true by (symmetry; apply Nat.ltb_lt; lia)
                 | replace (a <? b)%nat with false by (symmetry; apply Nat.ltb_ge; lia) ]
         | |- context [(?a =? ?b)%nat] =>
           first [ replace (a =? b)%nat with true by (symmetry; apply Nat.eqb_eq; lia)
                 | replace (a =? b)%nat with false by (symmetry; apply Nat.eqb_neq; lia) ]
         end.

Lemma one_char_eq s c : one_char s c = true -> s = [c].
Proof.
  destruct s as [|x [|y s]]; simpl; try discriminate.
  intros H. apply Z.eqb_eq in H. now subst.
Qed.

Lemma sextet_ok_eq out v : sextet_ok out v = true -> out = [alphabet_char v].
Proof. intros [H _]%andb_prop. now apply one_char_eq. Qed.

Lemma sextet_ok_range out v : sextet_ok out v = true -> is_sextet v = true.
Proof. now intros [_ H]%andb_prop. Qed.

Lemma sextet1_ok (b1 : byte) :
  sextet_ok (charAt chars (js_shr (ToInt32 (Int (byte_val b1))) 2))
            (Z.shiftr (byte_val b1) 2) = true.
Proof. by_all_bytes. Qed.

Lemma sextet2_ok (b1 b2 : byte) :
  sextet_ok (charAt chars (js_or (js_shl (js_and (ToInt32 (Int (byte_val b1))) 0x3) 4)
                                 (js_shr (ToInt32 (Int (byte_val b2))) 4)))
            (Z.lor (Z.shiftl (Z.land (byte_val b1) 0x3) 4) (Z.shiftr (byte_val b2) 4))
  = true.
Proof. by_all_bytes. Qed.

Lemma sextet3_ok (b2 b3 : byte) :
  sextet_ok (charAt chars (js_or (js_shl (js_and (ToInt32 (Int (byte_val b2))) 0xF) 2)
                                 (js_shr (ToInt32 (Int (byte_val b3))) 6)))
            (Z.lor (Z.shiftl (Z.land (byte_val b2) 0xF) 2) (Z.shiftr (byte_val b3) 6))
  = true.
Proof. by_all_bytes. Qed.

Lemma sextet4_ok (b3 : byte) :
  sextet_ok (charAt chars (js_and (ToInt32 (Int (byte_val b3))) 0x3F))
            (Z.land (byte_val b3) 0x3F) = true.
Proof. by_all_bytes. Qed.

Lemma append3bytes_bytes (b1 b2 b3 : byte) :
  append3bytes (Int (byte_val b1)) (Int (byte_val b2)) (Int (byte_val b3))
  = map alphabet_char (sextets (byte_val b1, byte_val b2, byte_val b3)).
Proof.
  unfold append3bytes. cbv zeta.
  rewrite (sextet_ok_eq _ _ (sextet1_ok b1)), (sextet_ok_eq _ _ (sextet2_ok b1 b2)),
    (sextet_ok_eq _ _ (sextet3_ok b2 b3)), (sextet_ok_eq _ _ (sextet4_ok b3)). reflexivity.
Qed.

Lemma charCodeAt_app (pre suf : jsstring) (k : nat) :
  charCodeAt (pre ++ suf) (length pre + k) = charCodeAt suf k.
Proof.
  unfold charCodeAt. rewrite nth_error_app2 by lia.
  replace (length pre + k - length pre)%nat with k by lia. reflexivity.
Qed.

Lemma encode64_loop_unrolled (fuel : nat) :
  forall (pre suf r : jsstring),
    (length suf <= fuel)%nat ->
    encode64_loop fuel (pre ++ suf) (length pre) r = r ++ encode64_unrolled suf.
Proof.
  induction fuel as [|fuel IH]; intros pre suf r Hfuel.
  - destruct suf; simpl in Hfuel; [|lia]. simpl. now rewrite app_nil_r.
  - cbn [encode64_loop]. rewrite length_app.
    pose proof (charCodeAt_app pre suf 0) as H0.
    pose proof (charCodeAt_app pre suf 1) as H1.
    pose proof (charCodeAt_app pre suf 2) as H2.
    rewrite Nat.add_0_r in H0. rewrite H0, H1, H2.
    destruct suf as [|a [|b [|c rest]]]; cbn [length]; nat_tests.
    + simpl. now rewrite app_nil_r.
    + destruct fuel as [|fuel']; [reflexivity|].
      cbn [encode64_loop]. rewrite length_app. cbn [length]. nat_tests. reflexivity.
    + destruct fuel as [|fuel']; [reflexivity|].
      cbn [encode64_loop]. rewrite length_app. cbn [length]. nat_tests. reflexivity.
    + replace (pre ++ a :: b :: c :: rest) with ((pre ++ [a; b; c]) ++ rest)
        by (rewrite <- app_assoc; reflexivity).
      replace (length pre + 3)%nat with (length (pre ++ [a; b; c]))
        by (rewrite length_app; reflexivity).
      rewrite IH by (cbn [length] in Hfuel; lia).
      cbn [encode64_unrolled charCodeAt nth_error]. now rewrite app_assoc.
Qed.

Lemma encode64_unrolled_eq (data : jsstring) : encode64 data = encode64_unrolled data.
Proof.
  unfold encode64. apply (encode64_loop_unrolled (length data) [] data []). lia.
Qed.

(** More fuel than [length data] changes nothing. *)
Lemma encode64_loop_fuel (data : jsstring) (extra : nat) :
  encode64_loop (length data + extra) data 0 [] = encode64 data.
Proof.
  rewrite encode64_unrolled_eq.
  apply (encode64_loop_unrolled (length data + extra) [] data []). lia.
Qed.

Lemma list3_ind {A} (P : list A -> Prop) :
  P [] -> (forall a, P [a]) -> (forall a b, P [a; b]) ->
  (forall a b c l, P l -> P (a :: b :: c :: l)) ->
  forall l, P l.
Proof.
  intros H0 H1 H2 H3.
  assert (H : forall l, P l /\ (forall a, P (a :: l)) /\ (forall a b, P (a :: b :: l))).
  { induction l as [|x l [IH0 [IH1 IH2]]].
    - repeat split; auto.
    - repeat split; auto. }
  intros l. apply H.
Qed.

Theorem encode64_custom_base64 (bytes : list byte) :
  encode64 (map byte_val bytes) = custom_base64 (map byte_val bytes).
Proof.
  rewrite encode64_unrolled_eq. unfold custom_base64.
  induction bytes as [|a|a b|a b c l IH] using list3_ind.
  - reflexivity.
  - cbn [map encode64_unrolled groups_of_three flat_map]. rewrite app_nil_r.
    change (Int 0) with (Int (byte_val x00)). apply append3bytes_bytes.
  - cbn [map encode64_unrolled groups_of_three flat_map]. rewrite app_nil_r.
    change (Int 0) with (Int (byte_val x00)). apply append3bytes_bytes.
  - cbn [map encode64_unrolled groups_of_three flat_map].
    rewrite IH. f_equal. apply append3bytes_bytes.
Qed.


Lemma sextets_range (b1 b2 b3 : byte) :
  Forall (fun v => is_sextet v = true) (sextets (byte_val b1, byte_val b2, byte_val b3)).
Proof.
  cbn [sextets]. repeat constructor.
  - exact (sextet_ok_range _ _ (sextet1_ok b1)).
  - exact (sextet_ok_range _ _ (sextet2_ok b1 b2)).
  - exact (sextet_ok_range _ _ (sextet3_ok b2 b3)).
  - exact (sextet_ok_range _ _ (sextet4_ok b3)).
Qed.

(** *** The fallback path *)

Lemma byte_val_octet (z : Z) : 0 <= z < 256 -> byte_val (octet z) = z.
Proof.
  intros Hz. unfold byte_val, octet. rewrite Z.mod_small by lia.
  destruct (Byte.of_N (Z.to_N z)) as [b|] eqn:E.
  - simpl. apply Byte.to_of_N in E. rewrite E. lia.
  - apply Byte.of_N_None_iff in E. lia.
Qed.

Lemma byte_val_range (b : byte) : 0 <= byte_val b < 256.
Proof.
  unfold byte_val. pose proof (Byte.to_N_bounded b). lia.
Qed.

Lemma octet_byte_val (b : byte) : octet (byte_val b) = b.
Proof.
  unfold octet, byte_val. rewrite Z.mod_small by (pose proof (Byte.to_N_bounded b); lia).
  rewrite N2Z.id, Byte.of_to_N. reflexivity.
Qed.

Lemma unescape_percent_byte (b : byte) :
  let o := byte_val b in
  negb (hex_digit (o / 16) =? 117) && is_hex (hex_digit (o / 16))
  && is_hex (hex_digit (o mod 16))
  && (hex_val (hex_digit (o / 16)) * 16 + hex_val (hex_digit (o mod 16)) =? o) = true.
Proof. cbv zeta. by_all_bytes. Qed.

Lemma unescape_percent (o : Z) (r : jsstring) :
  0 <= o < 256 -> unescape (percent o ++ r) = o :: unescape r.
Proof.
  intros Ho. pose proof (unescape_percent_byte (octet o)) as H.
  cbv zeta in H. rewrite byte_val_octet in H by exact Ho.
  apply andb_prop in H. destruct H as [H H4].
  apply andb_prop in H. destruct H as [H H3].
  apply andb_prop in H. destruct H as [H1 H2].
  apply Z.eqb_eq in H4. apply negb_true_iff in H1.
  unfold percent. cbn [app unescape]. rewrite Z.eqb_refl.
  rewrite H1, H2, H3, H4. cbn [andb].
  destruct r as [|c3 [|c4 [|c5 r5]]]; reflexivity.
Qed.

Lemma unescape_percents (os : list Z) (r : jsstring) :
  Forall (fun o => 0 <= o < 256) os ->
  unescape (flat_map percent os ++ r) = os ++ unescape r.
Proof.
  induction 1 as [|o os Ho _ IH]; [reflexivity|].
  cbn [flat_map]. rewrite <- !app_assoc, unescape_percent by exact Ho.
  rewrite IH. reflexivity.
Qed.

Lemma unescape_unreserved (c : Z) (r : jsstring) :
  is_unreserved c = true -> unescape (c :: r) = c :: unescape r.
Proof.
  intros Hc. cbn [unescape].
  destruct (c =? 37) eqn:E; [|reflexivity].
  apply Z.eqb_eq in E. subst c. discriminate Hc.
Qed.

Lemma utf8_octets_range (cp : Z) :
  0 <= cp < 0x110000 -> Forall (fun o => 0 <= o < 256) (utf8_octets cp).
Proof.
  intros Hcp. unfold utf8_octets.
  destruct (cp <? 0x80) eqn:E1; [apply Z.ltb_lt in E1; repeat constructor; lia|].
  apply Z.ltb_ge in E1.
  destruct (cp <? 0x800) eqn:E2.
  { apply Z.ltb_lt in E2. repeat constructor; Z.div_mod_to_equations; lia. }
  apply Z.ltb_ge in E2.
  destruct (cp <? 0x10000) eqn:E3.
  { apply Z.ltb_lt in E3. repeat constructor; Z.div_mod_to_equations; lia. }
  apply Z.ltb_ge in E3. repeat constructor; Z.div_mod_to_equations; lia.
Qed.

Lemma utf8_octets_nonempty (cp : Z) : utf8_octets cp <> [].
Proof.
  unfold utf8_octets.
  destruct (cp <? 0x80); [discriminate|].
  destruct (cp <? 0x800); [discriminate|].
  destruct (cp <? 0x10000); discriminate.
Qed.

Lemma pair_point_range (hi lo : Z) :
  is_high_surrogate hi = true -> is_low_surrogate lo = true ->
  0 <= pair_point hi lo < 0x110000.
Proof.
  unfold is_high_surrogate, is_low_surrogate, pair_point. intros H1 H2.
  apply andb_prop in H1. apply andb_prop in H2.
  destruct H1 as [?%Z.leb_le ?%Z.leb_le]. destruct H2 as [?%Z.leb_le ?%Z.leb_le]. lia.
Qed.

Lemma unreserved_ascii (c : Z) : is_unreserved c = true -> 0 <= c < 128.
Proof.
  unfold is_unreserved, is_digit, is_upper, is_lower. intros H.
  repeat (apply orb_prop in H; destruct H as [H|H]);
    try (apply andb_prop in H; destruct H as [H1%Z.leb_le H2%Z.leb_le]; lia);
    apply Z.eqb_eq in H; lia.
Qed.

Lemma unreserved_not_surrogate (c : Z) :
  is_unreserved c = true -> is_high_surrogate c = false /\ is_low_surrogate c = false.
Proof.
  intros H%unreserved_ascii. unfold is_high_surrogate, is_low_surrogate.
  split; apply andb_false_intro1, Z.leb_gt; lia.
Qed.

Lemma fallback_octets_aux (n : nat) :
  forall s : jsstring,
    (length s <= n)%nat -> code_units s ->
    if well_paired s
    then exists e, encodeURIComponent s = Returns e
                   /\ unescape e = flat_map utf8_octets (scalar_values s)
                   /\ Forall (fun o => 0 <= o < 256) (unescape e)
    else encodeURIComponent s = Throws URIError.
Proof.
  induction n as [|n IH]; intros s Hlen Hcu.
  - destruct s; [|simpl in Hlen; lia]. exists []. repeat split. constructor.
  - destruct s as [|c rest]; [exists []; repeat split; constructor|].
    inversion Hcu as [|? ? Hc Hrest]; subst.
    cbn [encodeURIComponent well_paired scalar_values].
    destruct (is_unreserved c) eqn:Eu.
    { destruct (unreserved_not_surrogate c Eu) as [Eh El]. rewrite Eh, El.
      specialize (IH rest ltac:(simpl in Hlen; lia) Hrest).
      destruct (well_paired rest).
      - destruct IH as [e [He [Hu Hr]]]. rewrite He. cbn [bind].
        exists (c :: e). rewrite unescape_unreserved by exact Eu.
        repeat split.
        + rewrite Hu. cbn [flat_map]. unfold utf8_octets.
          replace (c <? 0x80) with true; [reflexivity|].
          symmetry. apply Z.ltb_lt. apply unreserved_ascii in Eu. lia.
        + constructor; [apply unreserved_ascii in Eu; lia|exact Hr].
      - rewrite IH. reflexivity. }
    destruct (is_high_surrogate c) eqn:Eh.
    { destruct rest as [|d rest']; [reflexivity|].
      destruct (is_low_surrogate d) eqn:El; [|reflexivity]. cbn [andb].
      inversion Hrest as [|? ? Hd Hrest']; subst.
      specialize (IH rest' ltac:(simpl in Hlen; lia) Hrest').
      destruct (well_paired rest').
      - destruct IH as [e [He [Hu Hr]]]. rewrite He. cbn [bind].
        pose proof (utf8_octets_range _ (pair_point_range c d Eh El)) as Hoct.
        eexists. split; [reflexivity|].
        rewrite unescape_percents by exact Hoct. split.
        + rewrite Hu. reflexivity.
        + apply Forall_app. split; assumption.
      - rewrite IH. reflexivity. }
    destruct (is_low_surrogate c) eqn:El; [reflexivity|].
    specialize (IH rest ltac:(simpl in Hlen; lia) Hrest).
    destruct (well_paired rest).
    + destruct IH as [e [He [Hu Hr]]]. rewrite He. cbn [bind].
      assert (Hoct : Forall (fun o => 0 <= o < 256) (utf8_octets c))
        by (apply utf8_octets_range; lia).
      eexists. split; [reflexivity|].
      rewrite unescape_percents by exact Hoct. split.
      * rewrite Hu. reflexivity.
      * apply Forall_app. split; assumption.
    + rewrite IH. reflexivity.
Qed.

Lemma fallback_octets (s : jsstring) :
  code_units s -> well_paired s = true ->
  exists e, encodeURIComponent s = Returns e
            /\ unescape e = flat_map utf8_octets (scalar_values s)
            /\ Forall (fun o => 0 <= o < 256) (unescape e).
Proof.
  intros Hcu Hwp. pose proof (fallback_octets_aux (length s) s (Nat.le_refl _) Hcu) as H.
  rewrite Hwp in H. exact H.
Qed.

Lemma fallback_throws (s : jsstring) :
  code_units s -> well_paired s = false -> fallback_token s = Throws URIError.
Proof.
  intros Hcu Hwp. pose proof (fallback_octets_aux (length s) s (Nat.le_refl _) Hcu) as H.
  rewrite Hwp in H. unfold fallback_token. rewrite H. reflexivity.
Qed.

Lemma base64_groups_length (s : jsstring) : (length (base64_groups s) mod 4 = 0)%nat.
Proof.
  induction s as [|a|a b|a b c l IH] using list3_ind; try reflexivity.
  cbn [base64_groups length].
  change (S (S (S (S (length (base64_groups l)))))) with (4 + length (base64_groups l))%nat.
  rewrite <- Nat.Div0.add_mod_idemp_l. exact IH.
Qed.

Lemma base64_groups_nonempty (s : jsstring) : s <> [] -> base64_groups s <> [].
Proof.
  destruct s as [|a [|b [|c l]]]; [congruence|discriminate..].
Qed.

Lemma map_byte_val_octet (os : list Z) :
  Forall (fun o => 0 <= o < 256) os -> map byte_val (map octet os) = os.
Proof.
  induction 1 as [|o os Ho _ IH]; [reflexivity|].
  cbn [map]. rewrite byte_val_octet by exact Ho. now rewrite IH.
Qed.

Lemma encode64_length (data : jsstring) :
  Forall (fun c => 0 <= c < 256) data -> (length (encode64 data) mod 4 = 0)%nat.
Proof.
  intros H. rewrite <- (map_byte_val_octet data H), encode64_custom_base64.
  unfold custom_base64. generalize (map byte_val (map octet data)). intros l.
  induction l as [|a|a b|a b c l IH] using list3_ind; try reflexivity.
  cbn [groups_of_three flat_map]. rewrite length_app.
  rewrite <- Nat.Div0.add_mod_idemp_r, IH. reflexivity.
Qed.

Lemma sextet_alphabet (v : Z) : is_sextet v = true -> in_alphabet (alphabet_char v) = true.
Proof.
  intros H. unfold is_sextet in H. apply andb_prop in H. destruct H as [H0%Z.leb_le H1%Z.ltb_lt].
  rewrite <- (Z2Nat.id v H0).
  assert (Hn : (Z.to_nat v < 64)%nat) by lia.
  generalize dependent (Z.to_nat v). clear. intros n Hn.
  do 64 (destruct n as [|n]; [vm_compute; reflexivity|]). lia.
Qed.


Lemma groups_sextets (bytes : list byte) :
  Forall (fun g => Forall (fun v => is_sextet v = true) (sextets g))
         (groups_of_three (map byte_val bytes)).
Proof.
  induction bytes as [|a|a b|a b c l IH] using list3_ind; cbn [map groups_of_three].
  - constructor.
  - constructor; [|constructor]. change 0 with (byte_val x00). apply sextets_range.
  - constructor; [|constructor]. change 0 with (byte_val x00). apply sextets_range.
  - constructor; [apply sextets_range|exact IH].
Qed.

Lemma custom_base64_alphabet (bytes : list byte) :
  Forall (fun c => in_alphabet c = true) (custom_base64 (map byte_val bytes)).
Proof.
  unfold custom_base64. pose proof (groups_sextets bytes) as H.
  induction H as [|g gs Hg _ IH]; [constructor|].
  cbn [flat_map]. apply Forall_app. split; [|exact IH].
  apply Forall_map. eapply Forall_impl; [exact Hg|].
  intros v Hv. now apply sextet_alphabet.
Qed.

Lemma custom_base64_length (bs : list Z) : (length (custom_base64 bs) mod 4 = 0)%nat.
Proof.
  unfold custom_base64.
  induction bs as [|a|a b|a b c l IH] using list3_ind; try reflexivity.
  cbn [groups_of_three flat_map]. rewrite length_app.
  rewrite <- Nat.Div0.add_mod_idemp_r, IH. reflexivity.
Qed.

Lemma try_block_returns deflateRaw max_arguments text out :
  try_block deflateRaw max_arguments text = Returns out ->
  exists compressed,
    compressed_buffer deflateRaw text = Returns compressed
    /\ Z.of_nat (length compressed) <= max_arguments
    /\ out = custom_base64 (map byte_val compressed).
Proof.
  unfold try_block. destruct (compressed_buffer deflateRaw text) as [compressed|e];
    [|discriminate].
  cbn [bind]. unfold String_fromCharCode.
  destruct (max_arguments <? Z.of_nat (length compressed)) eqn:E; [discriminate|].
  cbn [bind]. intros [= <-]. exists compressed. apply Z.ltb_ge in E.
  repeat split; [exact E|apply encode64_custom_base64].
Qed.

Lemma try_block_of_buffer deflateRaw max_arguments text compressed :
  compressed_buffer deflateRaw text = Returns compressed ->
  Z.of_nat (length compressed) <= max_arguments ->
  try_block deflateRaw max_arguments text
  = Returns (custom_base64 (map byte_val compressed)).
Proof.
  intros Hc Hlen. unfold try_block. rewrite Hc. cbn [bind]. unfold String_fromCharCode.
  replace (max_arguments <? Z.of_nat (length compressed)) with false
    by (symmetry; apply Z.ltb_ge; exact Hlen).
  cbn [bind]. now rewrite encode64_custom_base64.
Qed.

(** The two ways into the [catch] block: the compressor throws, or its
    output has more bytes than one call takes arguments. *)
Lemma try_block_throws deflateRaw max_arguments text :
  (deflateRaw 9 (TextEncoder_encode text) = None ->
   exists e, try_block deflateRaw max_arguments text = Throws e)
  /\ (forall body, deflateRaw 9 (TextEncoder_encode text) = Some body ->
       max_arguments < Z.of_nat (length body) + 6 ->
       try_block deflateRaw max_arguments text = Throws RangeError).
Proof.
  unfold try_block, compressed_buffer, pako_deflate. split.
  - intros ->. eauto.
  - intros body -> Hmax. cbn [bind]. unfold String_fromCharCode.
    replace (max_arguments <? _) with true; [reflexivity|].
    symmetry. apply Z.ltb_lt. rewrite length_app. change (zlib_header 9) with [x78; xda].
    rewrite length_app. cbn [length be32]. lia.
Qed.

(** C1. For every text and every outcome [body] of the raw DEFLATE
    compressor at level 9 on the text's UTF-8 bytes, the buffer that
    [encodePlantUML] hands to the custom base64 stage is not that raw
    stream: it is the stream inside the zlib wrapper, i.e. the header bytes
    0x78 0xDA, then [body], then the four bytes of the Adler-32 checksum.
    [pako.deflate] is called where [pako.deflateRaw] gives the raw stream. *)
Theorem compressed_buffer_zlib_wrapped deflateRaw text body :
  deflateRaw 9 (TextEncoder_encode text) = Some body ->
  compressed_buffer deflateRaw text
  = Returns ([x78; xda] ++ body ++ be32 (adler32 (TextEncoder_encode text)))
  /\ compressed_buffer deflateRaw text
     <> pako_deflateRaw deflateRaw (TextEncoder_encode text) 9.
Proof.
  intros H. unfold compressed_buffer, pako_deflate, pako_deflateRaw. rewrite H.
  split; [reflexivity|].
  intros [= E]. apply (f_equal (@length byte)) in E.
  cbn [length] in E. rewrite length_app in E. cbn [length be32] in E. lia.
Qed.

(** The text "A" under the stored-block compressor: six bytes of raw
    stream, twelve bytes handed on. *)
Lemma compressed_buffer_zlib_wrapped_witness :
  compressed_buffer stored_block (ascii_str "A")
  = Returns [x78; xda; x01; x01; x00; xfe; xff; x41; x00; x42; x00; x42]
  /\ pako_deflateRaw stored_block (TextEncoder_encode (ascii_str "A")) 9
     = Returns [x01; x01; x00; xfe; xff; x41].
Proof.
  split; [|reflexivity].
  exact (proj1 (compressed_buffer_zlib_wrapped stored_block (ascii_str "A")
                  [x01; x01; x00; xfe; xff; x41] eq_refl)).
Defined.

(** C2. For every byte sequence, [encode64] (the source's index loop over
    [append3bytes]) returns the concatenation, over the groups of three
    bytes with the last group padded by zero bytes, of the four alphabet
    characters at the indices [b1 >> 2], [((b1 & 3) << 4) | (b2 >> 4)],
    [((b2 & 15) << 2) | (b3 >> 6)] and [b3 & 63], in this order; and each
    of these indices lies in 0..63. *)
Theorem encode64_groups_of_three (bytes : list byte) :
  encode64 (map byte_val bytes) = custom_base64 (map byte_val bytes)
  /\ Forall (fun g => Forall (fun v => is_sextet v = true) (sextets g))
            (groups_of_three (map byte_val bytes)).
Proof.
  split; [apply encode64_custom_base64|apply groups_sextets].
Qed.

(** C3, as stated, fails: when the compressor throws, [encodePlantUML]
    of "a" returns the fallback "YQ==", and [=] is not one of the 64
    characters. *)
Lemma encodePlantUML_fallback_outside_alphabet :
  encodePlantUML failing_deflate 65535 (ascii_str "a") = Returns (ascii_str "YQ==")
  /\ ~ Forall (fun c => in_alphabet c = true) (ascii_str "YQ==").
Proof.
  split; [reflexivity|].
  intros H. rewrite List.Forall_forall in H.
  assert (Hin : In 61 (ascii_str "YQ==")) by (right; right; left; reflexivity).
  specialize (H 61 Hin). discriminate H.
Qed.

(** C3, amended. For every text for which the [try] block completes (the
    compressor returns and its output is spread into one call),
    [encodePlantUML] returns the block's value, and every character of it
    belongs to the set 0-9, A-Z, a-z, '-', '_'. *)
Theorem encodePlantUML_alphabet deflateRaw max_arguments text out :
  try_block deflateRaw max_arguments text = Returns out ->
  encodePlantUML deflateRaw max_arguments text = Returns out
  /\ Forall (fun c => in_alphabet c = true) out.
Proof.
  intros H. unfold encodePlantUML. rewrite H. split; [reflexivity|].
  apply try_block_returns in H. destruct H as [compressed [_ [_ ->]]].
  apply custom_base64_alphabet.
Qed.

(** The text "A" under the stored-block compressor. *)
Lemma encodePlantUML_alphabet_witness :
  encodePlantUML stored_block 65535 (ascii_str "A") = Returns (ascii_str "UDe10G3-_q40GW12")
  /\ Forall (fun c => in_alphabet c = true) (ascii_str "UDe10G3-_q40GW12").
Proof.
  exact (encodePlantUML_alphabet stored_block 65535 (ascii_str "A")
           (ascii_str "UDe10G3-_q40GW12") eq_refl).
Defined.

(** C4. For every text (the empty one included), whatever the compressor
    does, the length of the string [encodePlantUML] returns is a multiple
    of 4, on the compressed path and on the fallback path alike; the only
    calls that return nothing are those where the [try] block and then the
    fallback both throw. *)
Theorem encodePlantUML_length deflateRaw max_arguments text :
  match encodePlantUML deflateRaw max_arguments text with
  | Returns out => (length out mod 4 = 0)%nat
  | Throws e =>
    (exists e', try_block deflateRaw max_arguments text = Throws e')
    /\ fallback_token text = Throws e
  end.
Proof.
  unfold encodePlantUML, try_catch.
  destruct (try_block deflateRaw max_arguments text) as [out|e'] eqn:Et.
  - apply try_block_returns in Et. destruct Et as [compressed [_ [_ ->]]].
    apply custom_base64_length.
  - destruct (fallback_token text) as [out|e] eqn:Ef.
    + unfold fallback_token in Ef.
      destruct (encodeURIComponent text) as [enc|]; [|discriminate].
      cbn [bind] in Ef. unfold btoa in Ef.
      destruct (forallb _ _); [|discriminate].
      injection Ef as <-. apply base64_groups_length.
    + split; [eauto|reflexivity].
Qed.

(** C5, as stated, fails: when the compressor throws on the empty text,
    the fallback token [encodePlantUML] returns is the empty string. *)
Lemma encodePlantUML_fallback_empty :
  try_block failing_deflate 65535 [] = Throws (HostError (ascii_str "pako"))
  /\ encodePlantUML failing_deflate 65535 [] = Returns [].
Proof. split; reflexivity. Qed.

(** C5, amended. For every text without an unpaired surrogate:
    [encodePlantUML] returns the value of the [try] block when it
    completes; and when the block throws (the compressor fails, or its
    output has too many bytes for one call) it returns, instead of
    raising, the standard base64 (alphabet A-Z a-z 0-9 + /, padded with =)
    of the text's UTF-8 bytes, which is non-empty whenever the text is. *)
Theorem encodePlantUML_fallback_token deflateRaw max_arguments text :
  code_units text -> well_paired text = true ->
  (forall out, try_block deflateRaw max_arguments text = Returns out ->
               encodePlantUML deflateRaw max_arguments text = Returns out)
  /\ (forall e, try_block deflateRaw max_arguments text = Throws e ->
        encodePlantUML deflateRaw max_arguments text
        = Returns (base64_groups (map byte_val (TextEncoder_encode text)))
        /\ (text <> [] ->
            base64_groups (map byte_val (TextEncoder_encode text)) <> [])).
Proof.
  intros Hcu Hwp. split.
  - intros out H. unfold encodePlantUML. now rewrite H.
  - intros e H. unfold encodePlantUML. rewrite H. cbn [try_catch].
    destruct (fallback_octets text Hcu Hwp) as [enc [He [Hu Hr]]].
    unfold fallback_token. rewrite He. cbn [bind]. unfold btoa.
    assert (Hb : forallb (fun c => c <=? 255) (unescape enc) = true).
    { apply forallb_forall. intros c Hc. rewrite List.Forall_forall in Hr.
      apply Z.leb_le. specialize (Hr c Hc). lia. }
    rewrite Hb. unfold TextEncoder_encode.
    rewrite <- Hu, map_byte_val_octet by exact Hr. split; [reflexivity|].
    intros Hne. apply base64_groups_nonempty. rewrite Hu.
    destruct text as [|c rest]; [congruence|]. cbn [scalar_values].
    assert (Hx : forall cp l, flat_map utf8_octets (cp :: l) <> []).
    { intros cp l. cbn [flat_map]. pose proof (utf8_octets_nonempty cp).
      destruct (utf8_octets cp); [congruence|discriminate]. }
    destruct (is_high_surrogate c).
    + destruct rest as [|d rest']; [apply (Hx _ [])|].
      destruct (is_low_surrogate d); apply Hx.
    + destruct (is_low_surrogate c); apply Hx.
Qed.

(** A one-character text of three UTF-8 bytes, the compressor throwing. *)
Lemma encodePlantUML_fallback_token_witness :
  encodePlantUML failing_deflate 65535 (lit "图")
  = Returns (ascii_str "5Zu+").
Proof.
  assert (Hcu : code_units (lit "图")) by (repeat constructor; vm_compute; discriminate).
  destruct (encodePlantUML_fallback_token failing_deflate 65535 (lit "图") Hcu eq_refl)
    as [_ H].
  exact (proj1 (H _ eq_refl)).
Defined.
End EncoderFacts.

(** ** Loading the AI configuration *)

Section ConfigFacts.
Import JS Config.
Local Open Scope string_scope.

Lemma defaultConfig_complete : complete (JObj defaultConfig).
Proof.
  unfold complete, fields. repeat constructor; eexists; vm_compute; reflexivity.
Qed.

Lemma spread_keeps (target : gmap string json) (source : json) (k : string) :
  is_Some (target !! k) -> is_Some (spread target source !! k).
Proof.
  intros H. unfold spread. apply lookup_union_is_Some. now right.
Qed.

Lemma spread_missing (target : gmap string json) (source : json) (k : string) :
  get_property source k = None -> spread target source !! k = target !! k.
Proof.
  intros H. unfold spread. now apply lookup_union_r.
Qed.

Lemma spread_present (target : gmap string json) (source : json) (k : string) (v : json) :
  get_property source k = Some v -> spread target source !! k = Some v.
Proof.
  intros H. unfold spread. now apply lookup_union_Some_l.
Qed.

Lemma merged_complete (parsed : json) :
  complete (JObj (spread (spread ∅ (JObj defaultConfig)) parsed)).
Proof.
  unfold complete. pose proof defaultConfig_complete as H. unfold complete in H.
  eapply Forall_impl; [exact H|]. intros k Hk. cbn [get_property own_properties] in *.
  apply spread_keeps. unfold spread. cbn [own_properties].
  rewrite (right_id_L ∅ (∪)). exact Hk.
Qed.

Theorem loadConfig_merges JSON_parse (localStorage : gmap string jsstring) (config : json) :
  complete config ->
  complete (loadConfig JSON_parse localStorage config)
  /\ (forall saved parsed k,
         localStorage !! storage_key = Some saved -> truthy saved = true ->
         JSON_parse saved = Returns parsed ->
         (get_property parsed k = None ->
          get_property (loadConfig JSON_parse localStorage config) k = defaultConfig !! k)
         /\ (forall v, get_property parsed k = Some v ->
             get_property (loadConfig JSON_parse localStorage config) k = Some v)).
Proof.
  intros Hc. split.
  - unfold loadConfig. destruct (localStorage !! storage_key) as [saved|]; [|exact Hc].
    destruct (truthy saved); [|exact Hc].
    destruct (JSON_parse saved) as [parsed|e]; [|exact Hc].
    apply merged_complete.
  - intros saved parsed k Hs Ht Hp. unfold loadConfig. rewrite Hs, Ht, Hp.
    cbn [bind try_catch_value]. split.
    + intros Hk. unfold get_property at 1. cbn [own_properties].
      rewrite (spread_missing _ _ _ Hk).
      unfold spread. cbn [own_properties]. now rewrite (right_id_L ∅ (∪)).
    + intros v Hk. unfold get_property at 1. cbn [own_properties].
      now apply spread_present.
Qed.

Lemma loadConfig_merges_witness :
  get_property
    (loadConfig sample_JSON_parse
       (<[storage_key := ascii_str (quoted ["{"; "provider"; ":"; "openai"; "}"])]> ∅)
       (JObj defaultConfig)) "timeout" = Some (JNum 30 0).
Proof.
  destruct (loadConfig_merges sample_JSON_parse
              (<[storage_key := ascii_str (quoted ["{"; "provider"; ":"; "openai"; "}"])]> ∅)
              (JObj defaultConfig) defaultConfig_complete) as [_ H].
  destruct (H _ _ "timeout" eq_refl eq_refl eq_refl) as [H1 _].
  exact (H1 eq_refl).
Defined.

Theorem onMounted_replaces JSON_parse (localStorage : gmap string jsstring)
  (aiConfig : json) saved parsed :
  localStorage !! storage_key = Some saved -> truthy saved = true ->
  JSON_parse saved = Returns parsed ->
  onMounted JSON_parse localStorage aiConfig = parsed.
Proof.
  intros Hs Ht Hp. unfold onMounted. now rewrite Hs, Ht, Hp.
Qed.

(** C6. A stored configuration that has only the field [provider]:
    [onMounted] of [DesignStudio.vue] makes it the configuration as it is,
    so [templateUrl] (like every other missing field) is [undefined] and
    the configuration is not complete, whereas [loadConfig] of
    [AIConfigModal.vue], on the same store, fills [templateUrl] with its
    default and yields a complete configuration. *)
Theorem onMounted_drops_defaults :
  let stored := ascii_str (quoted ["{"; "provider"; ":"; "openai"; "}"]) in
  let localStorage : gmap string jsstring := <[storage_key := stored]> ∅ in
  let aiConfig := onMounted sample_JSON_parse localStorage initial_aiConfig in
  aiConfig = JObj (<["provider" := JStr (ascii_str "openai")]> ∅)
  /\ get_property aiConfig "templateUrl" = None
  /\ ~ complete aiConfig
  /\ get_property (loadConfig sample_JSON_parse localStorage initial_aiConfig) "templateUrl"
     = Some (JStr (ascii_str "https://api.example.com/templates"))
  /\ complete (loadConfig sample_JSON_parse localStorage initial_aiConfig).
Proof.
  cbv zeta. split; [reflexivity|]. split; [reflexivity|]. split.
  - intros H. unfold complete in H. rewrite List.Forall_forall in H.
    destruct (H "templateUrl") as [v Hv]; [vm_compute; tauto|]. discriminate Hv.
  - split; [reflexivity|]. apply loadConfig_merges, defaultConfig_complete.
Qed.
End ConfigFacts.

(** ** Diagram generation, the template library and the upload dialog *)

Section DiagramFacts.
Import JS Diagram.
Local Open Scope string_scope.
Local Open Scope list_scope.

Variable toLowerCase : jsstring -> jsstring.

Lemma generateDemoPlantUML_canned (text : jsstring) :
  exists tail,
    In tail [demo_login_tail; demo_order_tail; demo_class_tail; demo_flow_tail]
    /\ generateDemoPlantUML toLowerCase text = canned tail text.
Proof.
  unfold generateDemoPlantUML. cbv zeta.
  destruct (_ || _ || _); [eexists; split; [|reflexivity]; simpl; tauto|].
  destruct (_ || _ || _); [eexists; split; [|reflexivity]; simpl; tauto|].
  destruct (_ || _ || _); eexists; (split; [|reflexivity]); simpl; tauto.
Qed.

Lemma generateDemoPlantUML_login (text : jsstring) :
  includes (toLowerCase text) (lit "登录") = true ->
  generateDemoPlantUML toLowerCase text = canned demo_login_tail text.
Proof.
  intros H. unfold generateDemoPlantUML. cbv zeta. now rewrite H.
Qed.

Lemma generateDemoPlantUML_default (text : jsstring) :
  (forall k, In k ["登录"; "认证"; "鉴权"; "订单"; "下单"; "购买"; "类"; "class"; "对象"] ->
             includes (toLowerCase text) (lit k) = false) ->
  generateDemoPlantUML toLowerCase text = canned demo_flow_tail text.
Proof.
  intros H. unfold generateDemoPlantUML. cbv zeta.
  rewrite !H by (cbn [In]; tauto). reflexivity.
Qed.

(** A command is sent exactly when the trimmed description is not empty. *)
Lemma generatePlantUMLFromInput_start_request (v : view) :
  snd (generatePlantUMLFromInput_start v)
  = if truthy (trim (aiInput v)) then Some (aiInput v) else None.
Proof.
  unfold generatePlantUMLFromInput_start. now destruct (truthy (trim (aiInput v))).
Qed.

Lemma insertPlantUMLToEditor_some (code c : jsstring) (v : view) :
  editor v = Some c ->
  editor (insertPlantUMLToEditor code v) = Some (c ++ section_title ++ code)
  /\ docContent (insertPlantUMLToEditor code v) = c ++ section_title ++ code.
Proof.
  intros H. unfold insertPlantUMLToEditor, set_document. rewrite H.
  cbn [editor docContent]. split; reflexivity.
Qed.

Lemma insertPlantUMLToEditor_none (code : jsstring) (v : view) :
  editor v = None -> insertPlantUMLToEditor code v = v.
Proof.
  intros H. unfold insertPlantUMLToEditor. now rewrite H.
Qed.


Lemma generateDemoPlantUML_keyword (text : jsstring) :
  generateDemoPlantUML toLowerCase text
  = canned (keyword_matched_tail (toLowerCase text)) text.
Proof.
  unfold generateDemoPlantUML, keyword_matched_tail, keyword_groups. cbv zeta.
  cbn [find existsb fst snd]. rewrite !orb_false_r, !orb_assoc.
  destruct (_ || _ || _); [reflexivity|].
  destruct (_ || _ || _); [reflexivity|].
  destruct (_ || _ || _); reflexivity.
Qed.

Lemma canned_tails_differ :
  List.NoDup [demo_login_tail; demo_order_tail; demo_class_tail; demo_flow_tail].
Proof.
  apply NoDup_ListNoDup. apply (bool_decide_unpack _). vm_compute. exact I.
Qed.

End DiagramFacts.


Section TemplatesFacts.
Import JS Templates.
Local Open Scope string_scope.
Local Open Scope list_scope.

Theorem loadTemplates_invoke_bad_payload JSON_parse (templateUrl result : jsstring)
  (st : library) :
  truthy templateUrl = true -> truthy (trim templateUrl) = true ->
  (forall l, JSON_parse result <> Returns (JArr l)) ->
  let st' := loadTemplates_invoke JSON_parse templateUrl (Resolved result) st in
  templates st' = [] /\ error st' <> None /\ isLoading st' = false.
Proof.
  intros H1 H2 Hbad. unfold loadTemplates_invoke, parse_templates. rewrite H1, H2.
  cbn [negb orb].
  destruct (JSON_parse result) as [parsed|e] eqn:E.
  - destruct parsed; cbn [isArray templates error isLoading];
      try (repeat split; discriminate).
    exfalso. eapply Hbad. reflexivity.
  - cbn [templates error isLoading]. repeat split; discriminate.
Qed.

Theorem loadTemplates_fetch_parse_failure (templateUrl : jsstring) (resp : response)
  (e : JS.error) (st : library) :
  truthy templateUrl = true -> truthy (trim templateUrl) = true ->
  body resp = Throws e ->
  let st' := loadTemplates_fetch templateUrl (Resolved resp) st in
  templates st' = [] /\ error st' <> None /\ isLoading st' = false.
Proof.
  intros H1 H2 Hb. unfold loadTemplates_fetch, fetch_remote. rewrite H1, H2, Hb.
  cbn [andb].
  destruct (ok resp); cbn [negb bind templates error isLoading];
    repeat split; discriminate.
Qed.

(** C8. In the version of [loadTemplates] that fetches the URL itself, a
    payload that parses to a value that is not an array leaves the
    templates empty and [isLoading] false, and leaves [error] null: no
    error indicator is set. (The version that asks the host sets one:
    [loadTemplates_invoke_bad_payload].) *)
Theorem loadTemplates_fetch_not_array (templateUrl : jsstring) (resp : response)
  (parsed : json) (st : library) :
  truthy templateUrl = true -> truthy (trim templateUrl) = true ->
  ok resp = true -> body resp = Returns parsed -> isArray parsed = false ->
  loadTemplates_fetch templateUrl (Resolved resp) st
  = {| templates := []; isLoading := false; error := None |}.
Proof.
  intros H1 H2 Hok Hb Ha. unfold loadTemplates_fetch, fetch_remote.
  rewrite H1, H2, Hok, Hb. cbn [andb negb bind]. now rewrite Ha.
Qed.

(** The payload [{}]: no error in the fetching version, an error in the
    other one. *)
Lemma loadTemplates_fetch_not_array_witness :
  error (loadTemplates_fetch (ascii_str "https://api.example.com/templates")
           (Resolved {| ok := true; status := 200; body := sample_JSON_parse (ascii_str "{}") |})
           empty_library) = None
  /\ error (loadTemplates_invoke sample_JSON_parse
              (ascii_str "https://api.example.com/templates")
              (Resolved (ascii_str "{}")) empty_library)
     = Some (lit "远程模板格式不正确").
Proof.
  split; [|vm_compute; reflexivity].
  rewrite (loadTemplates_fetch_not_array
             (ascii_str "https://api.example.com/templates")
             {| ok := true; status := 200; body := sample_JSON_parse (ascii_str "{}") |}
             (JObj ∅) empty_library eq_refl eq_refl eq_refl eq_refl eq_refl).
  reflexivity.
Defined.
End TemplatesFacts.

Section UploadFacts.
Import JS Upload.
Local Open Scope string_scope.
Local Open Scope list_scope.

Lemma isFormValid_spec (content : jsstring) (f : form) :
  isFormValid content f = true <-> trim (title f) <> [] /\ trim content <> [].
Proof.
  unfold isFormValid. rewrite andb_true_iff, !Z.ltb_lt.
  split; intros [H1 H2].
  - split; intros E; rewrite E in *; simpl in *; lia.
  - split; [destruct (trim (title f))|destruct (trim content)];
      try congruence; simpl; lia.
Qed.

(** C9. The form is valid exactly when the trimmed title and the trimmed
    content are both non-empty. [handleUpload] never changes title,
    description, category or tags before its request settles; when the
    form is valid it issues one [save_template] request, named by the
    trimmed title and carrying the content; when it is not, it issues no
    request, sets the failure message and leaves [isUploading] alone. *)
Theorem handleUpload_guard (now : Z) (iso content : jsstring) (f : form) :
  (isFormValid content f = true <-> trim (title f) <> [] /\ trim content <> [])
  /\ (let '(f', req) := handleUpload_start now iso content f in
      title f' = title f /\ description f' = description f
      /\ category f' = category f /\ tags f' = tags f
      /\ if isFormValid content f
         then exists data, req = Some (save_template data)
                           /\ name data = trim (title f)
                           /\ data_content data = content
         else req = None
              /\ uploadResult f' = Some (false, lit "请填写模板标题")
              /\ isUploading f' = isUploading f).
Proof.
  split; [apply isFormValid_spec|].
  unfold handleUpload_start, set_result, set_uploading.
  destruct (isFormValid content f);
    cbn [negb title description category tags uploadResult isUploading].
  - repeat split. eexists. split; [reflexivity|]. split; reflexivity.
  - repeat split.
Qed.
(** Once the host has saved the template, the dialog reports success and
    schedules its own closing; the local store is not touched. *)
Lemma handleUpload_settle_resolved JSON_parse JSON_stringify unshift_error
  (setItem_throws : option jsstring) (data : templateData)
  (localStorage : gmap string jsstring) (f : form) :
  handleUpload_settle JSON_parse JSON_stringify unshift_error setItem_throws data
    (Resolved tt) localStorage f
  = (set_uploading false
       (set_result (Some (true, lit "模板上传成功！")) (set_success true f)),
     localStorage, Some (close_after 1500)).
Proof. reflexivity. Qed.

(** When the host rejects, the local store holds a list and has room, the
    template is put in front of the list. *)
Lemma saveToLocalStorage_unshift JSON_parse JSON_stringify unshift_error
  (data : templateData)
  (localStorage : gmap string jsstring) (text : jsstring) (l : list json) :
  localStorage !! local_key = Some text -> truthy text = true ->
  JSON_parse text = Returns (JArr l) ->
  saveToLocalStorage JSON_parse JSON_stringify unshift_error None data localStorage
  = Returns (<[local_key := JSON_stringify (JArr (to_json data :: l))]> localStorage).
Proof.
  intros H1 H2 H3. unfold saveToLocalStorage. now rewrite H1, H2, H3.
Qed.

(** When it holds JSON that is not a list, [unshift] throws and the upload
    is reported as failed. *)
Lemma handleUpload_settle_not_a_list JSON_parse JSON_stringify unshift_error
  (setItem_throws : option jsstring) (data : templateData)
  (localStorage : gmap string jsstring) (text : jsstring) (e : JS.error)
  (o : gmap string json) (f : form) :
  localStorage !! local_key = Some text -> truthy text = true ->
  JSON_parse text = Returns (JObj o) ->
  handleUpload_settle JSON_parse JSON_stringify unshift_error setItem_throws data
    (Rejected e) localStorage f
  = (set_uploading false
       (set_result (Some (false, lit "上传失败: " ++ unshift_error (JObj o))) f),
     localStorage, None).
Proof.
  intros H1 H2 H3. unfold handleUpload_settle, saveToLocalStorage.
  now rewrite H1, H2, H3.
Qed.
End UploadFacts.

(** ** The metrics dashboard *)

Section MetricsFacts.
Import JS Metrics.
Local Open Scope Z_scope.
Local Open Scope list_scope.

Variable getTime : jsstring -> Number.

Lemma insert_perm {A} (cmp : A -> A -> Number) (x : A) (l : list A) :
  Permutation (insert cmp x l) (x :: l).
Proof.
  induction l as [|y l IH]; cbn [insert]; [reflexivity|].
  destruct (precedes cmp x y); [reflexivity|].
  rewrite IH. apply perm_swap.
Qed.

Lemma fold_insert_perm {A} (cmp : A -> A -> Number) (l acc : list A) :
  Permutation (fold_left (fun acc x => insert cmp x acc) l acc) (acc ++ l).
Proof.
  revert acc. induction l as [|x l IH]; intros acc; cbn [fold_left].
  - now rewrite app_nil_r.
  - rewrite IH, insert_perm. apply Permutation_middle.
Qed.

Lemma sorted_copy_perm {A} (cmp : A -> A -> Number) (l : list A) :
  Permutation (sorted_copy cmp l) l.
Proof. unfold sorted_copy. apply (fold_insert_perm cmp l []). Qed.

Lemma valid_time (m : MetricData) :
  valid_date getTime m -> exists t, getTime (date m) = Int t.
Proof.
  unfold valid_date. destruct (getTime (date m)) as [t|]; [eauto|congruence].
Qed.

Lemma le_date_total (a b : MetricData) :
  valid_date getTime a -> valid_date getTime b ->
  if precedes (by_date getTime) a b then le_date getTime a b else le_date getTime b a.
Proof.
  intros [ta Ha]%valid_time [tb Hb]%valid_time.
  unfold precedes, by_date, le_date. rewrite Ha, Hb. cbn [minus].
  destruct (Z.ltb_spec (ta - tb) 0); lia.
Qed.

Lemma le_date_trans (a b c : MetricData) :
  le_date getTime a b -> le_date getTime b c -> le_date getTime a c.
Proof.
  unfold le_date.
  destruct (getTime (date a)), (getTime (date b)), (getTime (date c)); try tauto. lia.
Qed.

Lemma insert_sorted (x : MetricData) (l : list MetricData) :
  valid_date getTime x -> List.Forall (valid_date getTime) l ->
  StronglySorted (le_date getTime) l ->
  StronglySorted (le_date getTime) (insert (by_date getTime) x l).
Proof.
  intros Hx Hl Hs. induction Hs as [|y l Hs IH Hy]; cbn [insert].
  - constructor; constructor.
  - inversion Hl as [|? ? Hvy Hvl]; subst.
    pose proof (le_date_total x y Hx Hvy) as Hxy.
    destruct (precedes (by_date getTime) x y).
    + constructor; [constructor; assumption|].
      constructor; [exact Hxy|].
      eapply List.Forall_impl; [|exact Hy]. intros z Hz. eapply le_date_trans; eauto.
    + constructor; [apply IH; exact Hvl|].
      eapply Permutation_Forall; [symmetry; apply insert_perm|].
      constructor; assumption.
Qed.

Lemma fold_insert_sorted (l acc : list MetricData) :
  List.Forall (valid_date getTime) l -> List.Forall (valid_date getTime) acc ->
  StronglySorted (le_date getTime) acc ->
  StronglySorted (le_date getTime)
    (fold_left (fun acc x => insert (by_date getTime) x acc) l acc).
Proof.
  revert acc. induction l as [|x l IH]; intros acc Hl Hacc Hs; cbn [fold_left].
  - exact Hs.
  - inversion Hl as [|? ? Hx Hl']; subst. apply IH; [exact Hl'| |].
    + eapply Permutation_Forall; [symmetry; apply insert_perm|]. constructor; assumption.
    + apply insert_sorted; assumption.
Qed.

Lemma sorted_copy_ascending (l : list MetricData) :
  List.Forall (valid_date getTime) l -> ascending getTime (sorted_copy (by_date getTime) l).
Proof.
  intros H. unfold ascending, sorted_copy.
  apply fold_insert_sorted; [exact H|constructor|constructor].
Qed.

Lemma skipn_ascending (n : nat) (l : list MetricData) :
  ascending getTime l -> ascending getTime (skipn n l).
Proof.
  unfold ascending. revert l. induction n as [|n IH]; intros l H; [exact H|].
  destruct l as [|x l]; [exact H|]. cbn [skipn]. apply IH.
  now inversion H.
Qed.

Lemma alloc_fresh (a : list MetricData) (h : store) :
  h !! fst (alloc a h) = None /\ snd (alloc a h) !! fst (alloc a h) = Some a
  /\ (forall l, is_Some (h !! l) -> snd (alloc a h) !! l = h !! l).
Proof.
  unfold alloc. cbn [fst snd].
  assert (Hf : h !! fresh (dom h) = None).
  { apply not_elem_of_dom. apply is_fresh. }
  repeat split; [exact Hf|apply lookup_insert_eq|].
  intros l [v Hl]. apply lookup_insert_ne. intros E. subst l. congruence.
Qed.

Lemma by_date_consistent (l : list MetricData) :
  List.Forall (valid_date getTime) l -> consistent (by_date getTime) l.
Proof.
  intros Hv a b c Ha Hb Hc. rewrite List.Forall_forall in Hv.
  destruct (valid_time a (Hv a Ha)) as [ta Ea].
  destruct (valid_time b (Hv b Hb)) as [tb Eb].
  destruct (valid_time c (Hv c Hc)) as [tc Ec].
  unfold same, before, after, by_date. rewrite Ea, Eb, Ec. cbn [minus].
  split; [discriminate|]. split; [f_equal; lia|].
  split; [intros [= H]; f_equal; lia|].
  split; [intros [= H1] [= H2]; f_equal; lia|].
  split.
  - intros [v1 [[= <-] H1]] [v2 [[= <-] H2]]. eexists. split; [reflexivity|lia].
  - intros [v1 [[= <-] H1]] [v2 [[= <-] H2]]. eexists. split; [reflexivity|lia].
Qed.

Lemma insertion_sort_conforming : conforming insertion_sort.
Proof.
  split; [intros cmp l; apply sorted_copy_perm|reflexivity].
Qed.

(** The array [chartData] returns holds the last 7 elements of what the
    engine's sort left. *)
Lemma chartData_value (engine : sort_order) (metrics : positive) (h : store)
  (records : list MetricData) :
  h !! metrics = Some records ->
  let chart := fst (chartData getTime engine metrics h) in
  let h' := snd (chartData getTime engine metrics h) in
  let sorted := engine (by_date getTime) records in
  h' !! chart = Some (skipn (length sorted - 7) sorted)
  /\ h' !! metrics = Some records
  /\ (forall a, is_Some (h !! a) -> h' !! a = h !! a).
Proof.
  intros Hm. cbv zeta. unfold chartData, spread_array, Array_sort, slice_last.
  assert (Hd : deref h metrics = records) by (unfold deref; now rewrite Hm).
  rewrite Hd.
  destruct (alloc_fresh records h) as [Hf1 [Hg1 Hk1]].
  destruct (alloc records h) as [copy h1] eqn:E1. cbn [fst snd] in Hf1, Hg1, Hk1.
  assert (Hd1 : deref h1 copy = records) by (unfold deref; now rewrite Hg1).
  rewrite Hd1.
  set (sorted := engine (by_date getTime) records).
  set (h2 := <[copy := sorted]> h1).
  assert (Hd2 : deref h2 copy = sorted)
    by (unfold deref, h2; now rewrite lookup_insert_eq).
  rewrite Hd2.
  destruct (alloc_fresh (skipn (length sorted - 7) sorted) h2) as [Hf2 [Hg2 Hk2]].
  destruct (alloc (skipn (length sorted - 7) sorted) h2) as [chart h3] eqn:E2.
  cbn [fst snd] in *.
  assert (Hkeep : forall a, is_Some (h !! a) -> h3 !! a = h !! a).
  { intros a Ha. rewrite Hk2.
    - unfold h2. rewrite lookup_insert_ne; [now apply Hk1|].
      intros ->. destruct Ha as [v Hv]. congruence.
    - unfold h2. rewrite lookup_insert_ne; [now rewrite Hk1|].
      intros ->. destruct Ha as [v Hv]. congruence. }
  split; [exact Hg2|]. split; [|exact Hkeep].
  rewrite Hkeep by (rewrite Hm; eauto). exact Hm.
Qed.

Lemma chartData_deref (engine : sort_order) (metrics : positive) (h : store)
  (records : list MetricData) :
  h !! metrics = Some records ->
  deref (snd (chartData getTime engine metrics h))
        (fst (chartData getTime engine metrics h))
  = skipn (length (engine (by_date getTime) records) - 7)
          (engine (by_date getTime) records).
Proof.
  intros Hm. destruct (chartData_value engine metrics h records Hm) as [H _].
  unfold deref. now rewrite H.
Qed.

(** C10, amended. For every list of metric records at [metrics.value]
    and every engine: [chartData] is a new array holding the last 7 (or
    all, if fewer) entries of what the engine's sort left of a copy of
    the records, hence at most 7 entries, taken from a permutation of the
    records; the array at [metrics.value] and every other array of the
    store are what they were; and when every record's date is a date, the
    sorted copy is the records in stable order of date, and it and the
    chart data are in ascending order of date. *)
Theorem chartData_spec (engine : sort_order) (metrics : positive) (h : store)
  (records : list MetricData) :
  conforming engine ->
  h !! metrics = Some records ->
  let chart := fst (chartData getTime engine metrics h) in
  let h' := snd (chartData getTime engine metrics h) in
  let sorted := engine (by_date getTime) records in
  h' !! chart = Some (skipn (length sorted - 7) sorted)
  /\ Permutation sorted records
  /\ length (deref h' chart) = Nat.min 7 (length records)
  /\ h' !! metrics = Some records
  /\ (forall a, is_Some (h !! a) -> h' !! a = h !! a)
  /\ (List.Forall (valid_date getTime) records ->
      sorted = sorted_copy (by_date getTime) records
      /\ ascending getTime sorted /\ ascending getTime (deref h' chart)).
Proof.
  intros [Hperm Hsort] Hm. cbv zeta.
  destruct (chartData_value engine metrics h records Hm) as [Hc [Hk Hkeep]].
  rewrite (chartData_deref engine metrics h records Hm).
  split; [exact Hc|]. split; [apply Hperm|]. split.
  { rewrite length_skipn, (Permutation_length (Hperm _ records)). lia. }
  split; [exact Hk|]. split; [exact Hkeep|].
  intros Hv. rewrite (Hsort _ records (by_date_consistent records Hv)).
  split; [reflexivity|]. split; [now apply sorted_copy_ascending|].
  apply skipn_ascending. now apply sorted_copy_ascending.
Qed.

End MetricsFacts.

Section MetricsExamples.
Import JS Metrics.
Local Open Scope Z_scope.
Local Open Scope list_scope.

(** C10, as stated, fails: with a record whose date is not a date the
    comparator returns NaN, and whatever order the engine's sort leaves,
    the chart data holds that record next to a dated one: the entries are
    not in order of date. *)
Lemma chartData_invalid_date :
  by_date iso_getTime (record "invalid" 1) (record "2024-01-01" 2) = NaN
  /\ forall engine, conforming engine ->
       let h := store_of [record "invalid" 1; record "2024-01-01" 2] in
       let chart := deref (snd (chartData iso_getTime engine 1%positive h))
                          (fst (chartData iso_getTime engine 1%positive h)) in
       length chart = 2%nat /\ ~ ascending iso_getTime chart.
Proof.
  split; [reflexivity|]. intros engine [Hperm _]. cbv zeta.
  rewrite (chartData_deref iso_getTime engine 1%positive
             (store_of [record "invalid" 1; record "2024-01-01" 2])
             [record "invalid" 1; record "2024-01-01" 2] (lookup_insert_eq _ _ _)).
  specialize (Hperm (by_date iso_getTime) [record "invalid" 1; record "2024-01-01" 2]).
  pose proof (Permutation_length Hperm) as Hlen. cbn [length] in Hlen.
  rewrite Hlen. change (2 - 7)%nat with 0%nat. cbn [skipn].
  split; [exact Hlen|]. intros Hasc.
  apply Permutation_sym, Permutation_length_2_inv in Hperm.
  destruct Hperm as [E|E]; rewrite E in Hasc;
    inversion Hasc as [|? ? _ HF]; inversion HF as [|? ? Hle _]; exact Hle.
Qed.
End MetricsExamples.

(** Nine dated records, out of order: the chart holds the seven latest,
    in order of date. *)
Lemma chartData_spec_witness :
  let h := Metrics.store_of Metrics.nine_records in
  let chart := Metrics.deref
                 (snd (Metrics.chartData Metrics.iso_getTime Metrics.insertion_sort
                         1%positive h))
                 (fst (Metrics.chartData Metrics.iso_getTime Metrics.insertion_sort
                         1%positive h)) in
  chart = Metrics.latest_seven
  /\ length chart = 7%nat
  /\ Metrics.ascending Metrics.iso_getTime chart.
Proof.
  cbv zeta.
  destruct (chartData_spec Metrics.iso_getTime Metrics.insertion_sort 1%positive
              (Metrics.store_of Metrics.nine_records) Metrics.nine_records
              insertion_sort_conforming (lookup_insert_eq _ _ _))
    as [Hc [_ [Hl [_ [_ H]]]]].
  split; [|split].
  - unfold Metrics.deref. rewrite Hc. vm_compute. reflexivity.
  - exact Hl.
  - apply H. repeat constructor; discriminate.
Defined.

(** * Further properties *)

(** ** The encoder and the code-block renderer *)

Section EncoderMore.
Import JS Encoder Renderer.
Local Open Scope Z_scope.

Ltac all_bytes :=
  intros;
  repeat match goal with b : byte |- _ => revert b end;
  first [apply for_all_bytes2 | apply for_all_bytes];
  vm_compute; reflexivity.

Lemma custom_base64_group_length (g : Z * Z * Z) :
  length (map alphabet_char (sextets g)) = 4%nat.
Proof. destruct g as [[b1 b2] b3]. reflexivity. Qed.

Lemma groups_of_three_length (bs : list Z) :
  length (groups_of_three bs) = ((length bs + 2) / 3)%nat.
Proof.
  induction bs as [|a|a b|a b c l IH] using list3_ind; try reflexivity.
  cbn [groups_of_three length]. rewrite IH.
  replace (S (S (S (length l))) + 2)%nat with (length l + 2 + 1 * 3)%nat by lia.
  rewrite Nat.div_add by lia. lia.
Qed.

(** X1. The custom base64 of [n] bytes has exactly [4 * ceil(n / 3)]
    characters: four for every group of three bytes, the last group being
    filled up with zero bytes. *)
Theorem encode64_length_formula (bytes : list byte) :
  length (encode64 (map byte_val bytes)) = (4 * ((length bytes + 2) / 3))%nat.
Proof.
  rewrite encode64_custom_base64. unfold custom_base64.
  rewrite <- (length_map byte_val bytes), <- groups_of_three_length.
  induction (groups_of_three (map byte_val bytes)) as [|g gs IH]; [reflexivity|].
  cbn [flat_map]. rewrite length_app, custom_base64_group_length, IH. cbn [length]. lia.
Qed.

Lemma alphabet_index_char (v : Z) :
  is_sextet v = true -> alphabet_index (alphabet_char v) = v.
Proof.
  intros H. unfold is_sextet in H. apply andb_prop in H.
  destruct H as [H0%Z.leb_le H1%Z.ltb_lt].
  rewrite <- (Z2Nat.id v H0).
  assert (Hn : (Z.to_nat v < 64)%nat) by lia.
  generalize dependent (Z.to_nat v). clear. intros n Hn.
  do 64 (destruct n as [|n]; [vm_compute; reflexivity|]). lia.
Qed.

Lemma alphabet_char_inj (u v : Z) :
  is_sextet u = true -> is_sextet v = true ->
  alphabet_char u = alphabet_char v -> u = v.
Proof.
  intros Hu Hv E. rewrite <- (alphabet_index_char u Hu), <- (alphabet_index_char v Hv).
  now rewrite E.
Qed.

Lemma recover12_ok (b1 b2 : byte) : recover12 b1 b2 = true.
Proof. all_bytes. Qed.

Lemma recover23_ok (b2 b3 : byte) : recover23 b2 b3 = true.
Proof. all_bytes. Qed.

Lemma byte_val_inj (a b : byte) : byte_val a = byte_val b -> a = b.
Proof.
  intros E. rewrite <- (octet_byte_val a), <- (octet_byte_val b). now rewrite E.
Qed.

Lemma group_inj (a1 a2 a3 b1 b2 b3 : byte) :
  map alphabet_char (sextets (byte_val a1, byte_val a2, byte_val a3))
  = map alphabet_char (sextets (byte_val b1, byte_val b2, byte_val b3)) ->
  a1 = b1 /\ a2 = b2 /\ a3 = b3.
Proof.
  intros E.
  pose proof (sextets_range a1 a2 a3) as Ra. pose proof (sextets_range b1 b2 b3) as Rb.
  cbn [sextets map] in E, Ra, Rb.
  inversion Ra as [|? ? Ra1 Ra']; subst. inversion Ra' as [|? ? Ra2 Ra'']; subst.
  inversion Ra'' as [|? ? Ra3 Ra''']; subst. inversion Ra''' as [|? ? Ra4 _]; subst.
  inversion Rb as [|? ? Rb1 Rb']; subst. inversion Rb' as [|? ? Rb2 Rb'']; subst.
  inversion Rb'' as [|? ? Rb3 Rb''']; subst. inversion Rb''' as [|? ? Rb4 _]; subst.
  injection E as E1 E2 E3 E4.
  apply alphabet_char_inj in E1, E2, E3, E4; try assumption.
  pose proof (recover12_ok a1 a2) as Pa. pose proof (recover12_ok b1 b2) as Pb.
  pose proof (recover23_ok a2 a3) as Qa. pose proof (recover23_ok b2 b3) as Qb.
  unfold recover12, recover23 in *. cbv zeta in *.
  apply andb_prop in Pa, Pb, Qa, Qb.
  destruct Pa as [Pa1%Z.eqb_eq Pa2%Z.eqb_eq]. destruct Pb as [Pb1%Z.eqb_eq Pb2%Z.eqb_eq].
  destruct Qa as [Qa1%Z.eqb_eq Qa2%Z.eqb_eq]. destruct Qb as [Qb1%Z.eqb_eq Qb2%Z.eqb_eq].
  assert (H1 : byte_val a1 = byte_val b1) by (rewrite Pa1, Pb1, E1, E2; reflexivity).
  assert (H3 : byte_val a3 = byte_val b3) by (rewrite Qa2, Qb2, E3, E4; reflexivity).
  assert (H2 : byte_val a2 = byte_val b2).
  { rewrite (Z.div_mod (byte_val a2) 16), (Z.div_mod (byte_val b2) 16) by lia.
    rewrite <- Pa2, <- Pb2, <- Qa1, <- Qb1, E2, E3. reflexivity. }
  repeat split; now apply byte_val_inj.
Qed.

(** X2. [encode64] loses nothing: two byte sequences of the same length
    with the same encoding are the same sequence. (Sequences of different
    lengths can share an encoding, since the last group is filled up with
    zero bytes.) *)
Theorem encode64_injective (a b : list byte) :
  length a = length b ->
  encode64 (map byte_val a) = encode64 (map byte_val b) ->
  a = b.
Proof.
  rewrite !encode64_custom_base64. unfold custom_base64. revert b.
  induction a as [|a1|a1 a2|a1 a2 a3 l IH] using list3_ind;
    intros [|b1 [|b2 [|b3 r]]] Hlen E; try discriminate Hlen; try reflexivity.
  - cbn [map groups_of_three flat_map] in E. rewrite !app_nil_r in E.
    change 0 with (byte_val x00) in E. apply group_inj in E. destruct E as [-> _].
    reflexivity.
  - cbn [map groups_of_three flat_map] in E. rewrite !app_nil_r in E.
    change 0 with (byte_val x00) in E. apply group_inj in E. destruct E as [-> [-> _]].
    reflexivity.
  - cbn [map groups_of_three flat_map] in E.
    apply app_inj_1 in E; [|now rewrite !custom_base64_group_length].
    destruct E as [Eg Er]. apply group_inj in Eg. destruct Eg as [-> [-> ->]].
    f_equal. f_equal. f_equal. apply IH; [simpl in Hlen; lia|exact Er].
Qed.

Lemma encode64_injective_witness :
  [x50; x4c] = [x50; x4c].
Proof.
  exact (encode64_injective [x50; x4c] [x50; x4c] eq_refl eq_refl).
Defined.

(** X3. A text with an unpaired surrogate is not encoded when the
    compressed path fails: once the [try] block has thrown,
    [encodeURIComponent] in the [catch] block throws a URIError, and that
    exception leaves [encodePlantUML]. *)
Theorem encodePlantUML_unpaired_surrogate deflateRaw max_arguments text e :
  code_units text -> well_paired text = false ->
  try_block deflateRaw max_arguments text = Throws e ->
  encodePlantUML deflateRaw max_arguments text = Throws URIError.
Proof.
  intros Hcu Hwp Ht. unfold encodePlantUML. rewrite Ht. cbn [try_catch].
  now apply fallback_throws.
Qed.

Lemma encodePlantUML_unpaired_surrogate_witness :
  encodePlantUML failing_deflate 65535 [0x41; 0xD83D] = Throws URIError.
Proof.
  apply (encodePlantUML_unpaired_surrogate failing_deflate 65535 [0x41; 0xD83D]
           (HostError (ascii_str "pako"))).
  - repeat constructor; vm_compute; discriminate.
  - reflexivity.
  - reflexivity.
Defined.

Lemma fallback_token_value (text : jsstring) :
  code_units text -> well_paired text = true ->
  fallback_token text = Returns (base64_groups (map byte_val (TextEncoder_encode text)))
  /\ Forall (fun o => 0 <= o < 256) (map byte_val (TextEncoder_encode text)).
Proof.
  intros Hcu Hwp. destruct (fallback_octets text Hcu Hwp) as [enc [He [Hu Hr]]].
  unfold fallback_token. rewrite He. cbn [bind]. unfold btoa.
  assert (Hb : forallb (fun c => c <=? 255) (unescape enc) = true).
  { apply forallb_forall. intros c Hc. rewrite List.Forall_forall in Hr.
    apply Z.leb_le. specialize (Hr c Hc). lia. }
  rewrite Hb. unfold TextEncoder_encode.
  rewrite <- Hu, map_byte_val_octet by exact Hr. split; [reflexivity|exact Hr].
Qed.

(** X4. When the compressed buffer holds more bytes than one call takes
    arguments (it is spread into [String.fromCharCode]), the RangeError is
    caught and the diagram is encoded without compression: the result is
    the standard base64 of the text's UTF-8 bytes. *)
Theorem encodePlantUML_oversized deflateRaw max_arguments text body :
  code_units text -> well_paired text = true ->
  deflateRaw 9 (TextEncoder_encode text) = Some body ->
  max_arguments < Z.of_nat (length body) + 6 ->
  encodePlantUML deflateRaw max_arguments text
  = Returns (base64_groups (map byte_val (TextEncoder_encode text))).
Proof.
  intros Hcu Hwp Hd Hmax. unfold encodePlantUML.
  rewrite (proj2 (try_block_throws deflateRaw max_arguments text) body Hd Hmax).
  cbn [try_catch]. now apply fallback_token_value.
Qed.

Lemma encodePlantUML_oversized_witness :
  encodePlantUML stored_block 11 (ascii_str "AB") = Returns (ascii_str "QUI=").
Proof.
  apply (encodePlantUML_oversized stored_block 11 (ascii_str "AB")
           [x01; x02; x00; xfd; xff; x41; x42]).
  - repeat constructor; vm_compute; discriminate.
  - reflexivity.
  - reflexivity.
  - reflexivity.
Defined.

Lemma in_alphabet_token_char (c : Z) : in_alphabet c = true -> token_char c = true.
Proof.
  unfold in_alphabet, token_char. intros H.
  repeat (apply orb_prop in H; destruct H as [H|H]); rewrite H;
    rewrite ?orb_true_r; reflexivity.
Qed.

Lemma b64_token_char (v : Z) : 0 <= v < 64 -> token_char (b64 v) = true.
Proof.
  intros [H0 H1]. rewrite <- (Z2Nat.id v H0).
  assert (Hn : (Z.to_nat v < 64)%nat) by lia.
  generalize dependent (Z.to_nat v). clear. intros n Hn.
  do 64 (destruct n as [|n]; [vm_compute; reflexivity|]). lia.
Qed.

Lemma base64_groups_token_chars (s : jsstring) :
  Forall (fun o => 0 <= o < 256) s ->
  Forall (fun c => token_char c = true) (base64_groups s).
Proof.
  induction s as [|a|a b|a b c l IH] using list3_ind; intros H.
  - constructor.
  - inversion H as [|? ? Ha _]; subst. cbn [base64_groups].
    repeat constructor; try apply b64_token_char; Z.div_mod_to_equations; lia.
  - inversion H as [|? ? Ha H']; subst. inversion H' as [|? ? Hb _]; subst.
    cbn [base64_groups].
    repeat constructor; try apply b64_token_char; Z.div_mod_to_equations; lia.
  - inversion H as [|? ? Ha H']; subst. inversion H' as [|? ? Hb H'']; subst.
    inversion H'' as [|? ? Hc Hl]; subst. cbn [base64_groups].
    repeat (constructor; [apply b64_token_char; Z.div_mod_to_equations; lia|]).
    now apply IH.
Qed.

Lemma encodePlantUML_token_chars deflateRaw max_arguments text out :
  code_units text ->
  encodePlantUML deflateRaw max_arguments text = Returns out ->
  Forall (fun c => token_char c = true) out.
Proof.
  intros Hcu. unfold encodePlantUML, try_catch.
  destruct (try_block deflateRaw max_arguments text) as [r|e] eqn:Et.
  - intros [= <-]. apply try_block_returns in Et. destruct Et as [compressed [_ [_ ->]]].
    eapply Forall_impl; [apply custom_base64_alphabet|].
    intros c Hc. now apply in_alphabet_token_char.
  - destruct (well_paired text) eqn:Hwp.
    + destruct (fallback_token_value text Hcu Hwp) as [-> Hr]. intros [= <-].
      now apply base64_groups_token_chars.
    + rewrite (fallback_throws text Hcu Hwp). discriminate.
Qed.

Lemma escape_unit_no_angle (c : Z) :
  Forall (fun x => x <> 60 /\ x <> 62) (escape_unit c).
Proof.
  unfold escape_unit.
  destruct (Z.eqb_spec c 38); [repeat constructor; discriminate|].
  destruct (Z.eqb_spec c 160); [repeat constructor; discriminate|].
  destruct (Z.eqb_spec c 60); [repeat constructor; discriminate|].
  destruct (Z.eqb_spec c 62); [repeat constructor; discriminate|].
  repeat constructor; assumption.
Qed.

Lemma escapeHtml_no_angle (text : jsstring) :
  Forall (fun x => x <> 60 /\ x <> 62) (escapeHtml text).
Proof.
  unfold escapeHtml. induction text as [|c r IH]; [constructor|].
  cbn [flat_map]. apply Forall_app. split; [apply escape_unit_no_angle|exact IH].
Qed.

(** X5. The renderer leaves every code block not tagged [plantuml] to the
    default rendering. For a [plantuml] block it returns four nodes, a
    [div] around an image and a hidden [pre]: the image address is the
    service address followed by the encoding of the content, whose
    characters are letters, digits and [- _ + / =] only, so none of them
    can end the quoted [src] attribute; the content shown in the [pre] is
    escaped and holds no [<] and no [>]. An exception of the encoder
    leaves the renderer as it is. *)
Theorem codeBlock_markup deflateRaw max_arguments language content :
  code_units content ->
  match codeBlock deflateRaw max_arguments language content with
  | Returns None => language <> ascii_str "plantuml"
  | Returns (Some tokens) =>
    language = ascii_str "plantuml"
    /\ exists encoded,
        encodePlantUML deflateRaw max_arguments content = Returns encoded
        /\ tokens = [ openTag (ascii_str "div") true (ascii_str "plantuml-wrapper");
                      html (img_open ++ service ++ encoded ++ img_close);
                      html (pre_open ++ escapeHtml content ++ pre_close);
                      closeTag (ascii_str "div") true ]
        /\ Forall (fun c => token_char c = true) encoded
        /\ ~ In 34 encoded
        /\ Forall (fun c => c <> 60 /\ c <> 62) (escapeHtml content)
  | Throws e =>
    language = ascii_str "plantuml"
    /\ encodePlantUML deflateRaw max_arguments content = Throws e
  end.
Proof.
  intros Hcu. unfold codeBlock. case_bool_decide as Hl.
  - destruct (encodePlantUML deflateRaw max_arguments content) as [encoded|e] eqn:E;
      cbn [bind].
    + split; [exact Hl|]. exists encoded.
      pose proof (encodePlantUML_token_chars _ _ _ _ Hcu E) as Ht.
      repeat split; try assumption.
      * intros Hin. rewrite List.Forall_forall in Ht. specialize (Ht 34 Hin).
        discriminate Ht.
      * apply escapeHtml_no_angle.
    + split; [exact Hl|reflexivity].
  - exact Hl.
Qed.

Lemma codeBlock_markup_witness :
  codeBlock stored_block 65535 (ascii_str "plantuml") (ascii_str "A")
  = Returns (Some [ openTag (ascii_str "div") true (ascii_str "plantuml-wrapper");
                    html (img_open ++ service ++ ascii_str "UDe10G3-_q40GW12" ++ img_close);
                    html (pre_open ++ ascii_str "A" ++ pre_close);
                    closeTag (ascii_str "div") true ]).
Proof.
  assert (Hcu : code_units (ascii_str "A")) by (repeat constructor; vm_compute; discriminate).
  pose proof (codeBlock_markup stored_block 65535 (ascii_str "plantuml") (ascii_str "A") Hcu)
    as H.
  destruct (codeBlock stored_block 65535 (ascii_str "plantuml") (ascii_str "A"))
    as [[tokens|]|e] eqn:E.
  - destruct H as [_ [encoded [He [Ht _]]]].
    assert (He' : encodePlantUML stored_block 65535 (ascii_str "A")
                  = Returns (ascii_str "UDe10G3-_q40GW12")) by (vm_compute; reflexivity).
    rewrite He' in He. injection He as <-. rewrite Ht. reflexivity.
  - exfalso. apply H. reflexivity.
  - exfalso. destruct H as [_ H]. vm_compute in H. discriminate H.
Defined.
End EncoderMore.

(** ** The configuration dialog *)

Section ConfigDialogFacts.
Import JS Config ConfigDialog.
Local Open Scope string_scope.

Lemma defaultConfig_fields (k : string) (v : json) :
  defaultConfig !! k = Some v -> In k fields.
Proof.
  unfold defaultConfig, fields. intros H.
  repeat (rewrite lookup_insert in H; case_decide;
          [subst k; cbn [In]; solve [repeat (first [left; reflexivity | right])]|]).
  rewrite lookup_empty in H. discriminate H.
Qed.

Lemma complete_over_defaults (o : gmap string json) :
  complete (JObj o) -> spread (spread ∅ (JObj defaultConfig)) (JObj o) = o.
Proof.
  intros Hc. unfold spread. cbn [own_properties]. rewrite (right_id_L ∅ (∪)).
  apply map_eq. intros k. rewrite lookup_union.
  destruct (o !! k) as [v|] eqn:Ek; [now destruct (defaultConfig !! k)|].
  destruct (defaultConfig !! k) as [d|] eqn:Ed; [|reflexivity].
  apply defaultConfig_fields in Ed. unfold complete in Hc.
  rewrite List.Forall_forall in Hc. destruct (Hc k Ed) as [v Hv].
  unfold get_property in Hv. cbn [own_properties] in Hv. congruence.
Qed.

(** X6. What the dialog saves is what is read back. After [saveConfig]
    has stored a configuration (its text being one [JSON.parse] reads back
    to the same object), the dialog emits that configuration, the view's
    [onMounted] reads exactly it, and the dialog's [loadConfig] reads it
    with the defaults under it, which is the configuration itself when it
    has all the fields. *)
Theorem saveConfig_loadConfig JSON_parse JSON_stringify (config : gmap string json)
  (localStorage : gmap string jsstring) (previous : json) :
  JSON_parse (JSON_stringify (JObj config)) = Returns (JObj config) ->
  truthy (JSON_stringify (JObj config)) = true ->
  let saved := saveConfig JSON_stringify true config localStorage in
  snd saved = Some config
  /\ Config.onMounted JSON_parse (fst saved) previous = JObj config
  /\ loadConfig JSON_parse (fst saved) previous = JObj (config ∪ defaultConfig)
  /\ (complete (JObj config) -> loadConfig JSON_parse (fst saved) previous = JObj config).
Proof.
  intros Hrt Ht. cbv zeta. unfold saveConfig. cbn [fst snd].
  split; [reflexivity|]. split; [|split].
  - unfold Config.onMounted. rewrite lookup_insert_eq, Ht, Hrt. reflexivity.
  - unfold loadConfig. rewrite lookup_insert_eq, Ht, Hrt. cbn [bind try_catch_value].
    unfold spread. cbn [own_properties]. now rewrite (right_id_L ∅ (∪)).
  - intros Hc. unfold loadConfig. rewrite lookup_insert_eq, Ht, Hrt.
    cbn [bind try_catch_value]. now rewrite complete_over_defaults.
Qed.

Lemma saveConfig_loadConfig_witness :
  loadConfig (one_text_parse custom_config)
    (fst (saveConfig one_text_stringify true custom_config ∅)) JNull
  = JObj (custom_config ∪ defaultConfig).
Proof.
  exact (proj1 (proj2 (proj2 (saveConfig_loadConfig (one_text_parse custom_config)
                                one_text_stringify custom_config ∅ JNull
                                eq_refl eq_refl)))).
Defined.

Lemma lookup_preset_own (name : string) (u m : jsstring) :
  In (name, (u, m)) presets ->
  lookup_preset (Some (ascii_str name)) = own_preset u m.
Proof.
  unfold presets. cbn [In]. intros H.
  repeat (destruct H as [H|H]; [injection H as <- <- <-; vm_compute; reflexivity|]).
  contradiction.
Qed.

(** X7. Opening the dialog overrides a stored endpoint. When the stored
    provider is one of the presets other than [demo], the provider watcher
    runs after [loadConfig] (the provider is no longer the initial
    [demo]) and sets [apiUrl] and [model] to the preset's values, whatever
    was stored for them; every other field is as [loadConfig] read it. *)
Theorem mounted_applies_preset JSON_parse (localStorage : gmap string jsstring)
  (saved : jsstring) (parsed : json) (name : string) (u m : jsstring) :
  localStorage !! storage_key = Some saved -> truthy saved = true ->
  JSON_parse saved = Returns parsed ->
  get_property parsed "provider" = Some (JStr (ascii_str name)) ->
  In (name, (u, m)) presets -> name <> "demo" ->
  let config := mounted JSON_parse localStorage in
  config !! "apiUrl" = Some (JStr u)
  /\ config !! "model" = Some (JStr m)
  /\ (forall k, k <> "apiUrl" -> k <> "model" ->
                config !! k = get_property (loadConfig JSON_parse localStorage
                                              (JObj defaultConfig)) k).
Proof.
  intros Hs Ht Hp Hprov Hin Hne. cbv zeta. unfold mounted.
  assert (Hl : loadConfig JSON_parse localStorage (JObj defaultConfig)
               = JObj (spread (spread ∅ (JObj defaultConfig)) parsed)).
  { unfold loadConfig. now rewrite Hs, Ht, Hp. }
  rewrite Hl. unfold watch_from_demo.
  assert (Hpv : spread (spread ∅ (JObj defaultConfig)) parsed !! "provider"
                = Some (JStr (ascii_str name))).
  { unfold spread at 1. apply lookup_union_Some_l. exact Hprov. }
  rewrite Hpv. cbn [is_demo].
  assert (Hnd : bool_decide (ascii_str name = ascii_str "demo") = false).
  { unfold presets in Hin. cbn [In] in Hin.
    repeat (destruct Hin as [Hin|Hin];
            [injection Hin as <- <- <-; first [reflexivity | congruence]|]).
    contradiction. }
  rewrite Hnd. unfold provider_changed. cbn [property_key].
  rewrite (lookup_preset_own name u m Hin).
  split; [|split].
  - rewrite lookup_insert_ne by discriminate. apply lookup_insert_eq.
  - apply lookup_insert_eq.
  - intros k Hk1 Hk2. rewrite !lookup_insert_ne by congruence. reflexivity.
Qed.

Lemma mounted_applies_preset_witness :
  let localStorage : gmap string jsstring := <[storage_key := ascii_str "stored"]> ∅ in
  mounted (one_text_parse custom_config) localStorage !! "apiUrl"
  = Some (JStr (ascii_str "http://localhost:11434/v1/chat/completions"))
  /\ mounted (one_text_parse custom_config) localStorage !! "model"
     = Some (JStr (ascii_str "llama2")).
Proof.
  cbv zeta.
  destruct (mounted_applies_preset (one_text_parse custom_config)
              (<[storage_key := ascii_str "stored"]> ∅) (ascii_str "stored")
              (JObj custom_config) "custom"
              (ascii_str "http://localhost:11434/v1/chat/completions") (ascii_str "llama2")
              (lookup_insert_eq _ _ _) eq_refl eq_refl eq_refl
              ltac:(cbn [presets In]; right; right; left; reflexivity) ltac:(discriminate))
    as [H1 [H2 _]].
  split; assumption.
Defined.

(** X8. Resetting does not always give the defaults. When the provider
    was not [demo], the provider watcher runs after the reset and sets the
    model to the [demo] preset's ['demo'], while the default model is
    ['gpt-4']; only when the provider already was [demo] is the result
    [defaultConfig]. Declining the confirmation changes nothing. *)
Theorem resetConfig_model (config : gmap string json) :
  let fresh := resetConfig true config in
  match config !! "provider" with
  | Some (JStr p) =>
    if bool_decide (p = ascii_str "demo") then fresh = defaultConfig
    else fresh = <["model" := JStr (ascii_str "demo")]> defaultConfig
  | _ => fresh = <["model" := JStr (ascii_str "demo")]> defaultConfig
  end
  /\ resetConfig false config = config
  /\ defaultConfig !! "model" = Some (JStr (ascii_str "gpt-4")).
Proof.
  cbv zeta. split; [|split; reflexivity].
  assert (Hd : provider_changed (JStr (ascii_str "demo")) defaultConfig
               = <["model" := JStr (ascii_str "demo")]> defaultConfig).
  { unfold provider_changed. cbn [property_key].
    rewrite (lookup_preset_own "demo" [] (ascii_str "demo"))
      by (cbn [presets In]; right; right; right; left; reflexivity).
    rewrite (insert_id defaultConfig "apiUrl" (JStr [])) by reflexivity. reflexivity. }
  unfold resetConfig. destruct (config !! "provider") as [p|]; [|exact Hd].
  destruct p; cbn [is_demo]; try exact Hd.
  destruct (bool_decide (s = ascii_str "demo")); [reflexivity|exact Hd].
Qed.
End ConfigDialogFacts.

(** ** Saving the document *)

Section DocumentsFacts.
Import JS Documents.
Local Open Scope string_scope.
Local Open Scope Z_scope.
Local Open Scope list_scope.

Lemma truthy_false (s : jsstring) : truthy s = false -> s = [].
Proof. destruct s; [reflexivity|discriminate]. Qed.

Lemma truthy_true (s : jsstring) : truthy s = true -> s <> [].
Proof. destruct s; [discriminate|intros _; discriminate]. Qed.

(** X9. [handleSave] never sends an empty file name. When it sends a
    request, the name is not empty, it is the name the view then shows,
    the content is the document's, and [isSaving] is set; the name is the
    current one, or the prompt's answer when the current one is blank. It
    sends nothing only when the current name is blank and the prompt was
    dismissed or answered with the empty string, and then the view is
    unchanged. *)
Theorem handleSave_request (answer : option jsstring) (w : workspace) :
  match handleSave_start answer w with
  | (w', Some (save_document filename content)) =>
    filename <> [] /\ content = docContent w /\ currentFile w' = filename
    /\ isSaving w' = true
    /\ (filename = currentFile w
        \/ (trim (currentFile w) = [] /\ answer = Some filename))
  | (w', Some list_documents) => False
  | (w', None) =>
    w' = w /\ trim (currentFile w) = [] /\ (answer = None \/ answer = Some [])
  end.
Proof.
  unfold handleSave_start.
  destruct (truthy (trim (currentFile w))) eqn:Ht; cbn [negb].
  - cbn [set_isSaving currentFile docContent isSaving].
    repeat split; [|left; reflexivity].
    intros E. rewrite E in Ht. discriminate Ht.
  - apply truthy_false in Ht. destruct answer as [name|].
    + destruct (truthy name) eqn:Hn; cbn [negb].
      * cbn [set_isSaving set_currentFile currentFile docContent isSaving].
        repeat split; [now apply truthy_true|right; split; [exact Ht|reflexivity]].
      * apply truthy_false in Hn. subst name. repeat split; [exact Ht|now right].
    + repeat split; [exact Ht|now left].
Qed.

(** X10. The prompt's answer is not trimmed: when the current name is
    blank, an answer of white space only is sent to the host as the file
    name and becomes the current name, a name the handler takes for
    missing at the next save, where it prompts again (and sends nothing
    if that prompt is dismissed). *)
Theorem handleSave_blank_answer (name : jsstring) (w : workspace) :
  trim (currentFile w) = [] -> name <> [] -> trim name = [] ->
  let '(w1, request1) := handleSave_start (Some name) w in
  request1 = Some (save_document name (docContent w))
  /\ currentFile w1 = name
  /\ forall w2, currentFile w2 = currentFile w1 ->
       snd (handleSave_start None w2) = None.
Proof.
  intros Hc Hn Ht. unfold handleSave_start. rewrite Hc. cbn [truthy negb].
  destruct name as [|c r]; [congruence|]. cbn [truthy negb].
  cbn [set_isSaving set_currentFile currentFile docContent].
  repeat split. intros w2 ->. rewrite Ht. reflexivity.
Qed.

Lemma handleSave_blank_answer_witness :
  let w := {| currentFile := []; docContent := ascii_str "# Doc"; savedFiles := [];
              isSaving := false; toastMessage := []; showToast := false |} in
  let '(w1, request1) := handleSave_start (Some [32]) w in
  request1 = Some (save_document [32] (ascii_str "# Doc"))
  /\ currentFile w1 = [32]
  /\ forall w2, currentFile w2 = currentFile w1 ->
       snd (handleSave_start None w2) = None.
Proof.
  exact (handleSave_blank_answer [32]
           {| currentFile := []; docContent := ascii_str "# Doc"; savedFiles := [];
              isSaving := false; toastMessage := []; showToast := false |}
           eq_refl ltac:(discriminate) eq_refl).
Defined.

(** X11. However the two host calls of a save end, [isSaving] is false
    afterwards, a toast is shown and the file name and the content are
    untouched. The toast reports success exactly when [save_document]
    resolved: a failed refresh of the file list does not turn a save into
    a failure, it only leaves the list as it was. *)
Theorem handleSave_outcome (saved : settled unit) (listing : settled (list jsstring))
  (w : workspace) :
  let final :=
    match handleSave_saved saved w with
    | (w1, Some _) => handleSave_listed listing w1
    | (w1, None) => w1
    end in
  isSaving final = false /\ showToast final = true
  /\ currentFile final = currentFile w /\ docContent final = docContent w
  /\ match saved with
     | Resolved _ =>
       toastMessage final = lit "保存成功"
       /\ savedFiles final = match listing with
                             | Resolved files => files
                             | Rejected _ => savedFiles w
                             end
     | Rejected err =>
       toastMessage final = lit "保存失败: " ++ Templates.error_text err
       /\ savedFiles final = savedFiles w
     end.
Proof.
  destruct saved as [u|err]; unfold handleSave_saved, handleSave_listed.
  - destruct listing as [files|e]; repeat split.
  - repeat split.
Qed.
End DocumentsFacts.

(** ** Searching the template library *)

Section TemplateSearchFacts.
Import JS Templates TemplateSearch.
Local Open Scope string_scope.
Local Open Scope Z_scope.
Local Open Scope list_scope.
Variable toLowerCase : jsstring -> jsstring.

Lemma lowered_text (t : json) (k : string) :
  lowered toLowerCase t k
  = match text_property t k with
    | Some s => Returns (toLowerCase s)
    | None => Throws TypeError
    end.
Proof.
  unfold lowered, text_property.
  destruct t; try reflexivity;
    (destruct (get_property _ k) as [[]|]; reflexivity).
Qed.

Lemma matches_hit (query : jsstring) (t : json) :
  is_template t = true -> matches toLowerCase query t = Returns (hit toLowerCase query t).
Proof.
  unfold is_template, matches, hit. rewrite !lowered_text.
  destruct (text_property t "name") as [n|]; [|discriminate].
  destruct (text_property t "description") as [d|]; [|discriminate].
  destruct (text_property t "id") as [i|]; [|discriminate].
  intros _. cbn [bind].
  destruct (includes (toLowerCase n) query); [reflexivity|].
  cbn [bind]. destruct (includes (toLowerCase d) query); reflexivity.
Qed.

Lemma matches_throws (query : jsstring) (t : json) (e : JS.error) :
  matches toLowerCase query t = Throws e -> e = TypeError.
Proof.
  unfold matches. rewrite !lowered_text.
  destruct (text_property t "name") as [n|]; cbn [bind]; [|congruence].
  destruct (includes (toLowerCase n) query); [discriminate|].
  destruct (text_property t "description") as [d|]; cbn [bind]; [|congruence].
  destruct (includes (toLowerCase d) query); [discriminate|].
  destruct (text_property t "id") as [i|]; cbn [bind]; [discriminate|congruence].
Qed.

Lemma Array_filter_throws (query : jsstring) (l : list json) (e : JS.error) :
  Array_filter (matches toLowerCase query) l = Throws e -> e = TypeError.
Proof.
  induction l as [|t r IH]; [discriminate|]. cbn [Array_filter].
  destruct (matches toLowerCase query t) as [b|e'] eqn:Em; cbn [bind].
  - destruct (Array_filter (matches toLowerCase query) r) as [k|e''] eqn:Ef; cbn [bind].
    + discriminate.
    + intros [= <-]. now apply IH.
  - intros [= <-]. now apply (matches_throws query t).
Qed.

(** X12. With a non-empty query, on a list of well-formed templates (each
    with a string name, description and id) the search returns exactly the
    templates one of whose three texts, in lower case, contains the query
    in lower case, in their original order. *)
Theorem filteredTemplates_filter (searchQuery : jsstring) (templates : list json) :
  searchQuery <> [] ->
  Forall (fun t => is_template t = true) templates ->
  filteredTemplates toLowerCase searchQuery templates
  = Returns (List.filter (hit toLowerCase (toLowerCase searchQuery)) templates).
Proof.
  intros Hq Hall. unfold filteredTemplates.
  destruct searchQuery as [|c q]; [congruence|]. cbn [truthy negb]. cbv zeta.
  induction Hall as [|t r Ht Hr IH]; [reflexivity|].
  cbn [Array_filter List.filter]. rewrite (matches_hit _ t Ht), IH. cbn [bind].
  reflexivity.
Qed.

(** X13. The search throws on an element the loader let in. With a
    non-empty query, a list holding any element whose name is not a
    string (such as [{}] or [null], which the loaders accept since they
    test the payload with [Array.isArray] only) makes the search throw a
    TypeError; with the empty query the same list is returned as it is. *)
Theorem filteredTemplates_ill_formed (searchQuery : jsstring) (templates : list json)
  (t : json) :
  searchQuery <> [] -> In t templates -> text_property t "name" = None ->
  filteredTemplates toLowerCase searchQuery templates = Throws TypeError
  /\ filteredTemplates toLowerCase [] templates = Returns templates.
Proof.
  intros Hq Hin Hn. split; [|reflexivity]. unfold filteredTemplates.
  destruct searchQuery as [|c q]; [congruence|]. cbn [truthy negb]. cbv zeta.
  destruct (Array_filter (matches toLowerCase (toLowerCase (c :: q))) templates)
    as [kept|e] eqn:E.
  - exfalso. revert kept E.
    induction templates as [|u r IH]; [destruct Hin|]. intros kept.
    cbn [Array_filter]. destruct Hin as [->|Hin].
    + unfold matches at 1. rewrite lowered_text, Hn. discriminate.
    + destruct (matches toLowerCase (toLowerCase (c :: q)) u); cbn [bind]; [|discriminate].
      destruct (Array_filter (matches toLowerCase (toLowerCase (c :: q))) r) as [k|]
        eqn:Er; cbn [bind]; [|discriminate].
      intros _. now apply (IH Hin k).
  - f_equal. now apply (Array_filter_throws _ _ _ E).
Qed.

(** X14. In the version of the loader that asks the host, [error] is null
    exactly when a list was loaded: the URL is not blank, the command
    resolved and its text parsed to an array, which is then the value of
    [templates]. Whenever [error] is set the list is empty, and
    [isLoading] is false in every case. *)
Theorem loadTemplates_invoke_error_iff JSON_parse (templateUrl : jsstring)
  (invoked : settled jsstring) (st : library) :
  let st' := loadTemplates_invoke JSON_parse templateUrl invoked st in
  isLoading st' = false
  /\ (error st' = None
      <-> trim templateUrl <> []
          /\ exists result l, invoked = Resolved result
                              /\ JSON_parse result = Returns (JArr l)
                              /\ templates st' = l)
  /\ (error st' <> None -> templates st' = []).
Proof.
  cbv zeta. unfold loadTemplates_invoke, parse_templates.
  destruct (truthy templateUrl) eqn:H1; cbn [negb orb].
  - destruct (truthy (trim templateUrl)) eqn:H2; cbn [negb].
    + apply truthy_true in H2.
      destruct invoked as [result|err].
      * destruct (JSON_parse result) as [parsed|e] eqn:E.
        -- destruct parsed; cbn [isArray elements isLoading error templates];
             (split; [reflexivity|]); (split; [|try reflexivity; congruence]);
             try (split; [discriminate|intros [_ [r' [l' [[= <-] [Hp _]]]]]; congruence]).
           split; [intros _|reflexivity]. split; [exact H2|]. now exists result, l.
        -- cbn [isLoading error templates]. split; [reflexivity|].
           split; [|reflexivity].
           split; [discriminate|intros [_ [r' [l' [[= <-] [Hp _]]]]]; congruence].
      * cbn [isLoading error templates]. split; [reflexivity|]. split; [|reflexivity].
        split; [discriminate|intros [_ [r' [l' [Hr _]]]]; discriminate].
    + apply truthy_false in H2. cbn [isLoading error templates].
      split; [reflexivity|]. split; [|reflexivity].
      split; [discriminate|intros [Hne _]; congruence].
  - apply truthy_false in H1. subst templateUrl. cbn [isLoading error templates].
    split; [reflexivity|]. split; [|reflexivity].
    split; [discriminate|intros [Hne _]; exfalso; apply Hne; reflexivity].
Qed.
End TemplateSearchFacts.

Lemma filteredTemplates_filter_witness :
  TemplateSearch.filteredTemplates Diagram.ascii_toLowerCase (JS.ascii_str "API")
    [TemplateSearch.template "t1" "Login API" "sequence";
     TemplateSearch.template "t2" "Classes" "class diagram";
     TemplateSearch.template "t3" "Orders" "rest api"]
  = JS.Returns [TemplateSearch.template "t1" "Login API" "sequence";
                TemplateSearch.template "t3" "Orders" "rest api"].
Proof.
  rewrite (filteredTemplates_filter Diagram.ascii_toLowerCase (JS.ascii_str "API")
             [TemplateSearch.template "t1" "Login API" "sequence";
              TemplateSearch.template "t2" "Classes" "class diagram";
              TemplateSearch.template "t3" "Orders" "rest api"]).
  - vm_compute. reflexivity.
  - discriminate.
  - repeat constructor.
Defined.

Lemma filteredTemplates_ill_formed_witness :
  TemplateSearch.filteredTemplates Diagram.ascii_toLowerCase (JS.ascii_str "api")
    [TemplateSearch.template "t1" "Login API" "sequence"; JS.JObj ∅]
  = JS.Throws JS.TypeError
  /\ TemplateSearch.filteredTemplates Diagram.ascii_toLowerCase []
       [TemplateSearch.template "t1" "Login API" "sequence"; JS.JObj ∅]
     = JS.Returns [TemplateSearch.template "t1" "Login API" "sequence"; JS.JObj ∅].
Proof.
  apply (filteredTemplates_ill_formed Diagram.ascii_toLowerCase (JS.ascii_str "api")
           [TemplateSearch.template "t1" "Login API" "sequence"; JS.JObj ∅] (JS.JObj ∅)).
  - discriminate.
  - right. left. reflexivity.
  - reflexivity.
Defined.

(** ** Tags and the content summary of the upload dialog *)

Section TagsFacts.
Import JS Upload Tags.
Local Open Scope string_scope.
Local Open Scope Z_scope.
Local Open Scope list_scope.

Lemma trim_start_split (s : jsstring) :
  exists pre, s = pre ++ trim_start s.
Proof.
  induction s as [|c r [pre IH]]; [now exists []|]. cbn [trim_start].
  destruct (is_white_space c).
  - exists (c :: pre). cbn [app]. now f_equal.
  - now exists [].
Qed.

Lemma trim_start_black (s : jsstring) : starts_black (trim_start s).
Proof.
  induction s as [|c r IH]; [exact I|]. cbn [trim_start].
  destruct (is_white_space c) eqn:E; [exact IH|exact E].
Qed.

Lemma trim_start_fixed (s : jsstring) : starts_black s -> trim_start s = s.
Proof. destruct s as [|c r]; [reflexivity|]. cbn. now intros ->. Qed.

Lemma trim_split (s : jsstring) :
  exists pre post, s = pre ++ trim s ++ post /\ trim_start s = trim s ++ post.
Proof.
  destruct (trim_start_split s) as [pre Hs].
  destruct (trim_start_split (rev (trim_start s))) as [pre' Hr].
  exists pre, (rev pre'). unfold trim.
  assert (E : trim_start s = rev (trim_start (rev (trim_start s))) ++ rev pre').
  { rewrite <- rev_app_distr, <- Hr, rev_involutive. reflexivity. }
  split; [|exact E]. rewrite <- E. exact Hs.
Qed.

Lemma trim_idempotent (s : jsstring) : trim (trim s) = trim s.
Proof.
  destruct (trim_split s) as [pre [post [_ Hs]]].
  assert (Hb : starts_black (trim s)).
  { pose proof (trim_start_black s) as H. rewrite Hs in H.
    destruct (trim s); [exact I|exact H]. }
  unfold trim at 1. rewrite (trim_start_fixed _ Hb). unfold trim at 1.
  rewrite rev_involutive.
  rewrite (trim_start_fixed _ (trim_start_black (rev (trim_start s)))).
  reflexivity.
Qed.

Lemma trim_keeps_out (c : Z) (s : jsstring) : ~ In c s -> ~ In c (trim s).
Proof.
  intros Hn Hin. destruct (trim_split s) as [pre [post [Hs _]]].
  apply Hn. rewrite Hs. apply in_or_app. right. apply in_or_app. now left.
Qed.

Lemma split_comma_pieces (s : jsstring) : Forall (fun w => ~ In 44 w) (split_comma s).
Proof.
  induction s as [|c r IH]; [repeat constructor; intros []|]. cbn [split_comma].
  destruct (Z.eqb_spec c 44) as [->|Hc].
  - constructor; [intros []|exact IH].
  - destruct (split_comma r) as [|w ws].
    + repeat constructor. intros [H|[]]. congruence.
    + inversion IH as [|? ? Hw Hws]; subst. constructor; [|exact Hws].
      intros [H|H]; [congruence|now apply Hw].
Qed.

Lemma split_comma_nonempty (s : jsstring) : split_comma s <> [].
Proof.
  destruct s as [|c r]; [discriminate|]. cbn [split_comma].
  destruct (c =? 44); [discriminate|]. destruct (split_comma r); discriminate.
Qed.

Lemma split_comma_app (a r : jsstring) :
  ~ In 44 a -> split_comma (a ++ 44 :: r) = a :: split_comma r.
Proof.
  induction a as [|c a IH]; intros Hn; [reflexivity|].
  cbn [app split_comma].
  destruct (Z.eqb_spec c 44) as [->|Hc]; [exfalso; apply Hn; now left|].
  rewrite IH; [reflexivity|]. intros H. apply Hn. now right.
Qed.

Lemma split_comma_whole (a : jsstring) : ~ In 44 a -> split_comma a = [a].
Proof.
  induction a as [|c a IH]; intros Hn; [reflexivity|]. cbn [split_comma].
  destruct (Z.eqb_spec c 44) as [->|Hc]; [exfalso; apply Hn; now left|].
  rewrite IH; [reflexivity|]. intros H. apply Hn. now right.
Qed.

Lemma tag_list_cons (w : jsstring) (ws : list jsstring) :
  filter (fun t => 0 < Z.of_nat (length t)) (trim w :: ws)
  = if bool_decide (trim w = []) then filter (fun t => 0 < Z.of_nat (length t)) ws
    else trim w :: filter (fun t => 0 < Z.of_nat (length t)) ws.
Proof.
  rewrite filter_cons. case_bool_decide as E; case_decide as D; try reflexivity.
  - rewrite E in D. simpl in D. lia.
  - destruct (trim w); [congruence|simpl in D; lia].
Qed.

(** X15. Every tag sent with a template is clean: not empty, free of
    leading and trailing white space (trimming it again changes nothing)
    and without a comma. *)
Theorem tag_list_clean (tags : jsstring) : Forall clean (tag_list tags).
Proof.
  unfold tag_list. pose proof (split_comma_pieces tags) as H.
  induction H as [|w ws Hw Hws IH]; [constructor|].
  cbn [map]. rewrite tag_list_cons. case_bool_decide as E; [exact IH|].
  constructor; [|exact IH]. split; [exact E|]. split; [apply trim_idempotent|].
  now apply trim_keeps_out.
Qed.

Lemma trim_space (w : jsstring) : trim (32 :: w) = trim w.
Proof. reflexivity. Qed.

Lemma split_comma_space (s : jsstring) :
  map trim (split_comma (32 :: s)) = map trim (split_comma s).
Proof.
  cbn [split_comma]. change (32 =? 44) with false. cbv iota.
  pose proof (split_comma_nonempty s) as Hne.
  destruct (split_comma s) as [|w ws]; [congruence|]. cbn [map].
  now rewrite trim_space.
Qed.

Lemma tag_list_join (l : list jsstring) : Forall clean l -> tag_list (join l) = l.
Proof.
  induction 1 as [|t rest [Ht [Htrim Hc]] Hrest IH]; [reflexivity|].
  destruct rest as [|u rest'].
  - cbn [join]. unfold tag_list. rewrite (split_comma_whole t Hc). cbn [map].
    rewrite tag_list_cons, Htrim. case_bool_decide; [congruence|reflexivity].
  - change (join (t :: u :: rest')) with (t ++ 44 :: 32 :: join (u :: rest')).
    unfold tag_list. rewrite (split_comma_app t _ Hc). cbn [map].
    rewrite split_comma_space, tag_list_cons, Htrim.
    case_bool_decide; [congruence|]. f_equal. exact IH.
Qed.

Lemma Array_includes_In (a : list jsstring) (tag : jsstring) :
  Array_includes a tag = true <-> In tag a.
Proof.
  unfold Array_includes. rewrite existsb_exists. split.
  - intros [t [Hin Ht]]. apply bool_decide_eq_true in Ht. now subst.
  - intros Hin. exists tag. split; [exact Hin|]. now apply bool_decide_eq_true.
Qed.

(** X16. Adding a clean tag (such as each of the dialog's quick tags)
    appends it to the list of tags when it is not there yet and leaves
    the list alone when it is; afterwards the tag is in the list, and
    adding it once more changes nothing. *)
Theorem addTag_spec (tag tags : jsstring) :
  clean tag ->
  let tags' := addTag tag tags in
  tag_list tags'
  = (if Array_includes (tag_list tags) tag then tag_list tags
     else tag_list tags ++ [tag])
  /\ In tag (tag_list tags')
  /\ addTag tag tags' = tags'.
Proof.
  intros Hc. cbv zeta.
  assert (Hl : tag_list (addTag tag tags)
               = if Array_includes (tag_list tags) tag then tag_list tags
                 else tag_list tags ++ [tag]).
  { unfold addTag. destruct (Array_includes (tag_list tags) tag); cbn [negb];
      [reflexivity|].
    apply tag_list_join. apply Forall_app. split; [apply tag_list_clean|].
    constructor; [exact Hc|constructor]. }
  assert (Hin : In tag (tag_list (addTag tag tags))).
  { rewrite Hl. destruct (Array_includes (tag_list tags) tag) eqn:E.
    - now apply Array_includes_In.
    - apply in_or_app. right. now left. }
  split; [exact Hl|]. split; [exact Hin|].
  apply Array_includes_In in Hin. unfold addTag at 1. now rewrite Hin.
Qed.

Lemma addTag_spec_witness :
  let tags' := addTag (ascii_str "API") (ascii_str "PlantUML ,, flow") in
  tag_list tags'
  = (if Array_includes (tag_list (ascii_str "PlantUML ,, flow")) (ascii_str "API")
     then tag_list (ascii_str "PlantUML ,, flow")
     else tag_list (ascii_str "PlantUML ,, flow") ++ [ascii_str "API"])
  /\ In (ascii_str "API") (tag_list tags')
  /\ addTag (ascii_str "API") tags' = tags'.
Proof.
  apply (addTag_spec (ascii_str "API") (ascii_str "PlantUML ,, flow")).
  split; [discriminate|]. split; [reflexivity|].
  vm_compute. intros [H|[H|[H|[]]]]; discriminate H.
Defined.

Lemma split_length (sep : Z) (s : jsstring) :
  length (Tags.split sep s) = S (count_occ Z.eq_dec s sep).
Proof.
  induction s as [|c r IH]; [reflexivity|]. cbn [Tags.split count_occ].
  destruct (Z.eqb_spec c sep) as [->|Hc].
  - destruct (Z.eq_dec sep sep); [|congruence]. cbn [length]. now rewrite IH.
  - destruct (Z.eq_dec c sep); [congruence|].
    destruct (Tags.split sep r) as [|w ws]; [discriminate IH|exact IH].
Qed.

(** X17. The line count shown for the content is one more than its number
    of line feeds: at least 1, also for the empty content, and at most
    one more than the number of its code units. *)
Theorem contentStats_lines (content : jsstring) :
  let '(total, lines) := contentStats content in
  total = length content
  /\ lines = S (count_occ Z.eq_dec content 10)
  /\ (1 <= lines <= S total)%nat.
Proof.
  unfold contentStats. rewrite split_length.
  pose proof (count_occ_bound Z.eq_dec 10 content). repeat split; lia.
Qed.
End TagsFacts.

(** ** The outcome of an upload *)

Section UploadOutcomes.
Import JS Upload.
Local Open Scope string_scope.
Local Open Scope Z_scope.
Local Open Scope list_scope.
Variable JSON_parse : jsstring -> completion json.
Variable JSON_stringify : json -> jsstring.
Variable unshift_error : json -> jsstring.

(** The list [saveToLocalStorage] puts the template in front of. *)
Lemma saveToLocalStorage_returns (setItem_throws : option jsstring) (data : templateData)
  (localStorage localStorage' : gmap string jsstring) :
  saveToLocalStorage JSON_parse JSON_stringify unshift_error setItem_throws data
    localStorage = Returns localStorage' ->
  setItem_throws = None
  /\ exists l, localStorage'
               = <[local_key := JSON_stringify (JArr (to_json data :: l))]> localStorage.
Proof.
  unfold saveToLocalStorage.
  destruct (match localStorage !! local_key with
            | Some text =>
              if truthy text
              then try_catch (JSON_parse text) (fun _ => Returns (JArr []))
              else Returns (JArr [])
            | None => Returns (JArr [])
            end) as [[]|]; cbn [bind]; try discriminate.
  destruct setItem_throws; [discriminate|]. intros [= <-].
  split; [reflexivity|]. now eexists.
Qed.

(** X18. However the host answers, after the upload has settled
    [isUploading] is false and the form's texts are untouched. The dialog
    either reports success, sets [showSuccess] and schedules its closing
    after 1500 ms, or reports a failure, schedules nothing and leaves the
    local store as it was. The local store is written only when the host
    rejected, and then only its templates entry changes. *)
Theorem handleUpload_settle_outcomes (setItem_throws : option jsstring)
  (data : templateData) (r : settled unit)
  (localStorage : gmap string jsstring) (f : form) :
  let '(f', localStorage', t) :=
    handleUpload_settle JSON_parse JSON_stringify unshift_error setItem_throws data r
      localStorage f in
  isUploading f' = false
  /\ title f' = title f /\ description f' = description f
  /\ category f' = category f /\ tags f' = tags f
  /\ ((exists msg, uploadResult f' = Some (true, msg)) /\ showSuccess f' = true
      /\ t = Some (close_after 1500)
      \/ (exists msg, uploadResult f' = Some (false, msg))
         /\ showSuccess f' = showSuccess f /\ t = None
         /\ localStorage' = localStorage /\ r <> Resolved tt)
  /\ (r = Resolved tt -> localStorage' = localStorage)
  /\ (forall k, k <> local_key -> localStorage' !! k = localStorage !! k).
Proof.
  unfold handleUpload_settle. destruct r as [[]|e].
  - cbn [set_uploading set_result set_success isUploading title description category
         tags uploadResult showSuccess].
    repeat split. left. repeat split. now eexists.
  - destruct (saveToLocalStorage JSON_parse JSON_stringify unshift_error setItem_throws
                data localStorage) as [ls|err] eqn:E;
      cbn [set_uploading set_result set_success isUploading title description category
           tags uploadResult showSuccess].
    + repeat split.
      * left. repeat split. now eexists.
      * discriminate.
      * intros k Hk. apply saveToLocalStorage_returns in E.
        destruct E as [_ [l ->]]. now rewrite lookup_insert_ne.
    + repeat split; try discriminate.
      right. repeat split; [now eexists|discriminate].
Qed.

(** X19. When the host rejects, the upload fails in two cases only: the
    text already stored locally is not empty and parses to a JSON value
    that is not a list ([null], an object, a number: [unshift] then
    throws a TypeError), or [setItem] throws because the store is full.
    The dialog then shows the text of that exception after the words for
    a failed upload, and the store is as it was. In every other case, a
    missing, empty or unparsable stored text included (unparsable data is
    dropped without notice), the store then holds a list whose first
    element is the new template. *)
Theorem upload_fails_locally_iff (setItem_throws : option jsstring)
  (data : templateData) (e : JS.error)
  (localStorage : gmap string jsstring) (f : form) :
  let '(f', localStorage', t) :=
    handleUpload_settle JSON_parse JSON_stringify unshift_error setItem_throws data
      (Rejected e) localStorage f in
  let not_a_list v :=
    exists text, localStorage !! local_key = Some text /\ text <> []
                 /\ JSON_parse text = Returns v /\ isArray v = false in
  (t = None <-> (exists v, not_a_list v) \/ setItem_throws <> None)
  /\ (forall v, not_a_list v ->
        uploadResult f' = Some (false, lit "上传失败: " ++ unshift_error v)
        /\ localStorage' = localStorage)
  /\ (forall text, setItem_throws = Some text -> (forall v, ~ not_a_list v) ->
        uploadResult f' = Some (false, lit "上传失败: " ++ text)
        /\ localStorage' = localStorage)
  /\ (t <> None ->
      exists l, localStorage' !! local_key
                = Some (JSON_stringify (JArr (to_json data :: l)))).
Proof.
  unfold handleUpload_settle, saveToLocalStorage.
  assert (Hstore : forall l : list json,
            let '(f', localStorage', t) :=
              match
                match setItem_throws with
                | None =>
                  Returns (<[local_key := JSON_stringify (JArr (to_json data :: l))]>
                             localStorage)
                | Some text => Throws (HostError text)
                end
              with
              | Returns localStorage' =>
                (set_uploading false
                   (set_result (Some (true, lit "模板上传成功！")) (set_success true f)),
                 localStorage', Some (close_after 1500))
              | Throws err =>
                (set_uploading false
                   (set_result (Some (false, lit "上传失败: " ++ Templates.error_text err))
                      f),
                 localStorage, None)
              end in
            (t = None <-> setItem_throws <> None)
            /\ (forall text, setItem_throws = Some text ->
                  uploadResult f' = Some (false, lit "上传失败: " ++ text)
                  /\ localStorage' = localStorage)
            /\ (t <> None ->
                exists l, localStorage' !! local_key
                          = Some (JSON_stringify (JArr (to_json data :: l))))).
  { intros l. destruct setItem_throws as [text|].
    - cbn [set_uploading set_result uploadResult Templates.error_text].
      split; [split; [discriminate|reflexivity]|].
      split; [intros ? [= <-]; split; reflexivity|congruence].
    - split; [split; [discriminate|congruence]|].
      split; [discriminate|]. intros _. exists l. apply lookup_insert_eq. }
  assert (Hlist : forall l : list json,
            (forall v, ~ (exists text, localStorage !! local_key = Some text /\ text <> []
                                       /\ JSON_parse text = Returns v
                                       /\ isArray v = false)) ->
            let '(f', localStorage', t) :=
              match
                match setItem_throws with
                | None =>
                  Returns (<[local_key := JSON_stringify (JArr (to_json data :: l))]>
                             localStorage)
                | Some text => Throws (HostError text)
                end
              with
              | Returns localStorage' =>
                (set_uploading false
                   (set_result (Some (true, lit "模板上传成功！")) (set_success true f)),
                 localStorage', Some (close_after 1500))
              | Throws err =>
                (set_uploading false
                   (set_result (Some (false, lit "上传失败: " ++ Templates.error_text err))
                      f),
                 localStorage, None)
              end in
            (t = None <->
             (exists v text, localStorage !! local_key = Some text /\ text <> []
                             /\ JSON_parse text = Returns v /\ isArray v = false)
             \/ setItem_throws <> None)
            /\ (forall v,
                  (exists text, localStorage !! local_key = Some text /\ text <> []
                                /\ JSON_parse text = Returns v /\ isArray v = false) ->
                  uploadResult f' = Some (false, lit "上传失败: " ++ unshift_error v)
                  /\ localStorage' = localStorage)
            /\ (forall text, setItem_throws = Some text ->
                  (forall v, ~ (exists text, localStorage !! local_key = Some text
                                             /\ text <> []
                                             /\ JSON_parse text = Returns v
                                             /\ isArray v = false)) ->
                  uploadResult f' = Some (false, lit "上传失败: " ++ text)
                  /\ localStorage' = localStorage)
            /\ (t <> None ->
                exists l, localStorage' !! local_key
                          = Some (JSON_stringify (JArr (to_json data :: l))))).
  { intros l Hno. specialize (Hstore l).
    destruct (match
                match setItem_throws with
                | None =>
                  Returns (<[local_key := JSON_stringify (JArr (to_json data :: l))]>
                             localStorage)
                | Some text => Throws (HostError text)
                end
              with
              | Returns localStorage' => _
              | Throws err => _
              end) as [[f' ls'] t].
    destruct Hstore as [H1 [H2 H3]].
    split; [|split; [|split]].
    - split; [intros Ht; right; now apply H1|].
      intros [[v [text Hv]]|Hs]; [exfalso; apply (Hno v); now exists text|now apply H1].
    - intros v Hv. exfalso. now apply (Hno v).
    - intros text Hs _. now apply H2.
    - exact H3. }
  cbv zeta.
  destruct (localStorage !! local_key) as [[|c text]|] eqn:El.
  - cbn [truthy bind]. apply Hlist.
    intros v [t' [[= <-] [Hne _]]]. congruence.
  - cbn [truthy]. destruct (JSON_parse (c :: text)) as [v|err] eqn:Ep.
    + cbn [try_catch bind].
      assert (Hbad : isArray v = false ->
                exists text0, Some (c :: text) = Some text0 /\ text0 <> []
                              /\ JSON_parse text0 = Returns v /\ isArray v = false).
      { intros Ha. exists (c :: text). repeat split; [discriminate|exact Ep|exact Ha]. }
      assert (Honly : forall v', (exists text0, Some (c :: text) = Some text0
                                                /\ text0 <> []
                                                /\ JSON_parse text0 = Returns v'
                                                /\ isArray v' = false) -> v' = v).
      { intros v' [t' [[= <-] [_ [Hp _]]]]. congruence. }
      destruct v;
        try (cbn [set_uploading set_result uploadResult Templates.error_text];
             split; [split; [intros _; left; eexists; now apply Hbad|reflexivity]|];
             split; [intros v' Hv'; rewrite (Honly v' Hv'); split; reflexivity|];
             split; [intros t0 _ Hno; exfalso; eapply Hno; now apply Hbad
                    |congruence]).
      apply Hlist. intros v' Hv'. pose proof (Honly v' Hv') as ->.
      destruct Hv' as [_ [_ [_ [_ Ha]]]]. discriminate Ha.
    + cbn [try_catch bind]. apply Hlist.
      intros v [t' [[= <-] [_ [Hp _]]]]. congruence.
  - cbn [bind]. apply Hlist. intros v [t' [Hl _]]. discriminate Hl.
Qed.
End UploadOutcomes.

(** ** The scales of the charts *)

Section ChartsFacts.
Import JS Metrics Charts.
Local Open Scope Z_scope.
Local Open Scope list_scope.

Lemma Math_max_ge (x : Z) (rest : list Z) :
  x <= Math_max x rest /\ List.Forall (fun y => y <= Math_max x rest) rest.
Proof.
  unfold Math_max. revert x. induction rest as [|y r IH]; intros x.
  - split; [cbn; lia|constructor].
  - cbn [fold_left]. destruct (IH (Z.max x y)) as [H1 H2]. split; [lia|].
    constructor; [lia|exact H2].
Qed.

Lemma Math_max_in (x : Z) (rest : list Z) :
  Math_max x rest = x \/ In (Math_max x rest) rest.
Proof.
  unfold Math_max. revert x. induction rest as [|y r IH]; intros x.
  - now left.
  - cbn [fold_left]. destruct (IH (Z.max x y)) as [H|H].
    + rewrite H. destruct (Z.max_spec x y) as [[_ ->]|[_ ->]]; [right; now left|now left].
    + right. now right.
Qed.

Lemma ceil_div_bounds (a b : Z) : 0 < b -> a <= ceil_div a b * b < a + b.
Proof.
  intros Hb. unfold ceil_div.
  pose proof (Z.div_mod (- a) b ltac:(lia)) as E.
  pose proof (Z.mod_pos_bound (- a) b Hb) as M. nia.
Qed.

(** X20. For line counts that are safe integers, the scale of the lines
    chart is 100 when there is nothing to show; otherwise it is a multiple
    of 100 that no bar exceeds (neither a record's AI lines nor its manual
    lines), and the least such multiple: some record comes within 100 of
    it. The scale stays within 100 of the safe integers. *)
Theorem maxLines_scale (chart : list MetricData) :
  List.Forall (fun m => safe_integer (ai_lines_of_code m)
                        /\ safe_integer (manual_lines_of_code m)) chart ->
  let top := maxLines chart in
  top mod 100 = 0
  /\ List.Forall (fun m => ai_lines_of_code m <= top /\ manual_lines_of_code m <= top) chart
  /\ match chart with
     | [] => top = 100
     | _ :: _ => exists m, In m chart /\ top - 100 < lines m <= top
     end
  /\ - 2 ^ 53 < top < 2 ^ 53 + 100.
Proof.
  intros Hsafe. cbv zeta. destruct chart as [|m rest].
  - cbn [maxLines]. split; [reflexivity|]. split; [constructor|].
    split; [reflexivity|lia].
  - cbn [maxLines]. cbv zeta.
    set (mx := Math_max (lines m) (map lines rest)).
    pose proof (ceil_div_bounds mx 100 ltac:(lia)) as Hc.
    destruct (Math_max_ge (lines m) (map lines rest)) as [Hm Hr]. fold mx in Hm, Hr.
    assert (Hin : exists x, In x (m :: rest) /\ lines x = mx).
    { destruct (Math_max_in (lines m) (map lines rest)) as [H|H]; fold mx in H.
      - exists m. split; [now left|now symmetry].
      - apply in_map_iff in H. destruct H as [x [Hx Hin]].
        exists x. split; [now right|exact Hx]. }
    split; [apply Z.mod_mul; lia|]. split; [|split].
    + constructor; [unfold lines in Hm; lia|].
      rewrite List.Forall_forall in Hr. apply List.Forall_forall. intros x Hx.
      specialize (Hr (lines x) (in_map lines rest x Hx)). unfold lines in Hr. lia.
    + destruct Hin as [x [Hx Ex]]. exists x. split; [exact Hx|]. rewrite Ex. lia.
    + destruct Hin as [x [Hx Ex]]. rewrite List.Forall_forall in Hsafe.
      destruct (Hsafe x Hx) as [Ha Hb]. unfold safe_integer in Ha, Hb.
      unfold lines in Ex. lia.
Qed.

Lemma maxLines_scale_witness :
  maxLines two_bars = 300
  /\ List.Forall (fun m => ai_lines_of_code m <= 300 /\ manual_lines_of_code m <= 300)
       two_bars.
Proof.
  assert (E : maxLines two_bars = 300) by reflexivity.
  split; [exact E|]. rewrite <- E.
  apply (maxLines_scale two_bars).
  repeat constructor; unfold safe_integer; cbn; lia.
Defined.

(** X21. The scale of the review chart is never 0, so the bar heights
    never divide by it in vain, and no record's review count exceeds it;
    it is 1 when nothing is shown or the largest count is 0, and the
    largest count otherwise. *)
Theorem maxReviewComments_scale (chart : list MetricData) :
  let top := maxReviewComments chart in
  top <> 0
  /\ List.Forall (fun m => review_comments_count m <= top) chart
  /\ (top = 1 \/ exists m, In m chart /\ review_comments_count m = top).
Proof.
  cbv zeta. destruct chart as [|m rest].
  - repeat split; [discriminate|constructor|now left].
  - cbn [maxReviewComments]. cbv zeta.
    set (mx := Math_max (review_comments_count m) (map review_comments_count rest)).
    destruct (Math_max_ge (review_comments_count m) (map review_comments_count rest))
      as [Hm Hr]. fold mx in Hm, Hr.
    assert (Hall : List.Forall (fun x => review_comments_count x <= mx) (m :: rest)).
    { constructor; [exact Hm|]. rewrite List.Forall_forall in Hr.
      apply List.Forall_forall. intros x Hx.
      exact (Hr _ (in_map review_comments_count rest x Hx)). }
    destruct (Z.eqb_spec mx 0) as [E|E].
    + split; [discriminate|]. split; [|now left].
      eapply List.Forall_impl; [|exact Hall]. cbn beta. intros x Hx. lia.
    + split; [exact E|]. split; [exact Hall|]. right.
      destruct (Math_max_in (review_comments_count m) (map review_comments_count rest))
        as [H|H]; fold mx in H.
      * exists m. split; [now left|now symmetry].
      * apply in_map_iff in H. destruct H as [x [Hx Hin]].
        exists x. split; [now right|exact Hx].
Qed.

Variable getTime : jsstring -> Number.

Lemma sorted_split (l1 l2 : list MetricData) :
  ascending getTime (l1 ++ l2) ->
  List.Forall (fun o => List.Forall (le_date getTime o) l2) l1.
Proof.
  unfold ascending. induction l1 as [|a l1 IH]; intros H; [constructor|].
  cbn [app] in H. inversion H as [|? ? Hs Hf]; subst. constructor.
  - apply Forall_app in Hf. now destruct Hf.
  - now apply IH.
Qed.

(** X22. The chart shows the latest records. When every record's date is
    a date, the records split into the ones shown and the ones left out:
    together they are the records (counted with repetitions), the chart
    holds 7 of them, or all when there are fewer, and no record left out
    is dated after a record shown. *)
Theorem chartData_latest (engine : sort_order) (metrics : positive) (h : store)
  (records : list MetricData) :
  conforming engine ->
  h !! metrics = Some records ->
  List.Forall (valid_date getTime) records ->
  let chart := deref (snd (chartData getTime engine metrics h))
                     (fst (chartData getTime engine metrics h)) in
  exists older,
    Permutation (older ++ chart) records
    /\ length chart = Nat.min 7 (length records)
    /\ List.Forall (fun o => List.Forall (le_date getTime o) chart) older.
Proof.
  intros [_ Hsort] Hm Hv. cbv zeta.
  rewrite (chartData_deref getTime engine metrics h records Hm).
  rewrite (Hsort _ records (by_date_consistent getTime records Hv)).
  set (sorted := sorted_copy (by_date getTime) records).
  pose proof (sorted_copy_perm (by_date getTime) records) as Hp. fold sorted in Hp.
  pose proof (sorted_copy_ascending getTime records Hv) as Ha. fold sorted in Ha.
  exists (firstn (length sorted - 7) sorted).
  rewrite firstn_skipn. split; [exact Hp|]. split.
  - rewrite length_skipn, (Permutation_length Hp). lia.
  - apply sorted_split. now rewrite firstn_skipn.
Qed.
End ChartsFacts.

(** Nine dated records: two are left out, the two earliest, and seven
    are shown. *)
Lemma chartData_latest_witness :
  let h := Metrics.store_of Metrics.nine_records in
  let chart := Metrics.deref
                 (snd (Metrics.chartData Metrics.iso_getTime Metrics.insertion_sort
                         1%positive h))
                 (fst (Metrics.chartData Metrics.iso_getTime Metrics.insertion_sort
                         1%positive h)) in
  exists older,
    length older = 2%nat
    /\ Permutation (older ++ chart) Metrics.nine_records
    /\ length chart = 7%nat
    /\ List.Forall (fun o => List.Forall (Metrics.le_date Metrics.iso_getTime o) chart)
         older
    /\ List.Forall (fun o => In o [Metrics.record "2024-03-01" 1;
                                   Metrics.record "2024-03-02" 2]) older.
Proof.
  cbv zeta.
  destruct (chartData_latest Metrics.iso_getTime Metrics.insertion_sort 1%positive
              (Metrics.store_of Metrics.nine_records) Metrics.nine_records
              insertion_sort_conforming (lookup_insert_eq _ _ _)
              ltac:(repeat constructor; discriminate))
    as [older [Hp [Hl Hf]]].
  assert (Hc : Metrics.deref
                 (snd (Metrics.chartData Metrics.iso_getTime Metrics.insertion_sort
                         1%positive (Metrics.store_of Metrics.nine_records)))
                 (fst (Metrics.chartData Metrics.iso_getTime Metrics.insertion_sort
                         1%positive (Metrics.store_of Metrics.nine_records)))
               = Metrics.latest_seven) by (vm_compute; reflexivity).
  rewrite Hc in *. exists older.
  assert (Hlen : length older = 2%nat).
  { apply Permutation_length in Hp. rewrite length_app in Hp.
    change (length Metrics.latest_seven) with 7%nat in Hp.
    change (length Metrics.nine_records) with 9%nat in Hp. lia. }
  split; [exact Hlen|]. split; [exact Hp|]. split; [reflexivity|]. split; [exact Hf|].
  apply List.Forall_forall. intros o Ho.
  assert (Hin : In o Metrics.nine_records).
  { eapply Permutation_in; [exact Hp|]. apply in_or_app. now left. }
  assert (Hno : ~ In o Metrics.latest_seven).
  { intros Hin7. rewrite List.Forall_forall in Hf.
    pose proof (Hf o Ho) as Hall. rewrite List.Forall_forall in Hall.
    assert (Hnd : NoDup (older ++ Metrics.latest_seven)).
    { rewrite Hp. apply NoDup_ListNoDup. unfold Metrics.nine_records.
      repeat (constructor; [cbn [In]; intros H;
                            repeat (destruct H as [H|H]; [discriminate H|]); exact H|]).
      constructor. }
    apply NoDup_app in Hnd. destruct Hnd as [_ [Hd _]].
    apply (Hd o); [now apply list_elem_of_In|now apply list_elem_of_In]. }
  unfold Metrics.nine_records in Hin. unfold Metrics.latest_seven in Hno.
  cbn [In] in Hin, Hno |- *.
  repeat (destruct Hin as [Hin|Hin]; [subst o; tauto|]). contradiction.
Defined.

(** ** Review comments by severity *)

Section ReviewFacts.
Import JS Review.
Local Open Scope Z_scope.
Local Open Scope list_scope.

Lemma increment_other (k k' : jsstring) (stats : counters) :
  k <> k' -> increment k stats !! k' = stats !! k'.
Proof.
  intros Hk. unfold increment.
  destruct (stats !! k) as [[n|]|]; try case_bool_decide;
    try reflexivity; now rewrite lookup_insert_ne.
Qed.

Lemma increment_same (k : jsstring) (stats : counters) (n : Z) :
  stats !! k = Some (Int n) -> increment k stats !! k = Some (Int (n + 1)).
Proof. intros H. unfold increment. rewrite H. now rewrite lookup_insert_eq. Qed.

Lemma tally_cons (k : jsstring) (c : ReviewComment) (l : list ReviewComment) :
  tally k (c :: l) = (if bool_decide (severity c = k) then 1 else 0) + tally k l.
Proof.
  unfold tally. cbn [List.filter]. case_bool_decide; cbn [length]; lia.
Qed.

Lemma fold_increment (k : jsstring) (l : list ReviewComment) (stats : counters) (n : Z) :
  stats !! k = Some (Int n) ->
  fold_left (fun stats c => increment (severity c) stats) l stats !! k
  = Some (Int (n + tally k l)).
Proof.
  revert stats n. induction l as [|c l IH]; intros stats n H.
  - cbn [fold_left]. rewrite H. unfold tally. cbn. do 2 f_equal. lia.
  - cbn [fold_left]. rewrite tally_cons. case_bool_decide as E.
    + rewrite (IH _ (n + 1)); [do 2 f_equal; lia|]. rewrite E. now apply increment_same.
    + rewrite (IH _ n); [do 2 f_equal; lia|]. now rewrite increment_other.
Qed.

Lemma tally_total (l : list ReviewComment) :
  tally critical l + tally warning l + tally suggestion l
  + Z.of_nat (length (List.filter unlisted l)) = Z.of_nat (length l).
Proof.
  induction l as [|c l IH]; [reflexivity|]. rewrite !tally_cons.
  cbn [List.filter length]. unfold unlisted at 1.
  repeat case_bool_decide; cbn [negb orb length]; try lia;
    exfalso; match goal with
             | H1 : severity c = _, H2 : severity c = _ |- _ =>
               rewrite H1 in H2; vm_compute in H2; discriminate H2
             end.
Qed.

(** X23. The three counters count the comments by severity: each holds
    the number of comments with that severity, whatever other severities
    occur among the comments (a comment with another severity changes none
    of the three); the three add up to the number of comments less those
    with another severity. *)
Theorem severityStats_counts (reviewComments : list ReviewComment) :
  let stats := severityStats reviewComments in
  stats !! critical = Some (Int (tally critical reviewComments))
  /\ stats !! warning = Some (Int (tally warning reviewComments))
  /\ stats !! suggestion = Some (Int (tally suggestion reviewComments))
  /\ tally critical reviewComments + tally warning reviewComments
     + tally suggestion reviewComments
     = Z.of_nat (length reviewComments)
       - Z.of_nat (length (List.filter unlisted reviewComments)).
Proof.
  cbv zeta. unfold severityStats.
  repeat split.
  - rewrite (fold_increment critical reviewComments _ 0); [reflexivity|].
    vm_compute. reflexivity.
  - rewrite (fold_increment warning reviewComments _ 0); [reflexivity|].
    vm_compute. reflexivity.
  - rewrite (fold_increment suggestion reviewComments _ 0); [reflexivity|].
    vm_compute. reflexivity.
  - pose proof (tally_total reviewComments). lia.
Qed.
Lemma tally_app (k : jsstring) (l1 l2 : list ReviewComment) :
  tally k (l1 ++ l2) = tally k l1 + tally k l2.
Proof.
  induction l1 as [|c l1 IH]; [unfold tally; cbn; lia|].
  cbn [app]. rewrite !tally_cons, IH. lia.
Qed.

(** X24. A comment added by hand counts as a suggestion. When the prompt
    is answered with a non-empty text and the host accepts the comment,
    the comment is put last, its content is the answer, and the
    suggestion counter grows by one while the other two stay; a dismissed
    or empty answer sends nothing, and a rejection leaves the comments as
    they were. *)
Theorem addManualComment_counts (answer : option jsstring) (now : Z) (iso : jsstring)
  (r : settled unit) (reviewComments : list ReviewComment) :
  match addManualComment_start answer now iso with
  | None => answer = None \/ answer = Some []
  | Some comment =>
    answer = Some (content comment) /\ content comment <> []
    /\ let after := addManualComment_settle comment r reviewComments in
       match r with
       | Resolved _ =>
         after = reviewComments ++ [comment]
         /\ severityStats after !! suggestion
            = Some (Int (tally suggestion reviewComments + 1))
         /\ severityStats after !! critical = severityStats reviewComments !! critical
         /\ severityStats after !! warning = severityStats reviewComments !! warning
       | Rejected _ => after = reviewComments
       end
  end.
Proof.
  unfold addManualComment_start. destruct answer as [[|c text]|]; cbn [truthy negb].
  - now right.
  - cbn [content]. split; [reflexivity|]. split; [discriminate|]. cbv zeta.
    destruct r as [u|e]; cbn [addManualComment_settle]; [|reflexivity].
    split; [reflexivity|]. unfold severityStats.
    rewrite (fold_increment suggestion _ _ 0) by (vm_compute; reflexivity).
    rewrite !(fold_increment critical _ _ 0) by (vm_compute; reflexivity).
    rewrite !(fold_increment warning _ _ 0) by (vm_compute; reflexivity).
    rewrite !tally_app, !tally_cons. cbn [severity].
    assert (Hs : bool_decide (suggestion = suggestion) = true)
      by now apply bool_decide_eq_true_2.
    assert (Hc : bool_decide (suggestion = critical) = false)
      by (apply bool_decide_eq_false_2; vm_compute; discriminate).
    assert (Hw : bool_decide (suggestion = warning) = false)
      by (apply bool_decide_eq_false_2; vm_compute; discriminate).
    rewrite Hs, Hc, Hw. change (tally ?k []) with 0.
    repeat split; do 2 f_equal; lia.
  - now left.
Qed.
End ReviewFacts.
